(** * The request-dispatch pipeline of [django.core.handlers]

    A shallow embedding of [core/handlers/exception.py] and
    [core/handlers/base.py]: the exception classifier
    ([response_for_exception] and its helpers), the fault-containment wrapper
    ([convert_exception_to_response]), the chain builder ([load_middleware]),
    the dispatch engine ([_get_response], [_get_response_async]) and the
    pipeline entry point ([get_response], [get_response_async]).

    Around the pipeline, each in a module of its own: the request body
    stream and the script name of [core/handlers/wsgi.py], the connection
    handler of [utils/connection.py], the tree nodes of [utils/tree.py],
    [make_hashable] of [utils/hashable.py], and the thread sharing and
    commit callbacks of the database wrapper of [db/backends/base/base.py].

    Python code that mutates objects and raises exceptions is written in a
    state-and-exception monad: a computation takes the current state and gives
    back either a value or a raised exception, together with the state reached
    (mutations made before an exception is raised are kept, as in Python). *)

From Stdlib Require Import String List ZArith Bool Lia Permutation DecimalString.
Import ListNotations.

Local Open Scope list_scope.
Local Open Scope string_scope.
Local Open Scope Z_scope.

(** ** Exceptions *)

(** Modelled from the spec: the exception classes are declared outside the
    sources ([django.core.exceptions], [django.http], [django.urls]).  These
    are the classes the handlers name, with single inheritance; the kinds of
    the classification table are unrelated to each other, and the body, field
    and file limit kinds are subkinds of [SuspiciousOperation], as the
    [isinstance] tests of [response_for_exception] expect.  [Custom name base]
    is a class defined by application code as a subclass of [base]. *)
Inductive exc_class : Type :=
| Exception_
| Http404
| Resolver404
| PermissionDenied
| MultiPartParserError
| BadRequest
| SuspiciousOperation
| RequestDataTooBig
| TooManyFieldsSent
| TooManyFilesSent
| DisallowedHost
| ImproperlyConfigured
| MiddlewareNotUsed
| ValueError
| RuntimeError
| AttributeError
| TypeError
| Custom (name : string) (base : exc_class).

Definition exc_class_eq_dec (a b : exc_class) : {a = b} + {a <> b}.
Proof. decide equality; apply string_dec. Defined.

Definition same_class (a b : exc_class) : bool :=
  if exc_class_eq_dec a b then true else false.

(** [cls.__name__] *)
Definition class_name (c : exc_class) : string :=
  match c with
  | Exception_ => "Exception"
  | Http404 => "Http404"
  | Resolver404 => "Resolver404"
  | PermissionDenied => "PermissionDenied"
  | MultiPartParserError => "MultiPartParserError"
  | BadRequest => "BadRequest"
  | SuspiciousOperation => "SuspiciousOperation"
  | RequestDataTooBig => "RequestDataTooBig"
  | TooManyFieldsSent => "TooManyFieldsSent"
  | TooManyFilesSent => "TooManyFilesSent"
  | DisallowedHost => "DisallowedHost"
  | ImproperlyConfigured => "ImproperlyConfigured"
  | MiddlewareNotUsed => "MiddlewareNotUsed"
  | ValueError => "ValueError"
  | RuntimeError => "RuntimeError"
  | AttributeError => "AttributeError"
  | TypeError => "TypeError"
  | Custom name _ => name
  end.

(** The classes a class inherits from, itself first (its method resolution
    order, up to [Exception]). *)
Fixpoint mro (c : exc_class) : list exc_class :=
  match c with
  | Exception_ => [Exception_]
  | Resolver404 => [Resolver404; Http404; Exception_]
  | RequestDataTooBig => [RequestDataTooBig; SuspiciousOperation; Exception_]
  | TooManyFieldsSent => [TooManyFieldsSent; SuspiciousOperation; Exception_]
  | TooManyFilesSent => [TooManyFilesSent; SuspiciousOperation; Exception_]
  | DisallowedHost => [DisallowedHost; SuspiciousOperation; Exception_]
  | Custom _ base => c :: mro base
  | _ => [c; Exception_]
  end.

Definition issubclass (c d : exc_class) : bool := existsb (same_class d) (mro c).

(** An exception object: its class and [str(exc)]. *)
Record exn : Type := mkExn { exc_type : exc_class; exc_str : string }.

Definition isinstance (e : exn) (c : exc_class) : bool := issubclass (exc_type e) c.

Definition isinstance_any (e : exn) (cs : list exc_class) : bool :=
  existsb (isinstance e) cs.

(** ** Outcomes and the state-and-exception monad *)

Inductive result (A : Type) : Type :=
| Ok (a : A)
| Raise (e : exn).
Arguments Ok {A} a.
Arguments Raise {A} e.

Definition M (S A : Type) : Type := S -> result A * S.

Definition ret {S A : Type} (a : A) : M S A := fun s => (Ok a, s).

Definition raise {S A : Type} (e : exn) : M S A := fun s => (Raise e, s).

Definition bind {S A B : Type} (m : M S A) (k : A -> M S B) : M S B :=
  fun s =>
    match m s with
    | (Ok a, s') => k a s'
    | (Raise e, s') => (Raise e, s')
    end.

(** [try: body  except Exception as e: handler(e)] *)
Definition try_except {S A : Type} (body : M S A) (handler : exn -> M S A) : M S A :=
  fun s =>
    match body s with
    | (Ok a, s') => (Ok a, s')
    | (Raise e, s') => handler e s'
    end.

Definition lift_result {S A : Type} (r : result A) : M S A := fun s => (r, s).

Definition modify {S : Type} (f : S -> S) : M S unit := fun s => (Ok tt, f s).

Definition gets {S A : Type} (f : S -> A) : M S A := fun s => (Ok (f s), s).

Declare Scope monad_scope.
Delimit Scope monad_scope with monad.
Notation "x <- m ;; k" := (bind m (fun x => k))
  (at level 61, m at next level, right associativity) : monad_scope.
Notation "m ;; k" := (bind m (fun _ => k))
  (at level 61, right associativity) : monad_scope.
Open Scope monad_scope.

(** ** Requests, responses and the values callables return *)

Record request : Type := mkRequest {
  path : string;
  path_info : string;
  (** [request.urlconf], when the request has the attribute: a per-request
      URLconf override (which may be [None]) *)
  request_urlconf : option (option string)
}.

(** An entry of [response._resource_closers]. *)
Inductive closer : Type :=
| request_close (r : request)
| other_closer (label : string).

(** What a view, a hook, a stage or [render()] hands back: [None], a coroutine
    object that was never awaited, or a response object. *)
Inductive pyval_ (R : Type) : Type :=
| PNone
| PCoroutine
| PResp (r : R).
Arguments PNone {R}.
Arguments PCoroutine {R}.
Arguments PResp {R} r.

Set Warnings "-register-all".

(** A response.  [render] is [Some outcome] when the object has a callable
    [render] attribute (a template response), the outcome being what calling it
    gives; [is_rendered] is the attribute of that name when the object has it.
    The [render] of the model is an ordinary method, as that of
    [SimpleTemplateResponse] is: a [render] that is a coroutine function,
    which [_get_response_async] awaits, is left out. *)
Inductive response : Type := mkResponse {
  status_code : Z;
  reason_phrase : string;
  _resource_closers : list closer;
  is_rendered : option bool;
  render : option (result (pyval_ response))
}.

Definition pyval : Type := pyval_ response.

(** [bool(v)]: response objects define neither [__bool__] nor [__len__], and a
    coroutine object is truthy. *)
Definition truthy (v : pyval) : bool :=
  match v with PNone => false | _ => true end.

Definition is_None (v : pyval) : bool :=
  match v with PNone => true | _ => false end.

(** [asyncio.iscoroutine(v)] *)
Definition iscoroutine (v : pyval) : bool :=
  match v with PCoroutine => true | _ => false end.

Definition type_name (v : pyval) : string :=
  match v with
  | PNone => "NoneType"
  | PCoroutine => "coroutine"
  | PResp _ => "HttpResponse"
  end.

(** Attribute access [v.attr] on a value that must be a response. *)
Definition attr_of {S : Type} (v : pyval) (attr : string) : M S response :=
  match v with
  | PResp r => ret r
  | _ => raise (mkExn AttributeError
                  ("'" ++ type_name v ++ "' object has no attribute '" ++ attr ++ "'"))
  end.

(** ** Logging *)

Record log_entry : Type := mkLog {
  logger : string;
  level : string;
  message : string
}.

(** The level [log_response] picks when none is given: error for a status of
    500 and above, warning from 400, info below. *)
Definition level_for_status (status : Z) : string :=
  if 500 <=? status then "error"
  else if 400 <=? status then "warning"
  else "info".

Section Pipeline.

(** The state application code works on (database, caches, ...): views, hooks,
    stages and error handlers read and change it. *)
Context {W : Type}.

(** Application code: a function of the application state, which may raise. *)
Definition appcode (A : Type) : Type := W -> result A * W.

(** *** Views and the resolver *)

(** A view, as [resolver.resolve] returns it. *)
Record View : Type := mkView {
  view_module : string;                      (* [__module__] *)
  view_name : string;                        (* [__name__], or the class's for an object *)
  view_is_function : bool;                   (* [isinstance(callback, types.FunctionType)] *)
  view_is_coroutine : bool;                  (* [iscoroutinefunction(view)] *)
  _non_atomic_requests : option (list string);
  view_call : request -> list string -> list (string * string) -> appcode pyval
}.

(** [callback, callback_args, callback_kwargs] *)
Definition resolver_match : Type := (View * list string * list (string * string))%type.

(** An error handler, called as [callback(request, exception=exc)] or, for
    the 500 handler, [callback(request)]. *)
Definition error_handler : Type := request -> option exn -> appcode pyval.

Record resolver : Type := mkResolver {
  resolve : string -> result resolver_match;
  resolve_error_handler : Z -> result error_handler
}.

(** *** The state of one request being handled *)

(** Application callables the handlers invoke, recorded in invocation order. *)
Inductive event : Type :=
| called_view (v : string)
| called_process_view (stage : string)
| called_process_template_response (stage : string)
| called_process_exception (stage : string)
| called_error_handler (status : Z).

(** [logs] holds the lines the handlers themselves write, [trace] the calls
    they make into application code; application code changes [world]. *)
Record state : Type := mkState {
  logs : list log_entry;
  trace : list event;
  (** the URLconf of the current thread, [get_urlconf()] *)
  urlconf : option string;
  (** [request.resolver_match] *)
  request_resolver_match : option resolver_match;
  (** set by [request._mark_post_parse_error()] *)
  post_parse_error : bool;
  (** how often [signals.got_request_exception] was sent *)
  got_request_exception : nat;
  world : W
}.

Definition Rq (A : Type) : Type := M state A.

Definition add_log (l : log_entry) (s : state) : state :=
  mkState (logs s ++ [l])%list (trace s) (urlconf s) (request_resolver_match s)
    (post_parse_error s) (got_request_exception s) (world s).

Definition with_urlconf (u : option string) (s : state) : state :=
  mkState (logs s) (trace s) u (request_resolver_match s)
    (post_parse_error s) (got_request_exception s) (world s).

Definition with_resolver_match (m : resolver_match) (s : state) : state :=
  mkState (logs s) (trace s) (urlconf s) (Some m)
    (post_parse_error s) (got_request_exception s) (world s).

Definition marked_post_parse_error (s : state) : state :=
  mkState (logs s) (trace s) (urlconf s) (request_resolver_match s)
    true (got_request_exception s) (world s).

Definition signalled (s : state) : state :=
  mkState (logs s) (trace s) (urlconf s) (request_resolver_match s)
    (post_parse_error s) (S (got_request_exception s)) (world s).

Definition after_call (ev : event) (w : W) (s : state) : state :=
  mkState (logs s) (trace s ++ [ev])%list (urlconf s) (request_resolver_match s)
    (post_parse_error s) (got_request_exception s) w.

Definition emit (l : log_entry) : Rq unit := modify (add_log l).

Definition set_urlconf (u : option string) : Rq unit := modify (with_urlconf u).

Definition get_urlconf : Rq (option string) := gets urlconf.

Definition set_resolver_match (m : resolver_match) : Rq unit :=
  modify (with_resolver_match m).

(** Modelled from the spec: [HttpRequest._mark_post_parse_error] is not among
    the sources; it marks the request's already-parsed body unusable, which
    is recorded as a flag of the request. *)
Definition _mark_post_parse_error : Rq unit := modify marked_post_parse_error.

Definition send_got_request_exception : Rq unit := modify signalled.

(** Invoke application code: the call is recorded, then the code runs on the
    application state. *)
Definition invoke {A : Type} (ev : event) (f : appcode A) : Rq A :=
  fun s => let (r, w) := f (world s) in (r, after_call ev w s).

(** Modelled from the spec: [django.utils.log.log_response] is not among the
    sources.  It emits one line, the formatted message, on the request
    logger [django.request], at the level the response's status gives. *)
Definition log_response (msg : string) (response : pyval) : Rq unit :=
  r <- attr_of response "status_code" ;;
  emit (mkLog "django.request" (level_for_status (status_code r)) msg).

(** [await] and the adapters of [asgiref.sync] applied to a call: the
    computation is run to its end either way, so they do not change what it
    returns or raises. *)
Definition await {A : Type} (m : Rq A) : Rq A := m.
Definition sync_to_async {A : Type} (thread_sensitive : bool) (m : Rq A) : Rq A := m.
Definition async_to_sync {A : Type} (m : Rq A) : Rq A := m.

(** *** Settings and collaborators *)

Record settings_dict : Type := mkSettingsDict { ATOMIC_REQUESTS : bool }.

(** A hook, the bound method of a stage instance. *)
Record hook (Args : Type) : Type := mkHook {
  hook_module : string;                      (* [__module__] *)
  hook_class : string;                       (* [__self__.__class__.__name__] *)
  hook_is_coroutine : bool;                  (* [iscoroutinefunction(method)] *)
  hook_adapters : list bool;                 (* adapters applied, outermost first:
                                                [true] for sync_to_async *)
  hook_call : Args -> appcode pyval
}.
Arguments hook_module {Args} h.
Arguments hook_class {Args} h.
Arguments hook_is_coroutine {Args} h.
Arguments hook_adapters {Args} h.
Arguments hook_call {Args} h.

Definition view_hook : Type := hook (request * View * list string * list (string * string)).
Definition template_hook : Type := hook (request * pyval).
Definition exception_hook : Type := hook (request * exn).

(** A stage instance: its [__call__], given the [get_response] it was built
    around, and the hooks it exposes ([hasattr(mw_instance, ...)]). *)
Record mw_instance : Type := mkInstance {
  call_is_coroutine : bool;                  (* [iscoroutinefunction(mw_instance)] *)
  call_ : (request -> Rq pyval) -> request -> Rq pyval;
  process_view : option view_hook;
  process_template_response : option template_hook;
  process_exception : option exception_hook
}.

(** A stage class, as [import_string] returns it.  The capability flags may
    be missing from the class ([getattr] supplies the default); calling the
    class on a handler gives an instance or [None], or raises.  The handler
    the instance is given is kept next to it in the chain (see [MwInstance]
    below) and handed to its [__call__] when the chain is called. *)
Record middleware_class : Type := mkMiddleware {
  sync_capable : option bool;
  async_capable : option bool;
  factory : result (option mw_instance)
}.

Record settings : Type := mkSettings {
  DEBUG : bool;
  DEBUG_PROPAGATE_EXCEPTIONS : bool;
  ROOT_URLCONF : string;
  MIDDLEWARE : list string;
  (** [connections.settings.items()] *)
  DATABASES : list (string * settings_dict);
  (** [django.utils.module_loading.import_string] *)
  import_string : string -> result middleware_class;
  (** the resolver of a URLconf module, [django.urls.get_resolver] *)
  resolver_of : string -> resolver;
  (** [transaction.atomic(using=alias)(view)] *)
  atomic : string -> View -> View
}.

Variable conf : settings.

Definition get_resolver (u : option string) : resolver :=
  match u with
  | None => resolver_of conf (ROOT_URLCONF conf)
  | Some name => resolver_of conf name
  end.

(** Modelled from the spec: the diagnostic pages of [django.views.debug] are
    not among the sources; [render_diagnostic(request, exception_info,
    status_code)] gives a response with that status, already rendered. *)
Definition reason_of (status : Z) : string :=
  if status =? 200 then "OK"
  else if status =? 400 then "Bad Request"
  else if status =? 403 then "Forbidden"
  else if status =? 404 then "Not Found"
  else if status =? 500 then "Internal Server Error"
  else if status =? 503 then "Service Unavailable"
  else "Unknown Status Code".

Definition technical_500_response (request : request) (exc : exn) (status : Z) : pyval :=
  PResp (mkResponse status (reason_of status) [] None None).

Definition technical_404_response (request : request) (exc : exn) : pyval :=
  PResp (mkResponse 404 (reason_of 404) [] None None).

(** ** [core/handlers/exception.py] *)

(** [exc_info] is the exception being handled at the call; the bare [raise]
    raises it again. *)
Definition handle_uncaught_exception (request : request) (resolver : resolver)
    (exc_info : exn) : Rq pyval :=
  if DEBUG_PROPAGATE_EXCEPTIONS conf then raise exc_info
  else if DEBUG conf then ret (technical_500_response request exc_info 500)
  else
    callback <- lift_result (resolve_error_handler resolver 500) ;;
    invoke (called_error_handler 500) (callback request None).

Definition get_exception_response (request : request) (resolver : resolver)
    (status : Z) (exception : exn) : Rq pyval :=
  try_except
    (callback <- lift_result (resolve_error_handler resolver status) ;;
     invoke (called_error_handler status) (callback request (Some exception)))
    (fun e =>
       send_got_request_exception ;;
       handle_uncaught_exception request resolver e).

(** [getattr(response, "is_rendered", True)] *)
Definition getattr_is_rendered (v : pyval) : bool :=
  match v with
  | PResp r => match is_rendered r with Some b => b | None => true end
  | _ => true
  end.

(** [callable(getattr(response, "render", None))] *)
Definition has_render (v : pyval) : bool :=
  match v with
  | PResp r => match render r with Some _ => true | None => false end
  | _ => false
  end.

(** [response.render()] *)
Definition call_render (v : pyval) : Rq pyval :=
  match v with
  | PResp r =>
      match render r with
      | Some outcome => lift_result outcome
      | None => raise (mkExn AttributeError
                         "'HttpResponse' object has no attribute 'render'")
      end
  | _ => raise (mkExn AttributeError
                  ("'" ++ type_name v ++ "' object has no attribute 'render'"))
  end.

Definition response_for_exception (request : request) (exc : exn) : Rq pyval :=
  response <-
    (if isinstance exc Http404 then
       if DEBUG conf then ret (technical_404_response request exc)
       else
         u <- get_urlconf ;;
         get_exception_response request (get_resolver u) 404 exc
     else if isinstance exc PermissionDenied then
       u <- get_urlconf ;;
       response <- get_exception_response request (get_resolver u) 403 exc ;;
       log_response ("Forbidden (Permission denied): " ++ path request) response ;;
       ret response
     else if isinstance exc MultiPartParserError then
       u <- get_urlconf ;;
       response <- get_exception_response request (get_resolver u) 400 exc ;;
       log_response ("Bad request (Unable to parse request body): " ++ path request)
         response ;;
       ret response
     else if isinstance exc BadRequest then
       response <-
         (if DEBUG conf then ret (technical_500_response request exc 400)
          else
            u <- get_urlconf ;;
            get_exception_response request (get_resolver u) 400 exc) ;;
       log_response (exc_str exc ++ ": " ++ path request) response ;;
       ret response
     else if isinstance exc SuspiciousOperation then
       (if isinstance_any exc [RequestDataTooBig; TooManyFieldsSent; TooManyFilesSent]
        then _mark_post_parse_error else ret tt) ;;
       emit (mkLog ("django.security." ++ class_name (exc_type exc)) "error"
               (exc_str exc)) ;;
       (if DEBUG conf then ret (technical_500_response request exc 400)
        else
          u <- get_urlconf ;;
          get_exception_response request (get_resolver u) 400 exc)
     else
       send_got_request_exception ;;
       u <- get_urlconf ;;
       response <- handle_uncaught_exception request (get_resolver u) exc ;;
       r <- attr_of response "reason_phrase" ;;
       log_response (reason_phrase r ++ ": " ++ path request) response ;;
       ret response) ;;
  (* Force a TemplateResponse to be rendered. *)
  if negb (getattr_is_rendered response) && has_render response
  then call_render response
  else ret response.

(** Both branches of the source, for a coroutine function and for a plain
    one, catch what [get_response] raises and hand it to
    [response_for_exception]. *)
Definition convert_exception_to_response (get_response_is_coroutine : bool)
    (get_response : request -> Rq pyval) : request -> Rq pyval :=
  if get_response_is_coroutine then
    fun request =>
      try_except (await (get_response request))
        (fun exc => await (sync_to_async false (response_for_exception request exc)))
  else
    fun request =>
      try_except (get_response request)
        (fun exc => response_for_exception request exc).

(** ** [core/handlers/base.py] *)

(** The callables [load_middleware] composes.  A handler is built from the
    two bound methods [self._get_response] and [self._get_response_async] by
    stage instances, [convert_exception_to_response] and the two adapters. *)
Inductive chain : Type :=
| GetResponse (is_async : bool)
| Converted (get_response : chain)
| SyncToAsync (method : chain)
| AsyncToSync (method : chain)
| MwInstance (middleware_path : string) (mw : mw_instance) (get_response : chain).

(** What [adapt_method_mode] needs of the methods it adapts. *)
Class Callable (A : Type) : Type := {
  iscoroutinefunction : A -> bool;
  qualname : A -> string;
  wrap_sync_to_async : A -> A;
  wrap_async_to_sync : A -> A
}.

Fixpoint chain_is_coroutine (c : chain) : bool :=
  match c with
  | GetResponse is_async => is_async
  | Converted g => chain_is_coroutine g
  | SyncToAsync _ => true
  | AsyncToSync _ => false
  | MwInstance _ mw _ => call_is_coroutine mw
  end.

Fixpoint chain_qualname (c : chain) : string :=
  match c with
  | GetResponse false => "BaseHandler._get_response"
  | GetResponse true => "BaseHandler._get_response_async"
  | Converted g => chain_qualname g
  | SyncToAsync m => chain_qualname m
  | AsyncToSync m => chain_qualname m
  | MwInstance p _ _ => p
  end.

#[export] Instance chain_callable : Callable chain := {
  iscoroutinefunction := chain_is_coroutine;
  qualname := chain_qualname;
  wrap_sync_to_async := SyncToAsync;
  wrap_async_to_sync := AsyncToSync
}.

(** Hooks are adapted with [debug] off, so [adapt_method_mode] never prints
    their name: [qualname] gives the class, without the name of the
    method. *)
#[export] Instance hook_callable (Args : Type) : Callable (hook Args) := {
  iscoroutinefunction := hook_is_coroutine;
  qualname h := hook_class h;
  wrap_sync_to_async h :=
    mkHook Args (hook_module h) (hook_class h) true (true :: hook_adapters h)
      (hook_call h);
  wrap_async_to_sync h :=
    mkHook Args (hook_module h) (hook_class h) false (false :: hook_adapters h)
      (hook_call h)
}.

Record BaseHandler : Type := mkHandler {
  _view_middleware : list view_hook;
  _template_response_middleware : list template_hook;
  _exception_middleware : list exception_hook;
  (** [None] until [load_middleware] has run to its end *)
  _middleware_chain : option chain
}.

(** A handler before [load_middleware]: the class attributes. *)
Definition new_handler : BaseHandler := mkHandler [] [] [] None.

(** *** Building the chain *)

(** [load_middleware] works on [self] and writes to the request logger. *)
Record build : Type := mkBuild { self : BaseHandler; build_logs : list log_entry }.

Definition Bd (A : Type) : Type := M build A.

Definition logger_debug (msg : string) : Bd unit :=
  modify (fun b => mkBuild (self b) (build_logs b ++ [mkLog "django.request" "debug" msg])%list).

Definition update_self (f : BaseHandler -> BaseHandler) : Bd unit :=
  modify (fun b => mkBuild (f (self b)) (build_logs b)).

(** [bool(name)] and [str(name)] for an optional string. *)
Definition nonempty (name : option string) : bool :=
  match name with
  | Some n => negb (n =? "")%string
  | None => false
  end.

Definition str (name : option string) : string :=
  match name with Some n => n | None => "None" end.

Definition adapt_method_mode {A : Type} `{Callable A} (is_async : bool) (method : A)
    (method_is_async : option bool) (debug : bool) (name : option string) : Bd A :=
  let method_is_async :=
    match method_is_async with
    | None => iscoroutinefunction method
    | Some b => b
    end in
  let name :=
    if debug && negb (nonempty name)
    then Some ("method " ++ qualname method ++ "()")
    else name in
  if is_async then
    if negb method_is_async then
      (if debug then logger_debug ("Synchronous handler adapted for " ++ str name ++ ".")
       else ret tt) ;;
      ret (wrap_sync_to_async method)
    else ret method
  else if method_is_async then
    (if debug then logger_debug ("Asynchronous handler adapted for " ++ str name ++ ".")
     else ret tt) ;;
    ret (wrap_async_to_sync method)
  else ret method.

(** [getattr(obj, name, default)] for an attribute that may be missing. *)
Definition getattr {A : Type} (attribute : option A) (default : A) : A :=
  match attribute with Some a => a | None => default end.

(** The mode a stage is given: the [if]/[elif]/[else] of the loop, once at
    least one capability flag is set. *)
Definition stage_mode (handler_is_async middleware_can_sync middleware_can_async : bool)
    : bool :=
  if negb handler_is_async && middleware_can_sync then false
  else middleware_can_async.

(** [repr] of a string without quotes in it. *)
Definition repr (s : string) : string := "'" ++ s ++ "'".

(** The hooks of an instance are recorded on [self], each adapted to the mode
    of the whole pipeline (the exception hooks to synchronous mode). *)
Definition register_hooks (is_async : bool) (mw_instance : mw_instance) : Bd unit :=
  match process_view mw_instance with
   | Some m =>
       m' <- adapt_method_mode is_async m None false None ;;
       update_self (fun h => mkHandler (m' :: _view_middleware h)
                               (_template_response_middleware h)
                               (_exception_middleware h) (_middleware_chain h))
   | None => ret tt
   end ;;
  match process_template_response mw_instance with
   | Some m =>
       m' <- adapt_method_mode is_async m None false None ;;
       update_self (fun h => mkHandler (_view_middleware h)
                               (_template_response_middleware h ++ [m'])%list
                               (_exception_middleware h) (_middleware_chain h))
   | None => ret tt
   end ;;
  match process_exception mw_instance with
  | Some m =>
      m' <- adapt_method_mode false m None false None ;;
      update_self (fun h => mkHandler (_view_middleware h)
                              (_template_response_middleware h)
                              (_exception_middleware h ++ [m'])%list (_middleware_chain h))
  | None => ret tt
  end.

(** The body of [for middleware_path in reversed(settings.MIDDLEWARE)], run
    over the paths still to visit with the loop variables [handler] and
    [handler_is_async]. *)
Fixpoint load_middleware_loop (is_async : bool) (paths : list string)
    (handler : chain) (handler_is_async : bool) : Bd (chain * bool) :=
  match paths with
  | [] => ret (handler, handler_is_async)
  | middleware_path :: rest =>
      middleware <- lift_result (import_string conf middleware_path) ;;
      let middleware_can_sync := getattr (sync_capable middleware) true in
      let middleware_can_async := getattr (async_capable middleware) false in
      if negb middleware_can_sync && negb middleware_can_async then
        raise (mkExn RuntimeError
                 ("Middleware " ++ middleware_path ++ " must have at least one of "
                  ++ "sync_capable/async_capable set to True."))
      else
        let middleware_is_async :=
          stage_mode handler_is_async middleware_can_sync middleware_can_async in
        adapted_handler <-
          adapt_method_mode middleware_is_async handler (Some handler_is_async)
            (DEBUG conf) (Some ("middleware " ++ middleware_path)) ;;
        match factory middleware with
        | Raise exc =>
            if isinstance exc MiddlewareNotUsed then
              (if DEBUG conf then
                 if (exc_str exc =? "")%string
                 then logger_debug ("MiddlewareNotUsed: " ++ repr middleware_path)
                 else logger_debug ("MiddlewareNotUsed(" ++ repr middleware_path ++ "): "
                                    ++ exc_str exc)
               else ret tt) ;;
              load_middleware_loop is_async rest handler handler_is_async
            else raise exc
        | Ok None =>
            raise (mkExn ImproperlyConfigured
                     ("Middleware factory " ++ middleware_path ++ " returned None."))
        | Ok (Some mw_instance) =>
            let handler := adapted_handler in
            register_hooks is_async mw_instance ;;
            let handler := Converted (MwInstance middleware_path mw_instance handler) in
            load_middleware_loop is_async rest handler middleware_is_async
        end
  end.

Definition load_middleware (is_async : bool) : Bd unit :=
  update_self (fun h => mkHandler [] [] [] (_middleware_chain h)) ;;
  let get_response := GetResponse is_async in
  let handler := Converted get_response in
  let handler_is_async := is_async in
  top <- load_middleware_loop is_async (rev (MIDDLEWARE conf)) handler handler_is_async ;;
  let '(handler, handler_is_async) := top in
  (* Adapt the top of the stack, if needed. *)
  handler <- adapt_method_mode is_async handler (Some handler_is_async) false None ;;
  update_self (fun h => mkHandler (_view_middleware h) (_template_response_middleware h)
                          (_exception_middleware h) (Some handler)).

(** *** The dispatch engine *)

Definition resolve_request (request : request) : Rq resolver_match :=
  resolver <-
    match request_urlconf request with
    | Some urlconf => set_urlconf urlconf ;; ret (get_resolver urlconf)
    | None => ret (get_resolver None)
    end ;;
  resolver_match <- lift_result (resolve resolver (path_info request)) ;;
  set_resolver_match resolver_match ;;
  ret resolver_match.

(** The second argument of [check_response]: the view, or the bound method of
    a stage instance (whose class is [method] and which is no function). *)
Inductive callback_ref : Type :=
| the_view (v : View)
| the_method (module_ : string).

Definition check_response {S : Type} (response : pyval) (callback : callback_ref)
    (name : option string) : M S unit :=
  if negb (is_None response || iscoroutine response) then ret tt
  else
    let default :=
      match callback with
      | the_view v =>
          if view_is_function v
          then "The view " ++ view_module v ++ "." ++ view_name v
          else "The view " ++ view_module v ++ "." ++ view_name v ++ ".__call__"
      | the_method m => "The view " ++ m ++ ".method.__call__"
      end in
    let name := if nonempty name then str name else default in
    if is_None response then
      raise (mkExn ValueError
               (name ++ " didn't return an HttpResponse object. It returned None "
                ++ "instead."))
    else if iscoroutine response then
      raise (mkExn ValueError
               (name ++ " didn't return an HttpResponse object. It returned an "
                ++ "unawaited coroutine instead. You may need to add an 'await' "
                ++ "into your view."))
    else ret tt.

Definition mem (a : string) (l : list string) : bool := existsb (String.eqb a) l.

Fixpoint make_view_atomic_loop (non_atomic_requests : list string)
    (items : list (string * settings_dict)) (view : View) : result View :=
  match items with
  | [] => Ok view
  | (alias, settings_dict) :: rest =>
      if ATOMIC_REQUESTS settings_dict && negb (mem alias non_atomic_requests) then
        if view_is_coroutine view then
          Raise (mkExn RuntimeError "You cannot use ATOMIC_REQUESTS with async views.")
        else make_view_atomic_loop non_atomic_requests rest (atomic conf alias view)
      else make_view_atomic_loop non_atomic_requests rest view
  end.

Definition make_view_atomic (view : View) : result View :=
  let non_atomic_requests := getattr (_non_atomic_requests view) [] in
  make_view_atomic_loop non_atomic_requests (DATABASES conf) view.

Fixpoint exception_middleware_loop (methods : list exception_hook) (exception : exn)
    (request : request) : Rq pyval :=
  match methods with
  | [] => ret PNone
  | middleware_method :: rest =>
      response <- invoke (called_process_exception (hook_class middleware_method))
                    (hook_call middleware_method (request, exception)) ;;
      if truthy response then ret response
      else exception_middleware_loop rest exception request
  end.

Definition process_exception_by_middleware (self : BaseHandler) (exception : exn)
    (request : request) : Rq pyval :=
  exception_middleware_loop (_exception_middleware self) exception request.

(** [for middleware_method in self._view_middleware], with its [break];
    [response] is the variable the loop assigns. *)
Fixpoint view_middleware_loop (await_ : bool) (methods : list view_hook)
    (request : request) (m : resolver_match) (response : pyval) : Rq pyval :=
  match methods with
  | [] => ret response
  | middleware_method :: rest =>
      let '(callback, callback_args, callback_kwargs) := m in
      let call :=
        invoke (called_process_view (hook_class middleware_method))
          (hook_call middleware_method
             (request, callback, callback_args, callback_kwargs)) in
      response <- (if await_ then await call else call) ;;
      if truthy response then ret response
      else view_middleware_loop await_ rest request m response
  end.

(** [for middleware_method in self._template_response_middleware] *)
Fixpoint template_response_middleware_loop (await_ : bool)
    (methods : list template_hook) (request : request) (response : pyval) : Rq pyval :=
  match methods with
  | [] => ret response
  | middleware_method :: rest =>
      let call :=
        invoke (called_process_template_response (hook_class middleware_method))
          (hook_call middleware_method (request, response)) in
      response <- (if await_ then await call else call) ;;
      check_response response (the_method (hook_module middleware_method))
        (Some (hook_class middleware_method ++ ".process_template_response")) ;;
      template_response_middleware_loop await_ rest request response
  end.

Definition call_view (wrapped_callback : View) (request : request)
    (m : resolver_match) : Rq pyval :=
  let '(_, callback_args, callback_kwargs) := m in
  invoke (called_view (view_name wrapped_callback))
    (view_call wrapped_callback request callback_args callback_kwargs).

Definition _get_response (self : BaseHandler) (request : request) : Rq pyval :=
  let response := PNone in
  m <- resolve_request request ;;
  let '(callback, callback_args, callback_kwargs) := m in
  (* Apply view middleware. *)
  response <- view_middleware_loop false (_view_middleware self) request m response ;;
  response <-
    (if is_None response then
       wrapped_callback <- lift_result (make_view_atomic callback) ;;
       let call :=
         if view_is_coroutine wrapped_callback
         then async_to_sync (call_view wrapped_callback request m)
         else call_view wrapped_callback request m in
       try_except call
         (fun e =>
            response <- process_exception_by_middleware self e request ;;
            if is_None response then raise e else ret response)
     else ret response) ;;
  check_response response (the_view callback) None ;;
  if has_render response then
    response <- template_response_middleware_loop false
                  (_template_response_middleware self) request response ;;
    try_except (call_render response)
      (fun e =>
         response <- process_exception_by_middleware self e request ;;
         if is_None response then raise e else ret response)
  else ret response.

Definition _get_response_async (self : BaseHandler) (request : request) : Rq pyval :=
  let response := PNone in
  m <- resolve_request request ;;
  let '(callback, callback_args, callback_kwargs) := m in
  (* Apply view middleware. *)
  response <- view_middleware_loop true (_view_middleware self) request m response ;;
  response <-
    (if is_None response then
       wrapped_callback <- lift_result (make_view_atomic callback) ;;
       let call :=
         if negb (view_is_coroutine wrapped_callback)
         then sync_to_async true (call_view wrapped_callback request m)
         else call_view wrapped_callback request m in
       try_except (await call)
         (fun e =>
            response <- await (sync_to_async true
                                 (process_exception_by_middleware self e request)) ;;
            if is_None response then raise e else ret response)
     else ret response) ;;
  (* Complain if the view returned None or an uncalled coroutine. *)
  check_response response (the_view callback) None ;;
  response <-
    (if has_render response then
       response <- template_response_middleware_loop true
                     (_template_response_middleware self) request response ;;
       try_except (await (call_render response))
         (fun e =>
            response <- await (sync_to_async true
                                 (process_exception_by_middleware self e request)) ;;
            if is_None response then raise e else ret response)
     else ret response) ;;
  (* Make sure the response is not a coroutine *)
  if iscoroutine response then
    raise (mkExn RuntimeError "Response is still a coroutine.")
  else ret response.

(** Calling a composed handler.  The two bound methods read the hook lists of
    [self] when they are called, that is, as [load_middleware] left them. *)
Fixpoint call_chain (self : BaseHandler) (c : chain) : request -> Rq pyval :=
  match c with
  | GetResponse false => _get_response self
  | GetResponse true => _get_response_async self
  | Converted g => convert_exception_to_response (chain_is_coroutine g) (call_chain self g)
  | SyncToAsync m => fun request => sync_to_async true (call_chain self m request)
  | AsyncToSync m => fun request => async_to_sync (call_chain self m request)
  | MwInstance _ mw g => call_ mw (call_chain self g)
  end.

(** *** The pipeline entry point *)

Definition call_middleware_chain (self : BaseHandler) (request : request) : Rq pyval :=
  match _middleware_chain self with
  | Some handler => call_chain self handler request
  | None => raise (mkExn TypeError "'NoneType' object is not callable")
  end.

(** [response._resource_closers.append(request.close)] *)
Definition append_closer (r : response) (c : closer) : response :=
  mkResponse (status_code r) (reason_phrase r) (_resource_closers r ++ [c])%list
    (is_rendered r) (render r).

Definition get_response (self : BaseHandler) (request : request) : Rq pyval :=
  (* Setup default url resolver for this thread. *)
  set_urlconf (Some (ROOT_URLCONF conf)) ;;
  response <- call_middleware_chain self request ;;
  r <- attr_of response "_resource_closers" ;;
  let r := append_closer r (request_close request) in
  let response := PResp r in
  (if 400 <=? status_code r then
     log_response (reason_phrase r ++ ": " ++ path request) response
   else ret tt) ;;
  ret response.

Definition get_response_async (self : BaseHandler) (request : request) : Rq pyval :=
  (* Setup default url resolver for this thread. *)
  set_urlconf (Some (ROOT_URLCONF conf)) ;;
  response <- await (call_middleware_chain self request) ;;
  r <- attr_of response "_resource_closers" ;;
  let r := append_closer r (request_close request) in
  let response := PResp r in
  (if 400 <=? status_code r then
     await (sync_to_async false
              (log_response (reason_phrase r ++ ": " ++ path request) response))
   else ret tt) ;;
  ret response.

End Pipeline.

Arguments appcode : clear implicits.
Arguments View : clear implicits.
Arguments resolver_match : clear implicits.
Arguments error_handler : clear implicits.
Arguments resolver : clear implicits.
Arguments state : clear implicits.
Arguments Rq : clear implicits.
Arguments hook : clear implicits.
Arguments view_hook : clear implicits.
Arguments template_hook : clear implicits.
Arguments exception_hook : clear implicits.
Arguments mw_instance : clear implicits.
Arguments middleware_class : clear implicits.
Arguments settings : clear implicits.
Arguments chain : clear implicits.
Arguments BaseHandler : clear implicits.
Arguments build : clear implicits.
Arguments Bd : clear implicits.
Arguments callback_ref : clear implicits.
Arguments hook_module {W Args} h.
Arguments hook_class {W Args} h.
Arguments hook_is_coroutine {W Args} h.
Arguments hook_adapters {W Args} h.
Arguments hook_call {W Args} h _ _.

(** ** Notions the properties are stated with *)

Section Observations.

Context {W : Type}.
Variable conf : settings W.

(** The method [adapt_method_mode] hands back, its debug output left aside. *)
Definition adapted {A : Type} `{Callable A} (is_async : bool) (method : A)
    (method_is_async : bool) : A :=
  if is_async then
    if method_is_async then method else wrap_sync_to_async method
  else
    if method_is_async then wrap_async_to_sync method else method.

(** The instance of a configured stage, when the stage is used: its class
    imports and its factory hands back an instance. *)
Definition instance_of (middleware_path : string) : option (mw_instance W) :=
  match import_string conf middleware_path with
  | Ok middleware =>
      match factory middleware with
      | Ok (Some mw_instance) => Some mw_instance
      | _ => None
      end
  | Raise _ => None
  end.

Fixpoint choose {A B : Type} (f : A -> option B) (l : list A) : list B :=
  match l with
  | [] => []
  | a :: rest =>
      match f a with
      | Some b => b :: choose f rest
      | None => choose f rest
      end
  end.

Definition hook_of {Args : Type} (get : mw_instance W -> option (hook W Args))
    (is_async : bool) (middleware_path : string) : option (hook W Args) :=
  match instance_of middleware_path with
  | Some mw_instance =>
      match get mw_instance with
      | Some m => Some (adapted is_async m (hook_is_coroutine m))
      | None => None
      end
  | None => None
  end.

(** The hooks of the used stages, in configuration order, as
    [load_middleware] adapts them. *)
Definition configured_view_hooks (is_async : bool) : list (view_hook W) :=
  choose (hook_of process_view is_async) (MIDDLEWARE conf).

Definition configured_template_hooks (is_async : bool) : list (template_hook W) :=
  choose (hook_of process_template_response is_async) (MIDDLEWARE conf).

Definition configured_exception_hooks : list (exception_hook W) :=
  choose (hook_of process_exception false) (MIDDLEWARE conf).

(** [self] once the hooks of an instance are recorded on it. *)
Definition registered (is_async : bool) (mw_instance : mw_instance W)
    (h : BaseHandler W) : BaseHandler W :=
  mkHandler
    (match process_view mw_instance with
     | Some m => adapted is_async m (hook_is_coroutine m) :: _view_middleware h
     | None => _view_middleware h
     end)
    (match process_template_response mw_instance with
     | Some m => _template_response_middleware h
                   ++ [adapted is_async m (hook_is_coroutine m)]
     | None => _template_response_middleware h
     end)%list
    (match process_exception mw_instance with
     | Some m => _exception_middleware h ++ [adapted false m (hook_is_coroutine m)]
     | None => _exception_middleware h
     end)%list
    (_middleware_chain h).

(** Hooks called one after the other from state [s], each handing back
    [None], leave state [s']. *)
Inductive all_decline {Args : Type} (ev : string -> event) (args : Args)
    : list (hook W Args) -> state W -> state W -> Prop :=
| decline_nil : forall s, all_decline ev args [] s s
| decline_cons : forall h rest s s1 s2,
    invoke (ev (hook_class h)) (hook_call h args) s = (Ok PNone, s1) ->
    all_decline ev args rest s1 s2 ->
    all_decline ev args (h :: rest) s s2.

(** Post-render hooks called one after the other, the first on [v], each
    next one on what the one before handed back (a response each time),
    reach [v'] in state [s']. *)
Inductive piped (request : request)
    : list (template_hook W) -> pyval -> state W -> pyval -> state W -> Prop :=
| piped_nil : forall v s, piped request [] v s v s
| piped_cons : forall h rest v s r1 s1 v' s',
    invoke (called_process_template_response (hook_class h))
      (hook_call h (request, v)) s = (Ok (PResp r1), s1) ->
    piped request rest (PResp r1) s1 v' s' ->
    piped request (h :: rest) v s v' s'.

(** The exception kinds [response_for_exception] has a branch for. *)
Definition classified (exc : exn) : bool :=
  isinstance exc Http404 || isinstance exc PermissionDenied
  || isinstance exc MultiPartParserError || isinstance exc BadRequest
  || isinstance exc SuspiciousOperation.

(** A response that needs no forced rendering. *)
Definition materialized (r : response) : bool :=
  negb (negb (getattr_is_rendered (PResp r)) && has_render (PResp r)).

(** Every error handler of the resolver resolves and hands back a
    materialized response. *)
Definition error_handlers_succeed (resolver : resolver W) : Prop :=
  forall status, exists callback,
    resolve_error_handler resolver status = Ok callback /\
    forall request exc w, exists r w',
      callback request exc w = (Ok (PResp r), w') /\ materialized r = true.

(** The calls recorded when the hooks of a list are called in list order. *)
Definition names_called (ev : string -> event) {Args : Type}
    (hooks : list (hook W Args)) : list event :=
  map (fun h => ev (hook_class h)) hooks.

(** The [except] clause that follows the call of the view and the call of
    [render()]: the on-fault hooks get the exception, and it is raised again
    when none of them answers. *)
Definition except_clause (self : BaseHandler W) (request : request) (e : exn)
    : Rq W pyval :=
  response <- process_exception_by_middleware self e request ;;
  if is_None response then raise e else ret response.

(** What [_get_response] does with a response once it has one, from a
    pre-invocation hook or from the view: validation, then the post-render
    hooks and [render()] for a response with deferred rendering. *)
Definition after_view (self : BaseHandler W) (request : request) (callback : View W)
    (response : pyval) : Rq W pyval :=
  check_response response (the_view callback) None ;;
  if has_render response then
    response <- template_response_middleware_loop false
                  (_template_response_middleware self) request response ;;
    try_except (call_render response) (except_clause self request)
  else ret response.

(** The same steps in [_get_response_async]. *)
Definition after_view_async (self : BaseHandler W) (request : request)
    (callback : View W) (response : pyval) : Rq W pyval :=
  check_response response (the_view callback) None ;;
  response <-
    (if has_render response then
       response <- template_response_middleware_loop true
                     (_template_response_middleware self) request response ;;
       try_except (call_render response) (except_clause self request)
     else ret response) ;;
  if iscoroutine response then
    raise (mkExn RuntimeError "Response is still a coroutine.")
  else ret response.

(** Dispatch of [request] from state [s] comes to the view: resolution gives
    [m] and every pre-invocation hook hands back [None], which leaves state
    [s']. *)
Definition reaches_view (self : BaseHandler W) (request : request) (s : state W)
    (m : resolver_match W) (s' : state W) : Prop :=
  exists s1,
    resolve_request conf request s = (Ok m, s1)
    /\ all_decline called_process_view
         (request, fst (fst m), snd (fst m), snd m) (_view_middleware self) s1 s'.

(** No view is called from state [s] to state [s']: the calls recorded in
    between are calls of hooks and error handlers. *)
Definition is_view_call (e : event) : bool :=
  match e with called_view _ => true | _ => false end.

Definition no_view_called (s s' : state W) : Prop :=
  exists evs,
    trace s' = (trace s ++ evs)%list /\ existsb is_view_call evs = false.

(** A computation that calls no view, whatever the state it starts from. *)
Definition calls_no_view {A : Type} (m : Rq W A) : Prop :=
  forall s, no_view_called s (snd (m s)).

End Observations.

(** ** Sample configurations

    Small applications on which the properties below are run: the
    application state is trivial, views and hooks hand back fixed values. *)

Definition plain_response (status : Z) : response :=
  mkResponse status (reason_of status) [] None None.

(** A response with deferred rendering, not rendered yet. *)
Definition template_response (status : Z) (outcome : result pyval) : response :=
  mkResponse status (reason_of status) [] (Some false) (Some outcome).

Definition returns (v : pyval) : appcode unit pyval := fun w => (Ok v, w).

Definition raises (e : exn) : appcode unit pyval := fun w => (Raise e, w).

Definition sample_view (name : string) (is_coroutine : bool) (body : appcode unit pyval)
    : View unit :=
  mkView "app.views" name true is_coroutine None (fun _ _ _ => body).

(** Error handlers that answer with the plain page of their status. *)
Definition default_handlers (status : Z) : result (error_handler unit) :=
  Ok (fun _ _ => returns (PResp (plain_response status))).

(** The same, but the handler for status 400 fails. *)
Definition failing_400_handlers (status : Z) : result (error_handler unit) :=
  if status =? 400
  then Ok (fun _ _ => raises (mkExn (Custom "TemplateDoesNotExist" Exception_) "400.html"))
  else default_handlers status.

Definition sample_resolver (v : View unit)
    (handlers : Z -> result (error_handler unit)) : resolver unit :=
  mkResolver (fun _ => Ok (v, [], [])) handlers.

Fixpoint import_from (registry : list (string * middleware_class unit)) (p : string)
    : result (middleware_class unit) :=
  match registry with
  | [] => Raise (mkExn (Custom "ImportError" Exception_) p)
  | (q, c) :: rest => if (p =? q)%string then Ok c else import_from rest p
  end.

(** A stage that only calls the handler it was built around. *)
Definition sample_stage (pv : option (view_hook unit)) (pt : option (template_hook unit))
    (pe : option (exception_hook unit)) : mw_instance unit :=
  mkInstance false (fun get_response => get_response) pv pt pe.

Definition sample_class (can_sync can_async : bool) (mw : mw_instance unit)
    : middleware_class unit :=
  mkMiddleware (Some can_sync) (Some can_async) (Ok (Some mw)).

Definition sample_settings (debug propagate : bool)
    (stages : list (string * middleware_class unit))
    (databases : list (string * settings_dict)) (r : resolver unit) : settings unit :=
  mkSettings debug propagate "project.urls" (map fst stages) databases
    (import_from stages) (fun _ => r) (fun _ v => v).

Definition sample_request : request := mkRequest "/items/" "/items/" None.

Definition initial_state : state unit := mkState [] [] None None false 0%nat tt.

Definition fresh : build unit := mkBuild new_handler [].

(** The handler [load_middleware] leaves. *)
Definition loaded (conf : settings unit) (is_async : bool) : BaseHandler unit :=
  self (snd (load_middleware conf is_async fresh)).

Definition view_200 : View unit :=
  sample_view "index" false (returns (PResp (plain_response 200))).

(** Stages for the chain builder. *)
Definition stage_both : middleware_class unit :=
  sample_class true true (sample_stage None None None).

Definition stage_async_only : middleware_class unit :=
  sample_class false true (sample_stage None None None).

Definition stage_no_capability : middleware_class unit :=
  sample_class false false (sample_stage None None None).

Definition stage_returning_None : middleware_class unit :=
  mkMiddleware None None (Ok None).

Definition conf_mixed_modes : settings unit :=
  sample_settings false false [("A", stage_both); ("B", stage_async_only)]
    [] (sample_resolver view_200 default_handlers).

Definition conf_no_capability : settings unit :=
  sample_settings false false [("A", stage_no_capability); ("B", stage_both)]
    [] (sample_resolver view_200 default_handlers).

Definition conf_returning_None : settings unit :=
  sample_settings false false [("A", stage_returning_None); ("B", stage_both)]
    [] (sample_resolver view_200 default_handlers).

(** An application whose view raises [Http404], run with the propagate
    override. *)
Definition not_found : exn := mkExn Http404 "No item matches the given query.".

Definition conf_propagate_404 : settings unit :=
  sample_settings false true [] []
    (sample_resolver (sample_view "detail" false (raises not_found)) default_handlers).

(** An application whose view raises an exception of its own, behind one
    stage. *)
Definition key_error : exn := mkExn (Custom "KeyError" Exception_) "'item'".

Definition conf_view_fails : settings unit :=
  sample_settings false false [("A", stage_both)] []
    (sample_resolver (sample_view "detail" false (raises key_error)) default_handlers).

(** Two stages with a post-render hook each, which hands back the response it
    is given, and a view that answers with a template response. *)
Definition echo_template_hook (cls : string) : template_hook unit :=
  mkHook (request * pyval) "app.middleware" cls false []
    (fun args => returns (snd args)).

Definition stage_with_template_hook (cls : string) : middleware_class unit :=
  sample_class true false (sample_stage None (Some (echo_template_hook cls)) None).

Definition page : response := template_response 200 (Ok (PResp (plain_response 200))).

Definition conf_template_hooks : settings unit :=
  sample_settings false false
    [("A", stage_with_template_hook "A"); ("B", stage_with_template_hook "B")] []
    (sample_resolver (sample_view "index" false (returns (PResp page)))
       default_handlers).

(** A view that hands back [None]. *)
Definition view_None : View unit := sample_view "broken" false (returns PNone).

Definition conf_view_None : settings unit :=
  sample_settings false false [] [] (sample_resolver view_None default_handlers).

(** A stage whose pre-invocation hook answers with a template response, and
    a stage whose post-render hook replaces the response it is given. *)
Definition answering_view_hook (cls : string) (r : response) : view_hook unit :=
  mkHook (request * View unit * list string * list (string * string))
    "app.middleware" cls false [] (fun _ => returns (PResp r)).

Definition maintenance : response :=
  template_response 503 (Ok (PResp (plain_response 503))).

Definition replacing_template_hook (cls : string) (r : response) : template_hook unit :=
  mkHook (request * pyval) "app.middleware" cls false [] (fun _ => returns (PResp r)).

Definition conf_view_hook_answers : settings unit :=
  sample_settings false false
    [("A", sample_class true false
             (sample_stage (Some (answering_view_hook "A" page)) None None));
     ("B", sample_class true false
             (sample_stage None (Some (replacing_template_hook "B" maintenance))
                None))] []
    (sample_resolver view_200 default_handlers).

(** The same first stage, answering with a plain response, before a stage
    whose pre-invocation hook is never reached. *)
Definition conf_view_hook_plain : settings unit :=
  sample_settings false false
    [("A", sample_class true false
             (sample_stage (Some (answering_view_hook "A" (plain_response 200)))
                None None));
     ("B", sample_class true false
             (sample_stage (Some (answering_view_hook "B" (plain_response 403)))
                None None))] []
    (sample_resolver view_200 default_handlers).

(** A coroutine view and a database with [ATOMIC_REQUESTS]. *)
Definition view_async : View unit :=
  sample_view "feed" true (returns (PResp (plain_response 200))).

Definition conf_atomic : settings unit :=
  sample_settings false false [] [("default", mkSettingsDict true)]
    (sample_resolver view_async default_handlers).

(** The same view and database behind a stage whose pre-invocation hook
    answers. *)
Definition conf_atomic_behind_hook : settings unit :=
  sample_settings false false
    [("A", sample_class true true
             (sample_stage (Some (answering_view_hook "A" (plain_response 200)))
                None None))]
    [("default", mkSettingsDict true)]
    (sample_resolver view_async default_handlers).

(** An oversized request body. *)
Definition too_big : exn :=
  mkExn RequestDataTooBig
    "Request body exceeded settings.DATA_UPLOAD_MAX_MEMORY_SIZE.".

Definition conf_failing_400 : settings unit :=
  sample_settings false false [] [] (sample_resolver view_200 failing_400_handlers).

Definition conf_default : settings unit :=
  sample_settings false false [] [] (sample_resolver view_200 default_handlers).

(** A view that answers 404 itself. *)
Definition conf_view_404 : settings unit :=
  sample_settings false false [("A", stage_both)] []
    (sample_resolver
       (sample_view "missing" false (returns (PResp (plain_response 404))))
       default_handlers).

(** Two stages with an on-fault hook each: the first configured answers,
    the last configured declines. *)
Definition exception_hook_returning (cls : string) (v : pyval) : exception_hook unit :=
  mkHook (request * exn) "app.middleware" cls false [] (fun _ => returns v).

Definition conf_exception_hooks : settings unit :=
  sample_settings false false
    [("A", sample_class true false
             (sample_stage None None
                (Some (exception_hook_returning "A" (PResp (plain_response 500))))));
     ("B", sample_class true false
             (sample_stage None None (Some (exception_hook_returning "B" PNone))))]
    []
    (sample_resolver (sample_view "detail" false (raises key_error)) default_handlers).

(** ** Further notions: the shape of a chain, and settings that differ in
    their stage list *)

Section ChainShape.

Context {W : Type}.

(** The paths of the stage instances of a chain, outermost first. *)
Fixpoint stage_paths (c : chain W) : list string :=
  match c with
  | GetResponse _ => []
  | Converted g => stage_paths g
  | SyncToAsync m => stage_paths m
  | AsyncToSync m => stage_paths m
  | MwInstance p _ g => p :: stage_paths g
  end.

(** The bound method at the heart of a chain: [true] for
    [_get_response_async]. *)
Fixpoint innermost (c : chain W) : bool :=
  match c with
  | GetResponse is_async => is_async
  | Converted g => innermost g
  | SyncToAsync m => innermost m
  | AsyncToSync m => innermost m
  | MwInstance _ _ g => innermost g
  end.

(** Every stage instance of the chain, and the bound method at its heart, is
    the direct argument of a [convert_exception_to_response] wrapper. *)
Fixpoint contained (c : chain W) : bool :=
  match c with
  | GetResponse _ => false
  | Converted g =>
      match g with
      | GetResponse _ => true
      | MwInstance _ _ g' => contained g'
      | _ => false
      end
  | SyncToAsync m => contained m
  | AsyncToSync m => contained m
  | MwInstance _ _ _ => false
  end.

(** The configured stages that are used, in configuration order. *)
Definition used_stages (conf : settings W) : list string :=
  filter (fun p => match instance_of conf p with Some _ => true | None => false end)
    (MIDDLEWARE conf).

(** The same settings with another [MIDDLEWARE] list. *)
Definition with_MIDDLEWARE (conf : settings W) (paths : list string) : settings W :=
  mkSettings (DEBUG conf) (DEBUG_PROPAGATE_EXCEPTIONS conf) (ROOT_URLCONF conf)
    paths (DATABASES conf) (import_string conf) (resolver_of conf) (atomic conf).

(** Two handlers with the same three hook lists. *)
Definition same_hooks (h h' : BaseHandler W) : Prop :=
  _view_middleware h = _view_middleware h'
  /\ _template_response_middleware h = _template_response_middleware h'
  /\ _exception_middleware h = _exception_middleware h'.

(** The aliases [make_view_atomic] wraps a view for: those with
    [ATOMIC_REQUESTS] that the view does not exclude, in settings order. *)
Definition atomic_aliases (conf : settings W) (view : View W) : list string :=
  map fst
    (filter (fun item =>
               ATOMIC_REQUESTS (snd item)
               && negb (mem (fst item) (getattr (_non_atomic_requests view) [])))
       (DATABASES conf)).

End ChainShape.

(** A stage that is not used, between two stages that are. *)
Definition stage_not_used : middleware_class unit :=
  mkMiddleware None None (Raise (mkExn MiddlewareNotUsed "disabled in settings")).

Definition conf_with_unused_stage : settings unit :=
  sample_settings true false
    [("A", stage_with_template_hook "A"); ("N", stage_not_used);
     ("B", stage_both)]
    [] (sample_resolver view_200 default_handlers).

(** Stages with post-render hooks, the first configured of which hands back
    [None]. *)
Definition forgetful_template_hook (cls : string) : template_hook unit :=
  mkHook (request * pyval) "app.middleware" cls false [] (fun _ => returns PNone).

Definition conf_template_hook_None : settings unit :=
  sample_settings false false
    [("A", sample_class true false
             (sample_stage None (Some (forgetful_template_hook "A")) None));
     ("B", stage_with_template_hook "B")] []
    (sample_resolver (sample_view "index" false (returns (PResp page)))
       default_handlers).

(** A view whose template response fails to render, behind the two stages
    with on-fault hooks. *)
Definition broken_page : response := template_response 200 (Raise key_error).

Definition conf_render_fails : settings unit :=
  sample_settings false false
    [("A", sample_class true false
             (sample_stage None None
                (Some (exception_hook_returning "A" (PResp (plain_response 500))))));
     ("B", sample_class true false
             (sample_stage None None (Some (exception_hook_returning "B" PNone))))]
    []
    (sample_resolver (sample_view "index" false (returns (PResp broken_page)))
       default_handlers).

(** A project with a second URLconf, which resolves no path and has a 404
    handler of its own, and a request that carries it. *)
Definition tenant_404 : response :=
  mkResponse 404 "Not Found" [other_closer "tenant"] None None.

Definition tenant_resolver : resolver unit :=
  mkResolver (fun _ => Raise not_found)
    (fun _ => Ok (fun _ _ => returns (PResp tenant_404))).

Definition conf_tenant : settings unit :=
  mkSettings false false "project.urls" [] [] (import_from [])
    (fun name =>
       if (name =? "tenant.urls")%string then tenant_resolver
       else sample_resolver view_200 default_handlers)
    (fun _ v => v).

Definition tenant_request : request :=
  mkRequest "/items/" "/items/" (Some (Some "tenant.urls")).

(** Four databases, three of them with [ATOMIC_REQUESTS], and a view that
    excludes one of those; wrapping a view for an alias is recorded in its
    name. *)
Definition tagged_atomic (alias : string) (v : View unit) : View unit :=
  mkView (view_module v) (view_name v ++ "@" ++ alias) (view_is_function v)
    (view_is_coroutine v) (_non_atomic_requests v) (view_call v).

Definition conf_four_databases : settings unit :=
  mkSettings false false "project.urls" []
    [("default", mkSettingsDict true); ("replica", mkSettingsDict false);
     ("audit", mkSettingsDict true); ("archive", mkSettingsDict true)]
    (import_from []) (fun _ => sample_resolver view_200 default_handlers)
    tagged_atomic.

Definition view_skipping_audit : View unit :=
  mkView "app.views" "report" true false (Some ["audit"])
    (fun _ _ _ => returns (PResp (plain_response 200))).

(** ** [core/handlers/wsgi.py]: [LimitedStream] *)

Module wsgi.

Definition bytes : Type := list Byte.byte.

Definition len (data : bytes) : Z := Z.of_nat (length data).

Section LimitedStream.

(** The wrapped stream, [environ["wsgi.input"]]: its state, and its [read]
    and [readline] methods, which are called with a size and may raise. *)
Variable Stream : Type.
Variable stream_read : Z -> M Stream bytes.
Variable stream_readline : Z -> M Stream bytes.

(** [stream] is the object the bound methods [_read] and [_readline] belong
    to. *)
Record LimitedStream : Type := mkLimitedStream {
  stream : Stream;
  _pos : Z;
  limit : Z
}.

(** [LimitedStream(stream, limit)] *)
Definition __init__ (stream : Stream) (limit : Z) : LimitedStream :=
  mkLimitedStream stream 0 limit.

(** A call of [self._read] or [self._readline]. *)
Definition on_stream {A : Type} (m : M Stream A) : M LimitedStream A :=
  fun self =>
    let (r, st) := m (stream self) in
    (r, mkLimitedStream st (_pos self) (limit self)).

(** [self._pos += n] *)
Definition advance (n : Z) : M LimitedStream unit :=
  modify (fun self => mkLimitedStream (stream self) (_pos self + n) (limit self)).

(** The size handed to the wrapped stream; [size] is [None] for a call with
    [None], and a call without argument has [size = -1]. *)
Definition clipped (size : option Z) (pos lim : Z) : Z :=
  match size with
  | None => lim - pos
  | Some size => if size =? -1 then lim - pos else Z.min size (lim - pos)
  end.

Definition read (size : option Z) : M LimitedStream bytes :=
  pos <- gets _pos ;;
  lim <- gets limit ;;
  if pos >=? lim then ret []
  else
    let size := clipped size pos lim in
    data <- on_stream (stream_read size) ;;
    advance (len data) ;;
    ret data.

Definition readline (size : option Z) : M LimitedStream bytes :=
  pos <- gets _pos ;;
  lim <- gets limit ;;
  if pos >=? lim then ret []
  else
    let size := clipped size pos lim in
    line <- on_stream (stream_readline size) ;;
    advance (len line) ;;
    ret line.

(** A caller of the stream: calls of [read] and [readline] made one after
    the other, the data of each collected. *)
Inductive call : Type :=
| call_read (size : option Z)
| call_readline (size : option Z).

Definition size_of (c : call) : option Z :=
  match c with call_read size => size | call_readline size => size end.

Definition run_call (c : call) : M LimitedStream bytes :=
  match c with
  | call_read size => read size
  | call_readline size => readline size
  end.

Fixpoint run_calls (cs : list call) : M LimitedStream (list bytes) :=
  match cs with
  | [] => ret []
  | c :: rest =>
      data <- run_call c ;;
      datas <- run_calls rest ;;
      ret (data :: datas)
  end.

(** A size a caller may pass: [None], [-1] or a count. *)
Definition valid_size (size : option Z) : bool :=
  match size with
  | None => true
  | Some size => -1 <=? size
  end.

End LimitedStream.

Arguments stream {Stream} l.
Arguments _pos {Stream} l.
Arguments limit {Stream} l.
Arguments mkLimitedStream {Stream} stream _pos limit.
Arguments __init__ {Stream} stream limit.

(** A stream over a byte string in memory, as [io.BytesIO]: [read(n)] hands
    back the next [n] bytes, or what is left, and all that is left for a
    negative [n]; [readline(n)] stops after the first newline. *)
Definition BytesIO : Type := bytes.

Definition BytesIO_read (n : Z) : M BytesIO bytes :=
  fun buffer =>
    if n <? 0 then (Ok buffer, [])
    else (Ok (firstn (Z.to_nat n) buffer), skipn (Z.to_nat n) buffer).

Fixpoint line_length (buffer : bytes) : nat :=
  match buffer with
  | [] => 0
  | b :: rest =>
      if Byte.eqb b Byte.x0a then 1 else S (line_length rest)
  end.

Definition BytesIO_readline (n : Z) : M BytesIO bytes :=
  fun buffer =>
    let k := if n <? 0 then line_length buffer
             else Nat.min (Z.to_nat n) (line_length buffer) in
    (Ok (firstn k buffer), skipn k buffer).

(** *** [get_script_name] *)

(** The WSGI environ: native strings, whose characters are bytes, so that
    [encode("iso-8859-1")] gives the bytes of a value one for one. *)
Definition environ : Type := list (string * string).

Fixpoint environ_get (environ : environ) (key default : string) : string :=
  match environ with
  | [] => default
  | (k, v) :: rest => if (k =? key)%string then v else environ_get rest key default
  end.

Definition get_bytes_from_wsgi (environ : environ) (key default : string) : bytes :=
  let value := environ_get environ key default in
  list_byte_of_string value.

Definition is_slash (b : Byte.byte) : bool := Byte.eqb b Byte.x2f.

(** [b"//" in s] *)
Fixpoint has_double_slash (s : bytes) : bool :=
  match s with
  | [] => false
  | x :: rest =>
      match rest with
      | y :: _ => (is_slash x && is_slash y) || has_double_slash rest
      | [] => false
      end
  end.

(** [_slashes_re.sub(b"/", s)]: every run of slashes becomes one slash. *)
Fixpoint squash (s : bytes) : bytes :=
  match s with
  | [] => []
  | x :: rest =>
      match rest with
      | y :: _ => if is_slash x && is_slash y then squash rest else x :: squash rest
      | [] => [x]
      end
  end.

(** [s[:-n]] for a positive [n] *)
Definition without_last (n : nat) (s : bytes) : bytes :=
  firstn (length s - n) s.

Section get_script_name.

(** The decoded strings, [settings.FORCE_SCRIPT_NAME] and
    [bytes.decode()]. *)
Variable str : Type.
Variable FORCE_SCRIPT_NAME : option str.
Variable decode : bytes -> result str.

Definition get_script_name (environ : environ) : result str :=
  match FORCE_SCRIPT_NAME with
  | Some name => Ok name
  | None =>
      let script_url :=
        match get_bytes_from_wsgi environ "SCRIPT_URL" "" with
        | [] => get_bytes_from_wsgi environ "REDIRECT_URL" ""
        | url => url
        end in
      let script_name :=
        match script_url with
        | _ :: _ =>
            let script_url :=
              if has_double_slash script_url then squash script_url
              else script_url in
            let path_info := get_bytes_from_wsgi environ "PATH_INFO" "" in
            match path_info with
            | _ :: _ => without_last (length path_info) script_url
            | [] => script_url
            end
        | [] => get_bytes_from_wsgi environ "SCRIPT_NAME" ""
        end in
      decode script_name
  end.

End get_script_name.

End wsgi.

(** ** [utils/connection.py]: [BaseConnectionHandler] *)

Module connection.

(** A [dict] with string keys, in insertion order, and the attributes of an
    object. *)
Fixpoint lookup {A : Type} (key : string) (d : list (string * A)) : option A :=
  match d with
  | [] => None
  | (k, v) :: rest => if (k =? key)%string then Some v else lookup key rest
  end.

Definition contains {A : Type} (key : string) (d : list (string * A)) : bool :=
  match lookup key d with Some _ => true | None => false end.

Definition remove {A : Type} (key : string) (d : list (string * A))
    : list (string * A) :=
  filter (fun item => negb (fst item =? key)%string) d.

Definition store {A : Type} (key : string) (v : A) (d : list (string * A))
    : list (string * A) :=
  (key, v) :: remove key d.

Definition keys {A : Type} (d : list (string * A)) : list string := map fst d.

Definition ConnectionDoesNotExist : exc_class :=
  Custom "ConnectionDoesNotExist" Exception_.

Definition NotImplementedError : exc_class :=
  Custom "NotImplementedError" RuntimeError.

Section BaseConnectionHandler.

(** The objects the handler hands back (connections, for the most part),
    the settings of one alias, and what creating and closing a connection
    acts on. *)
Variable Conn : Type.
Variable Config : Type.
Variable World : Type.

(** [getattr(django_settings, self.settings_name)] *)
Variable django_settings : list (string * Config).

(** The [create_connection] of the object's class, and the [close] of a
    connection object. *)
Variable create_connection : string -> M World Conn.
Variable close : Conn -> M World unit.

(** [asgiref.local.Local] is not among the sources.  [Local thread_critical]
    stands for the attributes a new [Local] has of itself, under their
    names: its class, its methods, the names it keeps its own state under.
    Attribute access finds these before anything that was stored on the
    object, and [setattr] and [delattr] work on what was stored. *)
Variable Local : bool -> list (string * Conn).

Definition thread_critical : bool := false.

(** Calls into the two, in the order they are made. *)
Inductive event : Type :=
| created (alias : string)
| closed (conn : Conn).

(** [settings_cached] is the entry the [cached_property] leaves in the
    object's [__dict__]; [Local_own] and [Local_stored] are the [Local]
    object [self._connections]: what it has of itself and what was stored
    on it. *)
Record BaseConnectionHandler : Type := mkBaseConnectionHandler {
  _settings : option (list (string * Config));
  settings_cached : option (list (string * Config));
  Local_own : list (string * Conn);
  Local_stored : list (string * Conn);
  calls : list event;
  world : World
}.

(** The attributes of [self._connections], as attribute access finds them. *)
Definition _connections (self : BaseConnectionHandler) : list (string * Conn) :=
  (Local_own self ++ Local_stored self)%list.

(** [BaseConnectionHandler(settings)] *)
Definition __init__ (settings : option (list (string * Config))) (w : World)
    : BaseConnectionHandler :=
  mkBaseConnectionHandler settings None (Local thread_critical) [] [] w.

Definition configure_settings (settings : option (list (string * Config)))
    : list (string * Config) :=
  match settings with
  | None => django_settings
  | Some settings => settings
  end.

(** The [cached_property]: computed at the first access, then read from the
    object. *)
Definition settings : M BaseConnectionHandler (list (string * Config)) :=
  cached <- gets settings_cached ;;
  match cached with
  | Some settings => ret settings
  | None =>
      given <- gets _settings ;;
      let settings := configure_settings given in
      modify (fun self =>
                mkBaseConnectionHandler (Some settings) (Some settings)
                  (Local_own self) (Local_stored self) (calls self)
                  (world self)) ;;
      ret settings
  end.

(** The method of the base class. *)
Definition base_create_connection (alias : string) : M World Conn :=
  raise (mkExn NotImplementedError "Subclasses must implement create_connection().").

Definition on_world {A : Type} (ev : event) (m : M World A)
    : M BaseConnectionHandler A :=
  fun self =>
    let (r, w) := m (world self) in
    (r, mkBaseConnectionHandler (_settings self) (settings_cached self)
          (Local_own self) (Local_stored self) (calls self ++ [ev])%list w).

(** [setattr(self._connections, key, value)].  The value goes to what is
    stored on the [Local]; one of the few names the [Local] keeps its own
    state under would replace that state instead, which is left out. *)
Definition setattr_connections (key : string) (value : Conn)
    : M BaseConnectionHandler unit :=
  modify (fun self =>
            mkBaseConnectionHandler (_settings self) (settings_cached self)
              (Local_own self) (store key value (Local_stored self))
              (calls self) (world self)).

Definition __getitem__ (alias : string) : M BaseConnectionHandler Conn :=
  connections <- gets _connections ;;
  match lookup alias connections with
  | Some conn => ret conn
  | None =>
      settings <- settings ;;
      (if negb (contains alias settings) then
         raise (mkExn ConnectionDoesNotExist
                  ("The connection '" ++ alias ++ "' doesn't exist."))
       else ret tt) ;;
      conn <- on_world (created alias) (create_connection alias) ;;
      setattr_connections alias conn ;;
      ret conn
  end.

Definition __setitem__ (key : string) (value : Conn) : M BaseConnectionHandler unit :=
  setattr_connections key value.

(** [delattr] looks at what was stored: on a name that is not stored it
    raises [AttributeError]; the message is that of the [Local]. *)
Definition __delitem__ (key : string) : M BaseConnectionHandler unit :=
  stored <- gets Local_stored ;;
  if contains key stored then
    modify (fun self =>
              mkBaseConnectionHandler (_settings self) (settings_cached self)
                (Local_own self) (remove key (Local_stored self))
                (calls self) (world self))
  else raise (mkExn AttributeError key).

Definition __iter__ : M BaseConnectionHandler (list string) :=
  settings <- settings ;;
  ret (keys settings).

(** The list comprehension of [all]. *)
Fixpoint all_loop (initialized_only : bool) (aliases : list string)
    : M BaseConnectionHandler (list Conn) :=
  match aliases with
  | [] => ret []
  | alias :: rest =>
      connections <- gets _connections ;;
      if negb initialized_only || contains alias connections then
        conn <- __getitem__ alias ;;
        conns <- all_loop initialized_only rest ;;
        ret (conn :: conns)
      else all_loop initialized_only rest
  end.

Definition all (initialized_only : bool) : M BaseConnectionHandler (list Conn) :=
  aliases <- __iter__ ;;
  all_loop initialized_only aliases.

Fixpoint close_loop (conns : list Conn) : M BaseConnectionHandler unit :=
  match conns with
  | [] => ret tt
  | conn :: rest =>
      on_world (closed conn) (close conn) ;;
      close_loop rest
  end.

Definition close_all : M BaseConnectionHandler unit :=
  conns <- all true ;;
  close_loop conns.

(** The settings the handler works with: those cached, or those the first
    access will compute. *)
Definition current_settings (self : BaseConnectionHandler)
    : list (string * Config) :=
  match settings_cached self with
  | Some settings => settings
  | None => configure_settings (_settings self)
  end.

(** The handler once [settings] has been accessed. *)
Definition with_settings (self : BaseConnectionHandler) : BaseConnectionHandler :=
  match settings_cached self with
  | Some _ => self
  | None =>
      mkBaseConnectionHandler (Some (configure_settings (_settings self)))
        (Some (configure_settings (_settings self)))
        (Local_own self) (Local_stored self) (calls self) (world self)
  end.

(** The connections of the configured aliases that are initialized, in
    settings order. *)
Definition initialized (self : BaseConnectionHandler) : list Conn :=
  choose (fun alias => lookup alias (_connections self))
    (keys (current_settings self)).

End BaseConnectionHandler.

Arguments created {Conn} alias.
Arguments closed {Conn} conn.
Arguments _settings {Conn Config World} b.
Arguments settings_cached {Conn Config World} b.
Arguments Local_own {Conn Config World} b.
Arguments Local_stored {Conn Config World} b.
Arguments _connections {Conn Config World} self.
Arguments calls {Conn Config World} b.
Arguments world {Conn Config World} b.
Arguments mkBaseConnectionHandler {Conn Config World} _ _ _ _ _ _.
Arguments __init__ {Conn Config World} Local settings w.
Arguments current_settings {Conn Config World} django_settings self.
Arguments with_settings {Conn Config World} django_settings self.
Arguments initialized {Conn Config World} django_settings self.

End connection.

(** A connection handler over two configured aliases, one of which cannot be
    reached; a connection is its alias and a serial number. *)
Definition sample_databases : list (string * bool) :=
  [("default", true); ("replica", false)].

Definition sample_create_connection (alias : string) : M nat (string * nat) :=
  fun serial =>
    if (alias =? "replica")%string
    then (Raise (mkExn (Custom "OperationalError" Exception_) "replica is down"),
          serial)
    else (Ok (alias, serial), S serial).

Definition sample_close (conn : string * nat) : M nat unit := ret tt.

(** What a new [Local] has of itself in the samples: its class. *)
Definition sample_Local (thread_critical : bool) : list (string * (string * nat)) :=
  [("__class__", ("Local", 0%nat))].

Definition sample_connections
    : connection.BaseConnectionHandler (string * nat) bool nat :=
  connection.__init__ sample_Local None 0%nat.

(** The same handler given settings of its own, all of which can be
    reached. *)
Definition sample_connections_up
    : connection.BaseConnectionHandler (string * nat) bool nat :=
  connection.__init__ sample_Local (Some [("default", true); ("cache", true)])
    0%nat.

(** ** [utils/tree.py]: [Node] *)

Module tree.

(** A class of nodes: [Node] itself or a subclass, with its [default]
    connector. *)
Record Class : Type := mkClass {
  __name__ : string;
  default : string
}.

Definition Node_class : Class := mkClass "Node" "DEFAULT".

(** [a or b] on strings. *)
Definition or_ (a b : string) : string :=
  if (a =? "")%string then b else a.

Section Node.

(** What a child that is no [Node] is: a leaf. *)
Variable Leaf : Type.

Inductive Node : Type := mkNode {
  __class__ : Class;
  children : list (Leaf + Node);
  connector : string;
  negated : bool
}.

Definition child : Type := (Leaf + Node)%type.

(** [Node(children, connector, negated)]; [cls] is the class that is
    called. *)
Definition __init__ (cls : Class) (children : option (list child))
    (connector : option string) (negated : bool) : Node :=
  mkNode cls
    (match children with Some (c :: rest) => c :: rest | _ => [] end)
    (or_ (match connector with Some c => c | None => "" end) (default cls))
    negated.

Definition create (cls : Class) (children : option (list child))
    (connector : option string) (negated : bool) : Node :=
  let obj :=
    __init__ Node_class children
      (Some (or_ (match connector with Some c => c | None => "" end) (default cls)))
      negated in
  (* [obj.__class__ = cls] *)
  match obj with
  | mkNode _ obj_children obj_connector obj_negated =>
      mkNode cls obj_children obj_connector obj_negated
  end.

Definition __copy__ (self : Node) : Node :=
  let obj := create (__class__ self) None (Some (connector self)) (negated self) in
  (* [obj.children = self.children] *)
  mkNode (__class__ obj) (children self) (connector obj) (negated obj).

Definition __len__ (self : Node) : nat := length (children self).

(** [add] changes [self] and returns [data] or [self]: the result is what is
    returned and [self] as the call leaves it. *)
Definition add (data : child) (conn_type : string) (self : Node) : child * Node :=
  if negb (connector self =? conn_type)%string then
    let obj := __copy__ self in
    (data, mkNode (__class__ self) [inr obj; data] conn_type (negated self))
  else
    match data with
    | inr other =>
        if negb (negated other)
           && ((connector other =? conn_type)%string || (__len__ other =? 1)%nat)
        then
          let self' :=
            mkNode (__class__ self) (children self ++ children other)%list
              (connector self) (negated self) in
          (inr self', self')
        else
          (data, mkNode (__class__ self) (children self ++ [data])%list
                   (connector self) (negated self))
    | inl _ =>
        (data, mkNode (__class__ self) (children self ++ [data])%list
                 (connector self) (negated self))
    end.

Definition negate (self : Node) : Node :=
  mkNode (__class__ self) (children self) (connector self) (negb (negated self)).

(** The leaves of a tree, from left to right. *)
Fixpoint leaves (n : Node) : list Leaf :=
  flat_map (fun c => match c with inl x => [x] | inr m => leaves m end)
    (children n).

Definition leaves_of (c : child) : list Leaf :=
  match c with inl x => [x] | inr m => leaves m end.

End Node.

Arguments mkNode {Leaf} _ _ _ _.
Arguments __class__ {Leaf} n.
Arguments children {Leaf} n.
Arguments connector {Leaf} n.
Arguments negated {Leaf} n.
Arguments add {Leaf} data conn_type self.
Arguments negate {Leaf} self.
Arguments __copy__ {Leaf} self.
Arguments __len__ {Leaf} self.
Arguments leaves {Leaf} n.
Arguments leaves_of {Leaf} c.

End tree.

(** ** [utils/hashable.py]: [make_hashable] *)

Module hashable.

(** The values [make_hashable] is given: [None], integers, strings, tuples,
    lists, dictionaries with string keys (in insertion order), and objects
    of a type that is neither hashable nor iterable. *)
Inductive value : Type :=
| VNone
| VInt (n : Z)
| VStr (s : string)
| VTuple (items : list value)
| VList (items : list value)
| VDict (items : list (string * value))
| VObject (type_name : string).

Section value_induction.

Variable P : value -> Prop.
Hypothesis HNone : P VNone.
Hypothesis HInt : forall n, P (VInt n).
Hypothesis HStr : forall s, P (VStr s).
Hypothesis HTuple : forall items, Forall P items -> P (VTuple items).
Hypothesis HList : forall items, Forall P items -> P (VList items).
Hypothesis HDict : forall items, Forall (fun item => P (snd item)) items ->
                                 P (VDict items).
Hypothesis HObject : forall type_name, P (VObject type_name).

Fixpoint value_induction (v : value) : P v :=
  match v with
  | VNone => HNone
  | VInt n => HInt n
  | VStr s => HStr s
  | VTuple items =>
      HTuple items
        ((fix go (l : list value) : Forall P l :=
            match l with
            | [] => Forall_nil _
            | x :: rest => Forall_cons _ (value_induction x) (go rest)
            end) items)
  | VList items =>
      HList items
        ((fix go (l : list value) : Forall P l :=
            match l with
            | [] => Forall_nil _
            | x :: rest => Forall_cons _ (value_induction x) (go rest)
            end) items)
  | VDict items =>
      HDict items
        ((fix go (l : list (string * value))
            : Forall (fun item => P (snd item)) l :=
            match l with
            | [] => Forall_nil _
            | x :: rest => Forall_cons _ (value_induction (snd x)) (go rest)
            end) items)
  | VObject type_name => HObject type_name
  end.

End value_induction.

(** [hash(value)] does not raise. *)
Fixpoint hashable (v : value) : bool :=
  match v with
  | VNone | VInt _ | VStr _ => true
  | VTuple items => forallb hashable items
  | VList _ | VDict _ | VObject _ => false
  end.

(** [type(value).__name__] *)
Definition type_name_of (v : value) : string :=
  match v with
  | VNone => "NoneType"
  | VInt _ => "int"
  | VStr _ => "str"
  | VTuple _ => "tuple"
  | VList _ => "list"
  | VDict _ => "dict"
  | VObject type_name => type_name
  end.

Definition is_iterable (v : value) : bool :=
  match v with
  | VStr _ | VTuple _ | VList _ | VDict _ => true
  | VNone | VInt _ | VObject _ => false
  end.

(** [sorted] on the items of a dictionary: the keys differ, so the order of
    the keys decides. *)
Fixpoint insert {A : Type} (item : string * A) (l : list (string * A))
    : list (string * A) :=
  match l with
  | [] => [item]
  | x :: rest =>
      if (fst item <=? fst x)%string then item :: l else x :: insert item rest
  end.

Definition sorted {A : Type} (l : list (string * A)) : list (string * A) :=
  fold_right insert [] l.

(** The outcomes of a list of calls made one after the other: the values,
    or the first exception. *)
Fixpoint sequence {A : Type} (l : list (result A)) : result (list A) :=
  match l with
  | [] => Ok []
  | Ok a :: rest =>
      match sequence rest with
      | Ok l' => Ok (a :: l')
      | Raise e => Raise e
      end
  | Raise e :: _ => Raise e
  end.

Definition pair_of (item : string * result value) : result value :=
  match snd item with
  | Ok nested => Ok (VTuple [VStr (fst item); nested])
  | Raise e => Raise e
  end.

(** The calls on the nested values of a dictionary are made in sorted order;
    each has no effect but its outcome, which is computed here before the
    items are sorted. *)
Fixpoint make_hashable (value : value) : result hashable.value :=
  match value with
  | VDict items =>
      let outcomes := map (fun item => (fst item, make_hashable (snd item))) items in
      match sequence (map pair_of (sorted outcomes)) with
      | Ok pairs => Ok (VTuple pairs)
      | Raise e => Raise e
      end
  | VTuple items =>
      if hashable value then Ok value
      else
        match sequence (map make_hashable items) with
        | Ok items' => Ok (VTuple items')
        | Raise e => Raise e
        end
  | VList items =>
      match sequence (map make_hashable items) with
      | Ok items' => Ok (VTuple items')
      | Raise e => Raise e
      end
  | VNone | VInt _ | VStr _ => Ok value
  | VObject type_name =>
      Raise (mkExn TypeError ("unhashable type: '" ++ type_name ++ "'"))
  end.

(** A value with an object of an unhashable, non-iterable type in it. *)
Fixpoint holds_object (v : value) : bool :=
  match v with
  | VNone | VInt _ | VStr _ => false
  | VTuple items => existsb holds_object items
  | VList items => existsb holds_object items
  | VDict items => existsb (fun item => holds_object (snd item)) items
  | VObject _ => true
  end.

(** What [make_hashable] gives for [v]: a hashable value that it leaves as
    it is, when [v] holds no object; a [TypeError] when it holds one. *)
Definition settled (v : value) : Prop :=
  match make_hashable v with
  | Ok h =>
      hashable h = true
      /\ make_hashable h = Ok h
      /\ holds_object v = false
  | Raise e => exc_type e = TypeError /\ holds_object v = true
  end.

End hashable.

(** ** [db/backends/base/base.py]: [BaseDatabaseWrapper]

    Thread sharing, and the callbacks run on commit. *)

Module db_base.

(** [django.db.DatabaseError] and
    [django.db.transaction.TransactionManagementError], which are declared
    outside the sources. *)
Definition DatabaseError : exc_class := Custom "DatabaseError" (Custom "Error" Exception_).

Definition TransactionManagementError : exc_class :=
  Custom "TransactionManagementError" (Custom "ProgrammingError" DatabaseError).

(** [django.core.exceptions.SynchronousOnlyOperation] *)
Definition SynchronousOnlyOperation : exc_class :=
  Custom "SynchronousOnlyOperation" Exception_.

(** ["%s" % n] for an integer. *)
Definition str_int (n : Z) : string := NilZero.string_of_int (Z.to_int n).

Section BaseDatabaseWrapper.

(** What the callbacks act on, and the connection object of the driver. *)
Variable World : Type.
Variable Connection : Type.

(** A callable handed to [on_commit]. *)
Record function : Type := mkFunction {
  __qualname__ : string;
  __call__ : M World unit
}.

(** An entry of [run_on_commit]: [(sids, func, robust)]. *)
Definition entry : Type := (list (option string) * function * bool)%type.

(** The attributes of the wrapper the methods below work on; [called] holds
    the callbacks called so far, [logs] what was written to the logger
    [django.db.backends.base], and [uses_savepoints] is
    [self.features.uses_savepoints]. *)
Record BaseDatabaseWrapper : Type := mkBaseDatabaseWrapper {
  connection : option Connection;
  alias : string;
  autocommit : bool;
  in_atomic_block : bool;
  savepoint_ids : list (option string);
  needs_rollback : bool;
  uses_savepoints : bool;
  _thread_sharing_count : Z;
  _thread_ident : Z;
  run_on_commit : list entry;
  called : list string;
  logs : list log_entry;
  world : World
}.

Definition with_thread_sharing_count (n : Z) (self : BaseDatabaseWrapper)
    : BaseDatabaseWrapper :=
  mkBaseDatabaseWrapper (connection self) (alias self) (autocommit self)
    (in_atomic_block self) (savepoint_ids self) (needs_rollback self)
    (uses_savepoints self) n (_thread_ident self) (run_on_commit self)
    (called self) (logs self) (world self).

Definition with_run_on_commit (l : list entry) (self : BaseDatabaseWrapper)
    : BaseDatabaseWrapper :=
  mkBaseDatabaseWrapper (connection self) (alias self) (autocommit self)
    (in_atomic_block self) (savepoint_ids self) (needs_rollback self)
    (uses_savepoints self) (_thread_sharing_count self) (_thread_ident self) l
    (called self) (logs self) (world self).

Definition with_needs_rollback (b : bool) (self : BaseDatabaseWrapper)
    : BaseDatabaseWrapper :=
  mkBaseDatabaseWrapper (connection self) (alias self) (autocommit self)
    (in_atomic_block self) (savepoint_ids self) b
    (uses_savepoints self) (_thread_sharing_count self) (_thread_ident self)
    (run_on_commit self) (called self) (logs self) (world self).

Definition logged (l : log_entry) (self : BaseDatabaseWrapper)
    : BaseDatabaseWrapper :=
  mkBaseDatabaseWrapper (connection self) (alias self) (autocommit self)
    (in_atomic_block self) (savepoint_ids self) (needs_rollback self)
    (uses_savepoints self) (_thread_sharing_count self) (_thread_ident self)
    (run_on_commit self) (called self) (logs self ++ [l])%list (world self).

(** [func()] *)
Definition call (func : function) : M BaseDatabaseWrapper unit :=
  fun self =>
    let (r, w) := __call__ func (world self) in
    (r, mkBaseDatabaseWrapper (connection self) (alias self) (autocommit self)
          (in_atomic_block self) (savepoint_ids self) (needs_rollback self)
          (uses_savepoints self) (_thread_sharing_count self) (_thread_ident self)
          (run_on_commit self) (called self ++ [__qualname__ func])%list
          (logs self) w).

Definition logger_error (msg : string) : M BaseDatabaseWrapper unit :=
  modify (logged (mkLog "django.db.backends.base" "error" msg)).

(** *** Thread safety handling *)

Definition allow_thread_sharing : M BaseDatabaseWrapper bool :=
  count <- gets _thread_sharing_count ;;
  ret (0 <? count).

Definition inc_thread_sharing : M BaseDatabaseWrapper unit :=
  modify (fun self =>
            with_thread_sharing_count (_thread_sharing_count self + 1) self).

Definition dec_thread_sharing : M BaseDatabaseWrapper unit :=
  count <- gets _thread_sharing_count ;;
  if count <=? 0 then
    raise (mkExn RuntimeError "Cannot decrement the thread sharing count below zero.")
  else
    modify (fun self =>
              with_thread_sharing_count (_thread_sharing_count self - 1) self).

(** [get_ident] is [_thread.get_ident()], the thread that makes the call. *)
Definition validate_thread_sharing (get_ident : Z) : M BaseDatabaseWrapper unit :=
  allowed <- allow_thread_sharing ;;
  created_in <- gets _thread_ident ;;
  if negb (allowed || (created_in =? get_ident)) then
    name <- gets alias ;;
    raise (mkExn DatabaseError
             ("DatabaseWrapper objects created in a "
              ++ "thread can only be used in that same thread. The object "
              ++ "with alias '" ++ name ++ "' was created in thread id "
              ++ str_int created_in ++ " and this is "
              ++ "thread id " ++ str_int get_ident ++ "."))
  else ret tt.

(** *** Methods that are unsafe in an async context *)

(** The decorator [django.utils.asyncio.async_unsafe] is not among the
    sources.  A method it decorates is not entered when the calling thread
    has a running event loop, unless the environment sets
    [DJANGO_ALLOW_ASYNC_UNSAFE]: the call raises [SynchronousOnlyOperation]
    instead.  [async_context] says whether the caller is refused in this
    way. *)
Variable async_context : bool.

Definition async_unsafe {A : Type} (func : M BaseDatabaseWrapper A)
    : M BaseDatabaseWrapper A :=
  if async_context then
    raise (mkExn SynchronousOnlyOperation
             "You cannot call this from an async context - use a thread or sync_to_async.")
  else func.

(** *** Generic transaction management methods *)

(** [connect()] under [wrap_database_errors], its own [async_unsafe] check
    included: it is backend work for the most part and is called for a
    wrapper without a connection only. *)
Variable connect : M BaseDatabaseWrapper unit.

Definition ensure_connection : M BaseDatabaseWrapper unit :=
  async_unsafe
    (conn <- gets connection ;;
     match conn with
     | None => connect
     | Some _ => ret tt
     end).

Definition get_autocommit : M BaseDatabaseWrapper bool :=
  ensure_connection ;;
  gets autocommit.

Definition get_rollback : M BaseDatabaseWrapper bool :=
  in_atomic <- gets in_atomic_block ;;
  if negb in_atomic then
    raise (mkExn TransactionManagementError
             "The rollback flag doesn't work outside of an 'atomic' block.")
  else gets needs_rollback.

Definition set_rollback (rollback : bool) : M BaseDatabaseWrapper unit :=
  in_atomic <- gets in_atomic_block ;;
  if negb in_atomic then
    raise (mkExn TransactionManagementError
             "The rollback flag doesn't work outside of an 'atomic' block.")
  else modify (with_needs_rollback rollback).

Definition validate_no_atomic_block : M BaseDatabaseWrapper unit :=
  in_atomic <- gets in_atomic_block ;;
  if in_atomic then
    raise (mkExn TransactionManagementError
             "This is forbidden when an 'atomic' block is active.")
  else ret tt.

(** *** Savepoints *)

(** [self._savepoint_rollback(sid)]: a statement executed on a cursor. *)
Variable _savepoint_rollback : string -> M BaseDatabaseWrapper unit.

Definition _savepoint_allowed : M BaseDatabaseWrapper bool :=
  uses <- gets uses_savepoints ;;
  if uses then
    autocommit <- get_autocommit ;;
    ret (negb autocommit)
  else ret false.

Definition option_string_eqb (a b : option string) : bool :=
  match a, b with
  | Some x, Some y => (x =? y)%string
  | None, None => true
  | _, _ => false
  end.

(** [sid in sids] *)
Definition mem_sid (sid : string) (sids : list (option string)) : bool :=
  existsb (option_string_eqb (Some sid)) sids.

Definition savepoint_rollback (get_ident : Z) (sid : string)
    : M BaseDatabaseWrapper unit :=
  async_unsafe
    (allowed <- _savepoint_allowed ;;
     if negb allowed then ret tt
     else
       validate_thread_sharing get_ident ;;
       _savepoint_rollback sid ;;
       (* Remove any callbacks registered while this savepoint was active. *)
       modify (fun self =>
                 with_run_on_commit
                   (filter (fun item : entry => negb (mem_sid sid (fst (fst item))))
                      (run_on_commit self))
                   self)).

(** *** Callbacks on commit *)

(** [func] is [None] for an object that is not callable. *)
Definition on_commit (func : option function) (robust : bool)
    : M BaseDatabaseWrapper unit :=
  match func with
  | None => raise (mkExn TypeError "on_commit()'s callback must be a callable.")
  | Some func =>
      in_atomic <- gets in_atomic_block ;;
      if in_atomic then
        (* Transaction in progress; save for execution on commit. *)
        modify (fun self =>
                  with_run_on_commit
                    (run_on_commit self ++ [(savepoint_ids self, func, robust)])%list
                    self)
      else
        autocommit <- get_autocommit ;;
        if negb autocommit then
          raise (mkExn TransactionManagementError
                   "on_commit() cannot be used in manual transaction management")
        else if robust then
          try_except (call func)
            (fun e =>
               logger_error ("Error calling " ++ __qualname__ func
                             ++ " in on_commit() (" ++ exc_str e ++ ")."))
        else call func
  end.

(** [while current_run_on_commit: ...] *)
Fixpoint run_hooks (current_run_on_commit : list entry) : M BaseDatabaseWrapper unit :=
  match current_run_on_commit with
  | [] => ret tt
  | (_, func, robust) :: rest =>
      (if robust then
         try_except (call func)
           (fun e =>
              logger_error ("Error calling " ++ __qualname__ func
                            ++ " in on_commit() during transaction ("
                            ++ exc_str e ++ ")."))
       else call func) ;;
      run_hooks rest
  end.

Definition run_and_clear_commit_hooks : M BaseDatabaseWrapper unit :=
  validate_no_atomic_block ;;
  current_run_on_commit <- gets run_on_commit ;;
  modify (with_run_on_commit []) ;;
  run_hooks current_run_on_commit.

(** A caller of the thread-sharing methods, which goes on after a call that
    raised. *)
Inductive sharing_call : Type :=
| inc
| dec.

Definition sharing_step (self : BaseDatabaseWrapper) (c : sharing_call)
    : BaseDatabaseWrapper :=
  match c with
  | inc => snd (inc_thread_sharing self)
  | dec => snd (dec_thread_sharing self)
  end.

(** Callbacks called one after the other none of which stops the loop of
    [run_and_clear_commit_hooks]: each returns, or is robust. *)
Definition stops (item : entry) (self : BaseDatabaseWrapper) : bool :=
  match __call__ (snd (fst item)) (world self) with
  | (Ok _, _) => false
  | (Raise _, _) => negb (snd item)
  end.

Fixpoint all_pass (items : list entry) (self : BaseDatabaseWrapper) : bool :=
  match items with
  | [] => true
  | item :: rest =>
      negb (stops item self) && all_pass rest (snd (run_hooks [item] self))
  end.

End BaseDatabaseWrapper.

Arguments mkFunction {World} _ _.
Arguments __qualname__ {World} f.
Arguments __call__ {World} f.
Arguments connection {World Connection} b.
Arguments alias {World Connection} b.
Arguments autocommit {World Connection} b.
Arguments in_atomic_block {World Connection} b.
Arguments savepoint_ids {World Connection} b.
Arguments needs_rollback {World Connection} b.
Arguments uses_savepoints {World Connection} b.
Arguments _thread_sharing_count {World Connection} b.
Arguments _thread_ident {World Connection} b.
Arguments run_on_commit {World Connection} b.
Arguments called {World Connection} b.
Arguments logs {World Connection} b.
Arguments world {World Connection} b.
Arguments mkBaseDatabaseWrapper {World Connection} _ _ _ _ _ _ _ _ _ _ _ _ _.
Arguments sharing_step {World Connection} self c.
Arguments stops {World Connection} item self.
Arguments all_pass {World Connection} items self.

End db_base.

(** A database wrapper with an open connection, in autocommit mode, and
    callbacks that write their name to a journal or fail. *)
Definition noting (name : string) : db_base.function (list string) :=
  db_base.mkFunction name (fun journal => (Ok tt, journal ++ [name])%list).

Definition failing (name : string) : db_base.function (list string) :=
  db_base.mkFunction name
    (fun journal => (Raise (mkExn ValueError (name ++ " failed")), journal)).

Definition sample_wrapper : db_base.BaseDatabaseWrapper (list string) unit :=
  db_base.mkBaseDatabaseWrapper (Some tt) "default" true false [] false true
    0 1 [] [] [] [].

Definition sample_connect
    : M (db_base.BaseDatabaseWrapper (list string) unit) unit :=
  raise (mkExn (Custom "OperationalError" db_base.DatabaseError) "no server").

Definition sample_savepoint_rollback (sid : string)
    : M (db_base.BaseDatabaseWrapper (list string) unit) unit :=
  ret tt.

(** The same wrapper with four callbacks waiting for the commit. *)
Definition wrapper_with_callbacks
    : db_base.BaseDatabaseWrapper (list string) unit :=
  db_base.with_run_on_commit _ _
    [([], noting "a", false); ([], failing "b", true);
     ([], failing "c", false); ([], noting "d", false)]
    sample_wrapper.

(** The same wrapper inside an atomic block, under the savepoint [s1], with
    a callback stored before the savepoint was made. *)
Definition wrapper_in_atomic_block
    : db_base.BaseDatabaseWrapper (list string) unit :=
  db_base.mkBaseDatabaseWrapper (Some tt) "default" false true [Some "s1"] false
    true 0 1 [([], noting "early", false)] [] [] [].

(** * Properties *)

Section Properties.

Context {W : Type}.
Variable conf : settings W.

(** ** Running computations *)

Lemma bind_Ok {S A B : Type} (m : M S A) (k : A -> M S B) s a s' :
  m s = (Ok a, s') -> bind m k s = k a s'.
Proof. intros H; unfold bind; now rewrite H. Qed.

Lemma bind_Raise {S A B : Type} (m : M S A) (k : A -> M S B) s e s' :
  m s = (Raise e, s') -> bind m k s = (Raise e, s').
Proof. intros H; unfold bind; now rewrite H. Qed.

Lemma try_Ok {S A : Type} (m : M S A) (h : exn -> M S A) s a s' :
  m s = (Ok a, s') -> try_except m h s = (Ok a, s').
Proof. intros H; unfold try_except; now rewrite H. Qed.

Lemma try_Raise {S A : Type} (m : M S A) (h : exn -> M S A) s e s' :
  m s = (Raise e, s') -> try_except m h s = h e s'.
Proof. intros H; unfold try_except; now rewrite H. Qed.

(** ** The chain builder *)

Lemma adapt_method_mode_spec {A : Type} `{Callable A} is_async (method : A)
    method_is_async debug name (b : build W) :
  exists lg,
    adapt_method_mode is_async method method_is_async debug name b
    = (Ok (adapted is_async method
             (match method_is_async with
              | Some x => x
              | None => iscoroutinefunction method
              end)),
       mkBuild (self b) lg).
Proof.
  destruct b as [h lg]; unfold adapt_method_mode, adapted.
  destruct is_async, method_is_async as [[|]|], (iscoroutinefunction method), debug;
    cbn; eexists; reflexivity.
Qed.

Lemma register_hooks_spec is_async (mw : mw_instance W) (b : build W) :
  register_hooks is_async mw b
  = (Ok tt, mkBuild (registered is_async mw (self b)) (build_logs b)).
Proof.
  destruct b as [h lg], h as [vm tm em ch], mw as [co call pv pt pe].
  unfold register_hooks, registered; cbn.
  destruct pv as [[m1 c1 [|] a1 f1]|], pt as [[m2 c2 [|] a2 f2]|],
    pe as [[m3 c3 [|] a3 f3]|], is_async; reflexivity.
Qed.

(** One turn of the loop, by what the stage is. *)
Lemma loop_turn_used is_async p handler handler_is_async b middleware mw :
  import_string conf p = Ok middleware ->
  negb (getattr (sync_capable middleware) true)
    && negb (getattr (async_capable middleware) false) = false ->
  factory middleware = Ok (Some mw) ->
  let mode := stage_mode handler_is_async (getattr (sync_capable middleware) true)
                (getattr (async_capable middleware) false) in
  exists lg, forall rest,
    load_middleware_loop conf is_async (p :: rest) handler handler_is_async b
    = load_middleware_loop conf is_async rest
        (Converted (MwInstance p mw (adapted mode handler handler_is_async)))
        mode (mkBuild (registered is_async mw (self b)) lg).
Proof.
  intros Hi Hf Hm mode.
  destruct (adapt_method_mode_spec mode handler (Some handler_is_async) (DEBUG conf)
              (Some ("middleware " ++ p)) b) as [lg Ha].
  exists lg; intros rest. cbn [load_middleware_loop].
  rewrite (bind_Ok _ _ b middleware b) by (unfold lift_result; now rewrite Hi).
  rewrite Hf. fold mode.
  rewrite (bind_Ok _ _ _ _ _ Ha). rewrite Hm.
  rewrite (bind_Ok _ _ _ _ _ (register_hooks_spec _ _ _)). reflexivity.
Qed.

Lemma loop_turn_not_used is_async p handler handler_is_async b middleware exc :
  import_string conf p = Ok middleware ->
  negb (getattr (sync_capable middleware) true)
    && negb (getattr (async_capable middleware) false) = false ->
  factory middleware = Raise exc ->
  isinstance exc MiddlewareNotUsed = true ->
  exists lg, forall rest,
    load_middleware_loop conf is_async (p :: rest) handler handler_is_async b
    = load_middleware_loop conf is_async rest handler handler_is_async
        (mkBuild (self b) lg).
Proof.
  intros Hi Hf Hm Hx.
  destruct (adapt_method_mode_spec
              (stage_mode handler_is_async (getattr (sync_capable middleware) true)
                 (getattr (async_capable middleware) false))
              handler (Some handler_is_async) (DEBUG conf)
              (Some ("middleware " ++ p)) b) as [lg Ha].
  assert (Hstep : forall rest,
    load_middleware_loop conf is_async (p :: rest) handler handler_is_async b
    = ((if DEBUG conf then
          if (exc_str exc =? "")%string
          then logger_debug ("MiddlewareNotUsed: " ++ repr p)
          else logger_debug ("MiddlewareNotUsed(" ++ repr p ++ "): " ++ exc_str exc)
        else ret tt) ;;
       load_middleware_loop conf is_async rest handler handler_is_async)%monad
        (mkBuild (self b) lg)).
  { intros rest. cbn [load_middleware_loop].
    rewrite (bind_Ok _ _ b middleware b) by (unfold lift_result; now rewrite Hi).
    now rewrite Hf, (bind_Ok _ _ _ _ _ Ha), Hm, Hx. }
  destruct (DEBUG conf); [destruct (exc_str exc =? "")%string|];
    eexists; intros rest; rewrite Hstep;
    unfold bind, logger_debug, modify, ret; cbn; reflexivity.
Qed.

Lemma loop_turn_import_fails is_async p rest handler handler_is_async b e :
  import_string conf p = Raise e ->
  load_middleware_loop conf is_async (p :: rest) handler handler_is_async b
  = (Raise e, b).
Proof.
  intros Hi. cbn [load_middleware_loop].
  apply bind_Raise. unfold lift_result; now rewrite Hi.
Qed.

Lemma loop_turn_no_capability is_async p rest handler handler_is_async b middleware :
  import_string conf p = Ok middleware ->
  negb (getattr (sync_capable middleware) true)
    && negb (getattr (async_capable middleware) false) = true ->
  load_middleware_loop conf is_async (p :: rest) handler handler_is_async b
  = (Raise (mkExn RuntimeError
              ("Middleware " ++ p ++ " must have at least one of "
               ++ "sync_capable/async_capable set to True.")), b).
Proof.
  intros Hi Hf. cbn [load_middleware_loop].
  rewrite (bind_Ok _ _ b middleware b) by (unfold lift_result; now rewrite Hi).
  now rewrite Hf.
Qed.

Lemma loop_turn_returned_None is_async p handler handler_is_async b middleware :
  import_string conf p = Ok middleware ->
  negb (getattr (sync_capable middleware) true)
    && negb (getattr (async_capable middleware) false) = false ->
  factory middleware = Ok None ->
  exists lg, forall rest,
    load_middleware_loop conf is_async (p :: rest) handler handler_is_async b
    = (Raise (mkExn ImproperlyConfigured
                ("Middleware factory " ++ p ++ " returned None.")),
       mkBuild (self b) lg).
Proof.
  intros Hi Hf Hm.
  destruct (adapt_method_mode_spec
              (stage_mode handler_is_async (getattr (sync_capable middleware) true)
                 (getattr (async_capable middleware) false))
              handler (Some handler_is_async) (DEBUG conf)
              (Some ("middleware " ++ p)) b) as [lg Ha].
  exists lg; intros rest. cbn [load_middleware_loop].
  rewrite (bind_Ok _ _ b middleware b) by (unfold lift_result; now rewrite Hi).
  now rewrite Hf, (bind_Ok _ _ _ _ _ Ha), Hm.
Qed.

Lemma loop_turn_factory_raises is_async p handler handler_is_async b middleware exc :
  import_string conf p = Ok middleware ->
  negb (getattr (sync_capable middleware) true)
    && negb (getattr (async_capable middleware) false) = false ->
  factory middleware = Raise exc ->
  isinstance exc MiddlewareNotUsed = false ->
  exists lg, forall rest,
    load_middleware_loop conf is_async (p :: rest) handler handler_is_async b
    = (Raise exc, mkBuild (self b) lg).
Proof.
  intros Hi Hf Hm Hx.
  destruct (adapt_method_mode_spec
              (stage_mode handler_is_async (getattr (sync_capable middleware) true)
                 (getattr (async_capable middleware) false))
              handler (Some handler_is_async) (DEBUG conf)
              (Some ("middleware " ++ p)) b) as [lg Ha].
  exists lg; intros rest. cbn [load_middleware_loop].
  rewrite (bind_Ok _ _ b middleware b) by (unfold lift_result; now rewrite Hi).
  now rewrite Hf, (bind_Ok _ _ _ _ _ Ha), Hm, Hx.
Qed.

(** A turn ends the loop with an exception, or goes on around a new
    instance, or goes on with the handler it had. *)
Lemma loop_turn_cases is_async p handler handler_is_async b :
  (exists e lg, forall rest,
     load_middleware_loop conf is_async (p :: rest) handler handler_is_async b
     = (Raise e, mkBuild (self b) lg))
  \/ (exists middleware mw mode lg,
        import_string conf p = Ok middleware /\
        mode = stage_mode handler_is_async (getattr (sync_capable middleware) true)
                 (getattr (async_capable middleware) false) /\
        instance_of conf p = Some mw /\
        forall rest,
          load_middleware_loop conf is_async (p :: rest) handler handler_is_async b
          = load_middleware_loop conf is_async rest
              (Converted (MwInstance p mw (adapted mode handler handler_is_async)))
              mode (mkBuild (registered is_async mw (self b)) lg))
  \/ (exists lg,
        instance_of conf p = None /\
        forall rest,
          load_middleware_loop conf is_async (p :: rest) handler handler_is_async b
          = load_middleware_loop conf is_async rest handler handler_is_async
              (mkBuild (self b) lg)).
Proof.
  unfold instance_of.
  destruct (import_string conf p) as [middleware|e] eqn:Hi.
  - destruct (negb (getattr (sync_capable middleware) true)
              && negb (getattr (async_capable middleware) false)) eqn:Hf.
    + left. eexists; exists (build_logs b); intros rest.
      rewrite (loop_turn_no_capability _ _ _ _ _ _ _ Hi Hf). now destruct b.
    + destruct (factory middleware) as [[mw|]|exc] eqn:Hm.
      * right; left.
        destruct (loop_turn_used is_async p handler handler_is_async b _ _ Hi Hf Hm)
          as [lg Hl].
        exists middleware, mw, (stage_mode handler_is_async
                                  (getattr (sync_capable middleware) true)
                                  (getattr (async_capable middleware) false)), lg.
        auto.
      * left.
        destruct (loop_turn_returned_None is_async p handler handler_is_async b _
                    Hi Hf Hm) as [lg Hl].
        eauto.
      * destruct (isinstance exc MiddlewareNotUsed) eqn:Hx.
        -- right; right.
           destruct (loop_turn_not_used is_async p handler handler_is_async b _ _
                       Hi Hf Hm Hx) as [lg Hl].
           eauto.
        -- left.
           destruct (loop_turn_factory_raises is_async p handler handler_is_async b
                       _ _ Hi Hf Hm Hx) as [lg Hl].
           eauto.
  - left. exists e, (build_logs b). intros rest.
    rewrite (loop_turn_import_fails _ _ _ _ _ _ _ Hi). now destruct b.
Qed.

(** The loop over [l1 ++ l2] is the loop over [l1], then over [l2]. *)
Lemma load_middleware_loop_app is_async l1 l2 :
  forall handler handler_is_async b,
    load_middleware_loop conf is_async (l1 ++ l2) handler handler_is_async b
    = match load_middleware_loop conf is_async l1 handler handler_is_async b with
      | (Ok (h1, a1), b1) => load_middleware_loop conf is_async l2 h1 a1 b1
      | (Raise e, b1) => (Raise e, b1)
      end.
Proof.
  induction l1 as [|p l1 IH]; intros handler handler_is_async b.
  - reflexivity.
  - rewrite <- app_comm_cons.
    destruct (loop_turn_cases is_async p handler handler_is_async b)
      as [(e & lg & H) | [(m0 & mw & mode & lg & _ & _ & _ & H) | (lg & _ & H)]].
    + now rewrite !H.
    + rewrite !H. apply IH.
    + rewrite !H. apply IH.
Qed.

(** The loop never assigns [_middleware_chain]. *)
Lemma load_middleware_loop_chain is_async paths :
  forall handler handler_is_async b,
    _middleware_chain
      (self (snd (load_middleware_loop conf is_async paths handler handler_is_async b)))
    = _middleware_chain (self b).
Proof.
  induction paths as [|p paths IH]; intros handler handler_is_async b.
  - reflexivity.
  - destruct (loop_turn_cases is_async p handler handler_is_async b)
      as [(e & lg & H) | [(m0 & mw & mode & lg & _ & _ & _ & H) | (lg & _ & H)]];
      rewrite H.
    + reflexivity.
    + rewrite IH. reflexivity.
    + rewrite IH. reflexivity.
Qed.

Lemma choose_app {A B : Type} (f : A -> option B) l1 l2 :
  choose f (l1 ++ l2) = (choose f l1 ++ choose f l2)%list.
Proof.
  induction l1 as [|a l1 IH]; [reflexivity|].
  cbn. destruct (f a); cbn; now rewrite IH.
Qed.

Lemma choose_rev {A B : Type} (f : A -> option B) l :
  choose f (rev l) = rev (choose f l).
Proof.
  induction l as [|a l IH]; [reflexivity|].
  cbn. rewrite choose_app, IH. cbn. destruct (f a); cbn.
  - reflexivity.
  - now rewrite app_nil_r.
Qed.

(** When the loop comes to its end, the hooks of the stages it visited are
    recorded: the pre-invocation hooks in front of the list, last visited
    first; the post-render and on-fault hooks at its end, in visiting order. *)
Lemma load_middleware_loop_hooks is_async paths :
  forall handler handler_is_async b top b',
    load_middleware_loop conf is_async paths handler handler_is_async b = (Ok top, b') ->
    _view_middleware (self b')
    = (rev (choose (hook_of conf process_view is_async) paths)
       ++ _view_middleware (self b))%list
    /\ _template_response_middleware (self b')
       = (_template_response_middleware (self b)
          ++ choose (hook_of conf process_template_response is_async) paths)%list
    /\ _exception_middleware (self b')
       = (_exception_middleware (self b)
          ++ choose (hook_of conf process_exception false) paths)%list.
Proof.
  induction paths as [|p paths IH]; intros handler handler_is_async b top b' Hl.
  - cbn in Hl. unfold ret in Hl. injection Hl as _ <-. cbn.
    now rewrite !app_nil_r.
  - destruct (loop_turn_cases is_async p handler handler_is_async b)
      as [(e & lg & H) | [(m0 & mw & mode & lg & _ & _ & Hi & H) | (lg & Hi & H)]];
      rewrite H in Hl.
    + discriminate.
    + apply IH in Hl. destruct Hl as (Hv & Ht & He).
      assert (E : forall Args (get : mw_instance W -> option (hook W Args)) a,
                 hook_of conf get a p
                 = match get mw with
                   | Some m => Some (adapted a m (hook_is_coroutine m))
                   | None => None
                   end)
        by (intros; unfold hook_of; now rewrite Hi).
      rewrite Hv, Ht, He. cbn [choose]. rewrite !E.
      cbn [self registered _view_middleware _template_response_middleware
             _exception_middleware].
      destruct (process_view mw), (process_template_response mw),
        (process_exception mw); cbn [rev]; rewrite <- ?app_assoc; auto.
    + apply IH in Hl. destruct Hl as (Hv & Ht & He).
      assert (E : forall Args (get : mw_instance W -> option (hook W Args)) a,
                 hook_of conf get a p = None)
        by (intros; unfold hook_of; now rewrite Hi).
      rewrite Hv, Ht, He. cbn [choose]. rewrite !E. auto.
Qed.

(** [load_middleware], by how its loop ends. *)
Lemma load_middleware_unfold is_async (b : build W) :
  load_middleware conf is_async b
  = match load_middleware_loop conf is_async (rev (MIDDLEWARE conf))
            (Converted (GetResponse is_async)) is_async
            (mkBuild (mkHandler [] [] [] (_middleware_chain (self b))) (build_logs b))
    with
    | (Ok (handler, handler_is_async), b1) =>
        (Ok tt,
         mkBuild (mkHandler (_view_middleware (self b1))
                    (_template_response_middleware (self b1))
                    (_exception_middleware (self b1))
                    (Some (adapted is_async handler handler_is_async)))
           (build_logs b1))
    | (Raise e, b1) => (Raise e, b1)
    end.
Proof.
  unfold load_middleware, bind, update_self, modify. cbn [self build_logs].
  destruct (load_middleware_loop conf is_async (rev (MIDDLEWARE conf))
              (Converted (GetResponse is_async)) is_async _)
    as [[[handler handler_is_async]|e] [h1 lg1]]; [|reflexivity].
  unfold adapt_method_mode, adapted.
  destruct is_async, handler_is_async; reflexivity.
Qed.

(** A failed [load_middleware] leaves [_middleware_chain] as it was. *)
Lemma load_middleware_failed is_async (b : build W) e b' :
  load_middleware conf is_async b = (Raise e, b') ->
  _middleware_chain (self b') = _middleware_chain (self b).
Proof.
  rewrite load_middleware_unfold.
  pose proof (load_middleware_loop_chain is_async (rev (MIDDLEWARE conf))
                (Converted (GetResponse is_async)) is_async
                (mkBuild (mkHandler [] [] [] (_middleware_chain (self b)))
                   (build_logs b))) as Hc.
  destruct (load_middleware_loop conf is_async (rev (MIDDLEWARE conf)) _ _ _)
    as [[[handler handler_is_async]|e1] b1]; [discriminate|].
  intros H; injection H as _ <-. exact Hc.
Qed.

(** Every handler the loop hands back is wrapped by
    [convert_exception_to_response]. *)
Lemma load_middleware_loop_converted is_async paths :
  forall c handler_is_async b handler a b',
    load_middleware_loop conf is_async paths (Converted c) handler_is_async b
    = (Ok (handler, a), b') ->
    exists c', handler = Converted c'.
Proof.
  induction paths as [|p paths IH]; intros c handler_is_async b handler a b' Hl.
  - cbn in Hl. unfold ret in Hl. injection Hl as <- _ _. eauto.
  - destruct (loop_turn_cases is_async p (Converted c) handler_is_async b)
      as [(e & lg & H) | [(m0 & mw & mode & lg & _ & _ & _ & H) | (lg & _ & H)]];
      rewrite H in Hl.
    + discriminate.
    + eapply IH; eassumption.
    + eapply IH; eassumption.
Qed.

(** What a successful [load_middleware] leaves on [self]: the pre-invocation
    hooks in configuration order, the post-render and on-fault hooks in
    reverse configuration order, and a chain whose outermost callable is a
    [convert_exception_to_response] wrapper, adapted to the pipeline's mode. *)
Lemma load_middleware_done is_async (b : build W) b' :
  load_middleware conf is_async b = (Ok tt, b') ->
  _view_middleware (self b') = configured_view_hooks conf is_async
  /\ _template_response_middleware (self b')
     = rev (configured_template_hooks conf is_async)
  /\ _exception_middleware (self b') = rev (configured_exception_hooks conf)
  /\ exists c a,
       _middleware_chain (self b') = Some (adapted is_async (Converted c) a).
Proof.
  rewrite load_middleware_unfold.
  destruct (load_middleware_loop conf is_async (rev (MIDDLEWARE conf)) _ _ _)
    as [[[handler handler_is_async]|e1] b1] eqn:Hl; [|discriminate].
  intros H; injection H as <-. cbn [self _view_middleware
    _template_response_middleware _exception_middleware _middleware_chain].
  destruct (load_middleware_loop_hooks _ _ _ _ _ _ _ Hl) as (Hv & Ht & He).
  destruct (load_middleware_loop_converted _ _ _ _ _ _ _ _ Hl) as [c' ->].
  rewrite Hv, Ht, He. cbn [self _view_middleware _template_response_middleware
    _exception_middleware]. rewrite app_nil_r, !choose_rev, rev_involutive.
  unfold configured_view_hooks, configured_template_hooks,
    configured_exception_hooks. cbn [app]. eauto 10.
Qed.

(** In a blocking pipeline whose stages visited so far all declare sync
    capability, the handler is still in blocking mode. *)
Lemma load_middleware_loop_stays_blocking is_async paths :
  (forall q m, In q paths -> import_string conf q = Ok m ->
               getattr (sync_capable m) true = true) ->
  forall handler b top a b',
    load_middleware_loop conf is_async paths handler false b = (Ok (top, a), b') ->
    a = false.
Proof.
  induction paths as [|p paths IH]; intros Hs handler b top a b' Hl.
  - cbn in Hl. unfold ret in Hl. now injection Hl as _ <- _.
  - destruct (loop_turn_cases is_async p handler false b)
      as [(e & lg & H) | [(m0 & mw & mode & lg & Hi & Hm & _ & H) | (lg & _ & H)]];
      rewrite H in Hl.
    + discriminate.
    + rewrite (Hs p m0 (or_introl eq_refl) Hi) in Hm. cbn in Hm. subst mode.
      eapply IH; [|eassumption]. intros q m Hq. apply Hs. now right.
    + eapply IH; [|eassumption]. intros q m Hq. apply Hs. now right.
Qed.

(** C4 (as amended).  The mode of a stage follows the handler it wraps, not
    the mode of the pipeline: when the handler built from the stages
    configured after it is in blocking mode and the stage declares sync
    capability, the stage runs in blocking mode, whatever its async flag;
    when that handler is cooperative or the stage lacks sync capability, it
    runs in the mode its async flag gives.  The instance is built around the
    handler adapted to that mode, and the loop goes on in that mode.  In a
    blocking pipeline the wrapped handler is in blocking mode whenever every
    stage configured after this one declares sync capability. *)
Theorem stage_mode_follows_wrapped_handler
    is_async before p after middleware mw (b0 : build W) handler handler_is_async b1 :
  MIDDLEWARE conf = (before ++ p :: after)%list ->
  load_middleware_loop conf is_async (rev after) (Converted (GetResponse is_async))
    is_async b0 = (Ok (handler, handler_is_async), b1) ->
  import_string conf p = Ok middleware ->
  negb (getattr (sync_capable middleware) true)
    && negb (getattr (async_capable middleware) false) = false ->
  factory middleware = Ok (Some mw) ->
  let can_sync := getattr (sync_capable middleware) true in
  let can_async := getattr (async_capable middleware) false in
  let mode := stage_mode handler_is_async can_sync can_async in
  (handler_is_async = false -> can_sync = true -> mode = false)
  /\ (handler_is_async = true \/ can_sync = false -> mode = can_async)
  /\ (exists lg,
        load_middleware_loop conf is_async (rev (MIDDLEWARE conf))
          (Converted (GetResponse is_async)) is_async b0
        = load_middleware_loop conf is_async (rev before)
            (Converted (MwInstance p mw (adapted mode handler handler_is_async)))
            mode (mkBuild (registered is_async mw (self b1)) lg))
  /\ (is_async = false ->
      (forall q m, In q after -> import_string conf q = Ok m ->
                   getattr (sync_capable m) true = true) ->
      handler_is_async = false).
Proof.
  intros HM Hl Hi Hf Hm can_sync can_async mode.
  split; [|split; [|split]].
  - intros -> Hs. unfold mode, stage_mode. now rewrite Hs.
  - intros [-> | Hs]; unfold mode, stage_mode; [reflexivity|].
    rewrite Hs. now rewrite andb_false_r.
  - destruct (loop_turn_used is_async p handler handler_is_async b1 _ _ Hi Hf Hm)
      as [lg Hu].
    exists lg. rewrite HM, rev_app_distr. cbn [rev]. rewrite <- app_assoc.
    rewrite load_middleware_loop_app, Hl. cbn [app]. apply Hu.
  - intros -> Hs.
    eapply load_middleware_loop_stays_blocking; [|exact Hl].
    intros q m Hq. apply Hs. now apply in_rev.
Qed.

(** C8.  A stage class with neither capability flag set, or one whose
    factory hands back [None], makes [load_middleware] raise, and
    [_middleware_chain] is not assigned: no pipeline is produced.  When the
    stages configured after it build, the error is the [RuntimeError] about
    the capability flags, respectively [ImproperlyConfigured] about the
    factory. *)
Theorem load_middleware_rejects_unusable_stage
    is_async before p after middleware (b : build W) :
  MIDDLEWARE conf = (before ++ p :: after)%list ->
  import_string conf p = Ok middleware ->
  let can_sync := getattr (sync_capable middleware) true in
  let can_async := getattr (async_capable middleware) false in
  let later :=
    load_middleware_loop conf is_async (rev after) (Converted (GetResponse is_async))
      is_async (mkBuild (mkHandler [] [] [] (_middleware_chain (self b)))
                  (build_logs b)) in
  (can_sync = false /\ can_async = false ->
   exists e b',
     load_middleware conf is_async b = (Raise e, b')
     /\ _middleware_chain (self b') = _middleware_chain (self b)
     /\ (forall top b1, later = (Ok top, b1) ->
         e = mkExn RuntimeError
               ("Middleware " ++ p ++ " must have at least one of "
                ++ "sync_capable/async_capable set to True.")))
  /\ (can_sync = true \/ can_async = true ->
      factory middleware = Ok None ->
      exists e b',
        load_middleware conf is_async b = (Raise e, b')
        /\ _middleware_chain (self b') = _middleware_chain (self b)
        /\ (forall top b1, later = (Ok top, b1) ->
            e = mkExn ImproperlyConfigured
                  ("Middleware factory " ++ p ++ " returned None."))).
Proof.
  intros HM Hi can_sync can_async later.
  assert (Hraise : forall e0,
    (forall handler a b1, exists lg,
        load_middleware_loop conf is_async (p :: rev before) handler a b1
        = (Raise e0, mkBuild (self b1) lg)) ->
    exists e b',
      load_middleware conf is_async b = (Raise e, b')
      /\ _middleware_chain (self b') = _middleware_chain (self b)
      /\ (forall top b1, later = (Ok top, b1) -> e = e0)).
  { intros e0 Hturn.
    assert (exists e b', load_middleware conf is_async b = (Raise e, b')
                         /\ (forall top b1, later = (Ok top, b1) -> e = e0))
      as (e & b' & Hload & He).
    { rewrite load_middleware_unfold, HM, rev_app_distr. cbn [rev].
      rewrite <- app_assoc, load_middleware_loop_app. fold later. cbn [app].
      destruct later as [[[handler a]|e1] b1].
      - destruct (Hturn handler a b1) as [lg ->].
        do 2 eexists; split; [reflexivity|]. reflexivity.
      - do 2 eexists; split; [reflexivity|]. discriminate. }
    exists e, b'. split; [exact Hload|]. split; [|exact He].
    eapply load_middleware_failed; eassumption. }
  split.
  - intros [Hs Ha]. apply Hraise. intros handler a b1.
    exists (build_logs b1).
    rewrite (loop_turn_no_capability _ _ _ _ _ _ _ Hi)
      by (fold can_sync can_async; now rewrite Hs, Ha).
    now destruct b1.
  - intros Hc Hn. apply Hraise. intros handler a b1.
    destruct (loop_turn_returned_None is_async p handler a b1 _ Hi) as [lg Hl]; auto.
    + fold can_sync can_async. destruct Hc as [-> | ->]; [reflexivity|].
      apply andb_false_r.
    + eauto.
Qed.

(** ** The dispatch engine *)

Lemma invoke_trace {A : Type} ev (f : appcode W A) (s : state W) r s' :
  invoke ev f s = (r, s') ->
  trace s' = (trace s ++ [ev])%list /\ logs s' = logs s
  /\ post_parse_error s' = post_parse_error s.
Proof.
  unfold invoke. destruct (f (world s)) as [r0 w]. intros H; injection H as _ <-.
  auto.
Qed.

(** Declining hooks are called in list order and leave the logs alone. *)
Lemma all_decline_trace {Args : Type} ev (args : Args)
    (hooks : list (hook W Args)) (s s' : state W) :
  all_decline ev args hooks s s' ->
  trace s' = (trace s ++ names_called ev hooks)%list /\ logs s' = logs s.
Proof.
  induction 1 as [s | h rest s s1 s2 Hh _ [IHt IHl]].
  - cbn. now rewrite app_nil_r.
  - destruct (invoke_trace _ _ _ _ _ Hh) as (Ht & Hl & _).
    rewrite IHt, IHl, Ht, Hl, <- app_assoc. auto.
Qed.

Lemma view_loop_declined await_ request (m : resolver_match W) hooks
    (s s' : state W) :
  all_decline called_process_view (request, fst (fst m), snd (fst m), snd m)
    hooks s s' ->
  view_middleware_loop await_ hooks request m PNone s = (Ok PNone, s').
Proof.
  destruct m as [[callback callback_args] callback_kwargs].
  induction 1 as [s | h rest s s1 s2 Hh _ IH]; [reflexivity|].
  cbn [view_middleware_loop fst snd] in *.
  rewrite (bind_Ok _ _ s (PNone : pyval) s1) by (destruct await_; exact Hh).
  exact IH.
Qed.

Lemma view_loop_answered await_ request (m : resolver_match W)
    declining h later (s s1 : state W) v s2 :
  all_decline called_process_view (request, fst (fst m), snd (fst m), snd m)
    declining s s1 ->
  invoke (called_process_view (hook_class h))
    (hook_call h (request, fst (fst m), snd (fst m), snd m)) s1 = (Ok v, s2) ->
  truthy v = true ->
  view_middleware_loop await_ (declining ++ h :: later) request m PNone s
  = (Ok v, s2).
Proof.
  destruct m as [[callback callback_args] callback_kwargs].
  intros Hd.
  induction Hd as [s | h0 rest s s0 s1 Hh0 _ IH]; intros Hh Hv;
    cbn [view_middleware_loop fst snd app] in *.
  - rewrite (bind_Ok _ _ s v s2) by (destruct await_; exact Hh).
    now rewrite Hv.
  - rewrite (bind_Ok _ _ s (PNone : pyval) s0) by (destruct await_; exact Hh0).
    now apply IH.
Qed.

Lemma exception_loop_declined exception request hooks (s s' : state W) :
  all_decline called_process_exception (request, exception) hooks s s' ->
  exception_middleware_loop hooks exception request s = (Ok PNone, s').
Proof.
  induction 1 as [s | h rest s s1 s2 Hh _ IH]; [reflexivity|].
  cbn [exception_middleware_loop].
  now rewrite (bind_Ok _ _ s (PNone : pyval) s1 Hh).
Qed.

Lemma exception_loop_answered exception request declining h later
    (s s1 : state W) v s2 :
  all_decline called_process_exception (request, exception) declining s s1 ->
  invoke (called_process_exception (hook_class h))
    (hook_call h (request, exception)) s1 = (Ok v, s2) ->
  truthy v = true ->
  exception_middleware_loop (declining ++ h :: later) exception request s
  = (Ok v, s2).
Proof.
  intros Hd.
  induction Hd as [s | h0 rest s s0 s1 Hh0 _ IH]; intros Hh Hv;
    cbn [exception_middleware_loop app].
  - rewrite (bind_Ok _ _ s v s2 Hh). now rewrite Hv.
  - rewrite (bind_Ok _ _ s (PNone : pyval) s0 Hh0). now apply IH.
Qed.

(** Piped post-render hooks are what the loop runs, in list order. *)
Lemma template_loop_piped await_ request hooks v (s : state W) v' s' :
  piped request hooks v s v' s' ->
  template_response_middleware_loop await_ hooks request v s = (Ok v', s')
  /\ trace s'
     = (trace s ++ names_called called_process_template_response hooks)%list.
Proof.
  induction 1 as [v s | h rest v s r1 s1 v' s' Hh _ [IH IHt]].
  - cbn. now rewrite app_nil_r.
  - cbn [template_response_middleware_loop].
    rewrite (bind_Ok _ _ s (PResp r1 : pyval) s1) by (destruct await_; exact Hh).
    destruct (invoke_trace _ _ _ _ _ Hh) as (Ht & _).
    split.
    + exact IH.
    + rewrite IHt, Ht, <- app_assoc. reflexivity.
Qed.

(** C10.  The on-fault hooks are stored in reverse configuration order, the
    last configured stage's hook first, and [process_exception_by_middleware]
    calls them in stored order: it hands back the answer of the first hook
    that gives one, without calling the hooks after it, and [None] when every
    hook declines. *)
Theorem exception_hooks_last_configured_first is_async (b b' : build W) :
  load_middleware conf is_async b = (Ok tt, b') ->
  _exception_middleware (self b') = rev (configured_exception_hooks conf)
  /\ (forall exception request declining h later s s1 v s2,
        _exception_middleware (self b') = (declining ++ h :: later)%list ->
        all_decline called_process_exception (request, exception) declining s s1 ->
        invoke (called_process_exception (hook_class h))
          (hook_call h (request, exception)) s1 = (Ok v, s2) ->
        truthy v = true ->
        process_exception_by_middleware (self b') exception request s = (Ok v, s2)
        /\ trace s2
           = (trace s
              ++ names_called called_process_exception (declining ++ [h]))%list)
  /\ (forall exception request s s1,
        all_decline called_process_exception (request, exception)
          (_exception_middleware (self b')) s s1 ->
        process_exception_by_middleware (self b') exception request s
        = (Ok PNone, s1)
        /\ trace s1
           = (trace s
              ++ names_called called_process_exception
                   (_exception_middleware (self b')))%list).
Proof.
  intros Hl. destruct (load_middleware_done _ _ _ Hl) as (_ & _ & He & _).
  split; [exact He|]. split.
  - intros exception request declining h later s s1 v s2 Hsplit Hd Hh Hv.
    unfold process_exception_by_middleware. rewrite Hsplit. split.
    + eapply exception_loop_answered; eassumption.
    + destruct (all_decline_trace _ _ _ _ _ Hd) as [Ht _].
      destruct (invoke_trace _ _ _ _ _ Hh) as (Ht2 & _).
      unfold names_called in *. rewrite Ht2, Ht, map_app, <- app_assoc.
      reflexivity.
  - intros exception request s s1 Hd. split.
    + now apply exception_loop_declined.
    + now destruct (all_decline_trace _ _ _ _ _ Hd).
Qed.

(** [_get_response] and [_get_response_async] once a pre-invocation hook
    has answered. *)
Lemma dispatch_after_hook self request (s : state W) m s1 v s2 :
  resolve_request conf request s = (Ok m, s1) ->
  (forall await_,
      view_middleware_loop await_ (_view_middleware self) request m PNone s1
      = (Ok v, s2)) ->
  is_None v = false ->
  _get_response conf self request s = after_view self request (fst (fst m)) v s2
  /\ _get_response_async conf self request s
     = after_view_async self request (fst (fst m)) v s2.
Proof.
  intros Hr Hv Hn. destruct m as [[callback callback_args] callback_kwargs].
  unfold _get_response, _get_response_async.
  rewrite !(bind_Ok _ _ _ _ _ Hr), !(bind_Ok _ _ _ _ _ (Hv _)), Hn.
  split; reflexivity.
Qed.

(** [_get_response] and [_get_response_async] once dispatch has come to the
    view and the view is made atomic. *)
Lemma dispatch_at_view self request (s : state W) m s2 :
  reaches_view conf self request s m s2 ->
  match make_view_atomic conf (fst (fst m)) with
  | Ok wrapped_callback =>
      _get_response conf self request s
      = (response <- try_except (call_view wrapped_callback request m)
                       (except_clause self request) ;;
         after_view self request (fst (fst m)) response) s2
      /\ _get_response_async conf self request s
         = (response <- try_except (call_view wrapped_callback request m)
                          (except_clause self request) ;;
            after_view_async self request (fst (fst m)) response) s2
  | Raise e =>
      _get_response conf self request s = (Raise e, s2)
      /\ _get_response_async conf self request s = (Raise e, s2)
  end.
Proof.
  intros (s1 & Hr & Hd).
  pose proof (fun a => view_loop_declined a request m _ _ _ Hd) as Hv.
  destruct m as [[callback callback_args] callback_kwargs].
  unfold _get_response, _get_response_async.
  rewrite !(bind_Ok _ _ _ _ _ Hr), !(bind_Ok _ _ _ _ _ (Hv _)).
  cbn [is_None fst].
  destruct (make_view_atomic conf callback) as [wrapped_callback|e].
  - unfold bind, lift_result.
    destruct (view_is_coroutine wrapped_callback); split; reflexivity.
  - split; reflexivity.
Qed.

(** C2 (as amended).  The post-render hooks are stored in reverse
    configuration order, the last configured stage's hook first, and dispatch
    calls them in stored order on a response with deferred rendering, each
    hook on what the hook before it handed back; [render()] is then called
    on what the last one hands back. *)
Theorem post_render_hooks_last_configured_first is_async (b b' : build W) :
  load_middleware conf is_async b = (Ok tt, b') ->
  _template_response_middleware (self b')
  = rev (configured_template_hooks conf is_async)
  /\ forall request s m s2 wrapped_callback r s3 v' s4,
       reaches_view conf (self b') request s m s2 ->
       make_view_atomic conf (fst (fst m)) = Ok wrapped_callback ->
       call_view wrapped_callback request m s2 = (Ok (PResp r), s3) ->
       has_render (PResp r) = true ->
       piped request (_template_response_middleware (self b')) (PResp r) s3 v' s4 ->
       _get_response conf (self b') request s
       = try_except (call_render v') (except_clause (self b') request) s4
       /\ _get_response_async conf (self b') request s
          = (response <- try_except (call_render v')
                           (except_clause (self b') request) ;;
             if iscoroutine response
             then raise (mkExn RuntimeError "Response is still a coroutine.")
             else ret response) s4
       /\ trace s4
          = (trace s3
             ++ names_called called_process_template_response
                  (rev (configured_template_hooks conf is_async)))%list.
Proof.
  intros Hl. destruct (load_middleware_done _ _ _ Hl) as (_ & Ht & _).
  split; [exact Ht|].
  intros request s m s2 wrapped_callback r s3 v' s4 Hreach Hat Hcall Hrender Hp.
  pose proof (dispatch_at_view _ _ _ _ _ Hreach) as Hd. rewrite Hat in Hd.
  destruct Hd as [Hs Ha].
  pose proof (try_Ok _ (except_clause (self b') request) _ _ _ Hcall) as Htry.
  destruct (template_loop_piped false _ _ _ _ _ _ Hp) as [Hloop Htrace].
  destruct (template_loop_piped true _ _ _ _ _ _ Hp) as [Hloop' _].
  split; [|split].
  - rewrite Hs, (bind_Ok _ _ _ _ _ Htry). unfold after_view.
    rewrite (bind_Ok _ _ s3 tt s3) by reflexivity.
    rewrite Hrender. now rewrite (bind_Ok _ _ _ _ _ Hloop).
  - rewrite Ha, (bind_Ok _ _ _ _ _ Htry). unfold after_view_async.
    rewrite (bind_Ok _ _ s3 tt s3) by reflexivity.
    rewrite Hrender. cbv beta iota delta [bind]. now rewrite Hloop'.
  - now rewrite <- Ht.
Qed.

(** C5 (as amended).  The pre-invocation hooks are stored in configuration
    order.  The first of them to hand back a response ends the loop: no later
    pre-invocation hook and no view is called, and dispatch goes on with that
    response, validating it and, when it has deferred rendering, passing it
    through the post-render hooks and [render()].  A response without
    deferred rendering is the result of dispatch as it is. *)
Theorem view_hook_answer_short_circuits is_async (b b' : build W) :
  load_middleware conf is_async b = (Ok tt, b') ->
  _view_middleware (self b') = configured_view_hooks conf is_async
  /\ forall request s m s1 declining h later s2 v s3,
       resolve_request conf request s = (Ok m, s1) ->
       _view_middleware (self b') = (declining ++ h :: later)%list ->
       all_decline called_process_view (request, fst (fst m), snd (fst m), snd m)
         declining s1 s2 ->
       invoke (called_process_view (hook_class h))
         (hook_call h (request, fst (fst m), snd (fst m), snd m)) s2 = (Ok v, s3) ->
       truthy v = true ->
       _get_response conf (self b') request s
       = after_view (self b') request (fst (fst m)) v s3
       /\ _get_response_async conf (self b') request s
          = after_view_async (self b') request (fst (fst m)) v s3
       /\ trace s3
          = (trace s1 ++ names_called called_process_view (declining ++ [h]))%list
       /\ (forall r, v = PResp r -> has_render v = false ->
           _get_response conf (self b') request s = (Ok v, s3)
           /\ _get_response_async conf (self b') request s = (Ok v, s3)).
Proof.
  intros Hl. destruct (load_middleware_done _ _ _ Hl) as (Hvm & _).
  split; [exact Hvm|].
  intros request s m s1 declining h later s2 v s3 Hr Hsplit Hd Hh Hv.
  assert (Hloop : forall await_,
    view_middleware_loop await_ (_view_middleware (self b')) request m PNone s1
    = (Ok v, s3)).
  { intros await_. rewrite Hsplit. eapply view_loop_answered; eassumption. }
  assert (Hn : is_None v = false) by (destruct v; [discriminate | | ]; reflexivity).
  destruct (dispatch_after_hook _ _ _ _ _ _ _ Hr Hloop Hn) as [Hs Ha].
  split; [exact Hs|]. split; [exact Ha|]. split.
  - destruct (all_decline_trace _ _ _ _ _ Hd) as [Ht _].
    destruct (invoke_trace _ _ _ _ _ Hh) as (Ht2 & _).
    unfold names_called in *. rewrite Ht2, Ht, map_app, <- app_assoc. reflexivity.
  - intros r -> Hrender. rewrite Hs, Ha. unfold after_view, after_view_async.
    rewrite !(bind_Ok _ _ s3 tt s3) by reflexivity.
    rewrite Hrender. split; reflexivity.
Qed.

(** Computations that call no view. *)
Lemma no_view_called_refl (s : state W) : no_view_called s s.
Proof. exists []. now rewrite app_nil_r. Qed.

Lemma no_view_called_trans (s1 s2 s3 : state W) :
  no_view_called s1 s2 -> no_view_called s2 s3 -> no_view_called s1 s3.
Proof.
  intros (e1 & H1 & Q1) (e2 & H2 & Q2). exists (e1 ++ e2)%list.
  rewrite H2, H1, <- app_assoc, existsb_app, Q1, Q2. auto.
Qed.

Lemma same_trace (s s' : state W) : trace s' = trace s -> no_view_called s s'.
Proof. intros H. exists []. now rewrite app_nil_r. Qed.

Lemma calls_no_view_bind {A B : Type} (m : Rq W A) (k : A -> Rq W B) :
  calls_no_view m -> (forall a, calls_no_view (k a)) -> calls_no_view (bind m k).
Proof.
  intros Hm Hk s. unfold bind. specialize (Hm s).
  destruct (m s) as [[a|e] s1]; cbn in Hm.
  - eapply no_view_called_trans; [exact Hm | apply Hk].
  - exact Hm.
Qed.

Lemma calls_no_view_try {A : Type} (m : Rq W A) (h : exn -> Rq W A) :
  calls_no_view m -> (forall e, calls_no_view (h e)) -> calls_no_view (try_except m h).
Proof.
  intros Hm Hh s. unfold try_except. specialize (Hm s).
  destruct (m s) as [[a|e] s1]; cbn in Hm.
  - exact Hm.
  - eapply no_view_called_trans; [exact Hm | apply Hh].
Qed.

Lemma calls_no_view_ret {A : Type} (a : A) : calls_no_view (ret a : Rq W A).
Proof. intros s. apply no_view_called_refl. Qed.

Lemma calls_no_view_raise {A : Type} e : calls_no_view (raise e : Rq W A).
Proof. intros s. apply no_view_called_refl. Qed.

Lemma calls_no_view_lift {A : Type} (r : result A) :
  calls_no_view (lift_result r : Rq W A).
Proof. intros s. apply no_view_called_refl. Qed.

Lemma calls_no_view_invoke {A : Type} ev (f : appcode W A) :
  is_view_call ev = false -> calls_no_view (invoke ev f).
Proof.
  intros Hev s. unfold invoke. destruct (f (world s)) as [r w].
  exists [ev]. split; [reflexivity|]. cbn. now rewrite Hev.
Qed.

Lemma calls_no_view_check response (callback : callback_ref W) name :
  calls_no_view (check_response response callback name : Rq W unit).
Proof.
  unfold check_response.
  destruct (negb (is_None response || iscoroutine response));
    [apply calls_no_view_ret|].
  destruct (is_None response); [apply calls_no_view_raise|].
  destruct (iscoroutine response);
    [apply calls_no_view_raise | apply calls_no_view_ret].
Qed.

Lemma calls_no_view_render (v : pyval) : calls_no_view (call_render v : Rq W pyval).
Proof.
  destruct v as [| |r]; try apply calls_no_view_raise.
  cbn. destruct (render r); [apply calls_no_view_lift | apply calls_no_view_raise].
Qed.

Lemma calls_no_view_exception_loop hooks exception request :
  calls_no_view (exception_middleware_loop hooks exception request
                 : Rq W pyval).
Proof.
  induction hooks as [|h hooks IH]; [apply calls_no_view_ret|].
  cbn [exception_middleware_loop]. apply calls_no_view_bind.
  - now apply calls_no_view_invoke.
  - intros v. destruct (truthy v); [apply calls_no_view_ret | exact IH].
Qed.

Lemma calls_no_view_except_clause (self : BaseHandler W) request e :
  calls_no_view (except_clause self request e).
Proof.
  apply calls_no_view_bind.
  - apply calls_no_view_exception_loop.
  - intros v. destruct (is_None v);
      [apply calls_no_view_raise | apply calls_no_view_ret].
Qed.

Lemma calls_no_view_view_loop await_ hooks request (m : resolver_match W) response :
  calls_no_view (view_middleware_loop await_ hooks request m response).
Proof.
  destruct m as [[callback callback_args] callback_kwargs].
  revert response. induction hooks as [|h hooks IH]; intros response;
    [apply calls_no_view_ret|].
  cbn [view_middleware_loop]. apply calls_no_view_bind.
  - destruct await_; now apply calls_no_view_invoke.
  - intros v. destruct (truthy v); [apply calls_no_view_ret | apply IH].
Qed.

Lemma calls_no_view_template_loop await_ hooks request response :
  calls_no_view (template_response_middleware_loop await_ hooks request response
                 : Rq W pyval).
Proof.
  revert response. induction hooks as [|h hooks IH]; intros response;
    [apply calls_no_view_ret|].
  cbn [template_response_middleware_loop]. apply calls_no_view_bind.
  - destruct await_; now apply calls_no_view_invoke.
  - intros v. apply calls_no_view_bind; [apply calls_no_view_check|].
    intros _. apply IH.
Qed.

Lemma calls_no_view_after_view (self : BaseHandler W) request callback response :
  calls_no_view (after_view self request callback response)
  /\ calls_no_view (after_view_async self request callback response).
Proof.
  assert (Hrender : forall await_,
    calls_no_view
      (if has_render response then
         response <- template_response_middleware_loop await_
                       (_template_response_middleware self) request response ;;
         try_except (call_render response) (except_clause self request)
       else ret response)).
  { intros await_. destruct (has_render response); [|apply calls_no_view_ret].
    apply calls_no_view_bind; [apply calls_no_view_template_loop|].
    intros v. apply calls_no_view_try; [apply calls_no_view_render|].
    intros e. apply calls_no_view_except_clause. }
  split.
  - apply calls_no_view_bind; [apply calls_no_view_check|].
    intros _. apply Hrender.
  - apply calls_no_view_bind; [apply calls_no_view_check|].
    intros _. apply calls_no_view_bind; [apply Hrender|].
    intros v. destruct (iscoroutine v);
      [apply calls_no_view_raise | apply calls_no_view_ret].
Qed.

Lemma resolve_request_trace request (s : state W) :
  trace (snd (resolve_request conf request s)) = trace s.
Proof.
  unfold resolve_request, bind, set_urlconf, modify, ret, lift_result,
    set_resolver_match.
  destruct (request_urlconf request) as [u|]; cbn; destruct (resolve _ _);
    reflexivity.
Qed.

(** ** The exception classifier *)

Lemma issubclass_suspicious c :
  issubclass c SuspiciousOperation = true ->
  issubclass c Http404 = false /\ issubclass c PermissionDenied = false
  /\ issubclass c MultiPartParserError = false /\ issubclass c BadRequest = false.
Proof.
  induction c; try (intros _; repeat split; reflexivity);
    try (intros H; discriminate H).
  exact IHc.
Qed.

(** The forced rendering at the end of [response_for_exception] leaves the
    state as it is. *)
Lemma forced_render_state (m : Rq W pyval) (s : state W) :
  snd (bind m (fun response =>
                 if negb (getattr_is_rendered response) && has_render response
                 then call_render response
                 else ret response) s)
  = snd (m s).
Proof.
  unfold bind. destruct (m s) as [[v|e] s1]; [|reflexivity].
  destruct (negb (getattr_is_rendered v) && has_render v); [|reflexivity].
  destruct v as [| |r]; try reflexivity.
  cbn. destruct (render r); reflexivity.
Qed.

Lemma forced_render_materialized (m : Rq W pyval) (s : state W) r s1 :
  m s = (Ok (PResp r), s1) ->
  materialized r = true ->
  bind m (fun response =>
            if negb (getattr_is_rendered response) && has_render response
            then call_render response
            else ret response) s
  = (Ok (PResp r), s1).
Proof.
  intros Hm Hr. rewrite (bind_Ok _ _ _ _ _ Hm).
  unfold materialized in Hr. apply negb_true_iff in Hr. now rewrite Hr.
Qed.

(** Neither the uncaught-exception path nor an error handler writes to the
    logs or touches the request's parse flag. *)
Lemma handle_uncaught_exception_frame request resolver e (s : state W) :
  let s' := snd (handle_uncaught_exception conf request resolver e s) in
  logs s' = logs s /\ post_parse_error s' = post_parse_error s
  /\ urlconf s' = urlconf s.
Proof.
  unfold handle_uncaught_exception.
  destruct (DEBUG_PROPAGATE_EXCEPTIONS conf); [cbn; auto|].
  destruct (DEBUG conf); [cbn; auto|].
  unfold bind, lift_result.
  destruct (resolve_error_handler resolver 500) as [callback|e1]; [|cbn; auto].
  unfold invoke. destruct (callback request None (world s)); cbn; auto.
Qed.

Lemma get_exception_response_frame request resolver status exc (s : state W) :
  let s' := snd (get_exception_response conf request resolver status exc s) in
  logs s' = logs s /\ post_parse_error s' = post_parse_error s
  /\ urlconf s' = urlconf s.
Proof.
  unfold get_exception_response, try_except, bind, lift_result.
  destruct (resolve_error_handler resolver status) as [callback|e1].
  - unfold invoke.
    destruct (callback request (Some exc) (world s)) as [[v|e2] w]; [cbn; auto|].
    unfold send_got_request_exception, modify.
    apply (handle_uncaught_exception_frame request resolver e2
             (signalled (after_call (called_error_handler status) w s))).
  - unfold send_got_request_exception, modify.
    apply (handle_uncaught_exception_frame request resolver e1 (signalled s)).
Qed.

Lemma get_exception_response_answer request resolver status exc (s : state W)
    callback v w :
  resolve_error_handler resolver status = Ok callback ->
  callback request (Some exc) (world s) = (Ok v, w) ->
  get_exception_response conf request resolver status exc s
  = (Ok v, after_call (called_error_handler status) w s).
Proof.
  intros Hr Hc.
  unfold get_exception_response, try_except, bind, lift_result, invoke.
  now rewrite Hr, Hc.
Qed.

Lemma get_exception_response_fallback request resolver status exc (s : state W)
    callback e w :
  resolve_error_handler resolver status = Ok callback ->
  callback request (Some exc) (world s) = (Raise e, w) ->
  get_exception_response conf request resolver status exc s
  = handle_uncaught_exception conf request resolver e
      (signalled (after_call (called_error_handler status) w s)).
Proof.
  intros Hr Hc.
  unfold get_exception_response, try_except, bind, lift_result, invoke.
  now rewrite Hr, Hc.
Qed.

Lemma get_exception_response_succeeds request resolver status exc (s : state W) :
  error_handlers_succeed resolver ->
  exists r w,
    get_exception_response conf request resolver status exc s
    = (Ok (PResp r), after_call (called_error_handler status) w s)
    /\ materialized r = true.
Proof.
  intros H. destruct (H status) as (callback & Hr & Hc).
  destruct (Hc request (Some exc) (world s)) as (r & w & Hcall & Hm).
  exists r, w. split; [|exact Hm].
  eapply get_exception_response_answer; eassumption.
Qed.

Lemma handle_uncaught_exception_succeeds request resolver e (s : state W) :
  DEBUG_PROPAGATE_EXCEPTIONS conf = false ->
  error_handlers_succeed resolver ->
  exists r s',
    handle_uncaught_exception conf request resolver e s = (Ok (PResp r), s')
    /\ materialized r = true.
Proof.
  intros Hp H. unfold handle_uncaught_exception. rewrite Hp.
  destruct (DEBUG conf).
  - do 2 eexists. split; reflexivity.
  - destruct (H 500) as (callback & Hr & Hc).
    destruct (Hc request None (world s)) as (r & w & Hcall & Hm).
    exists r. eexists. split; [|exact Hm].
    unfold bind, lift_result, invoke. rewrite Hr, Hcall. reflexivity.
Qed.

Lemma unclassified_tests exc :
  classified exc = false ->
  isinstance exc Http404 = false /\ isinstance exc PermissionDenied = false
  /\ isinstance exc MultiPartParserError = false /\ isinstance exc BadRequest = false
  /\ isinstance exc SuspiciousOperation = false.
Proof.
  unfold classified. intros H.
  repeat (apply orb_false_iff in H; destruct H as [H ?]). auto.
Qed.

(** An exception of no classified kind, with the propagate override: raised
    again. *)
Lemma response_for_exception_propagates request exc (s : state W) :
  classified exc = false ->
  DEBUG_PROPAGATE_EXCEPTIONS conf = true ->
  response_for_exception conf request exc s = (Raise exc, signalled s).
Proof.
  intros Hc Hp. destruct (unclassified_tests _ Hc) as (H1 & H2 & H3 & H4 & H5).
  unfold response_for_exception. rewrite H1, H2, H3, H4, H5.
  unfold handle_uncaught_exception. rewrite Hp. reflexivity.
Qed.

(** With error handlers that answer, every classified exception gets a
    response, and so does every other exception unless the propagate override
    is set. *)
Lemma response_for_exception_answers request exc (s : state W) :
  error_handlers_succeed (get_resolver conf (urlconf s)) ->
  classified exc = true \/ DEBUG_PROPAGATE_EXCEPTIONS conf = false ->
  exists r s', response_for_exception conf request exc s = (Ok (PResp r), s').
Proof.
  intros Hh Hc. unfold response_for_exception.
  match goal with
  | |- exists r s', bind ?m _ s = _ =>
      assert (Hm : exists r s1, m s = (Ok (PResp r), s1) /\ materialized r = true)
  end.
  { destruct (isinstance exc Http404) eqn:H1;
      [|destruct (isinstance exc PermissionDenied) eqn:H2;
        [|destruct (isinstance exc MultiPartParserError) eqn:H3;
          [|destruct (isinstance exc BadRequest) eqn:H4;
            [|destruct (isinstance exc SuspiciousOperation) eqn:H5]]]].
    - destruct (DEBUG conf).
      + do 2 eexists. split; reflexivity.
      + destruct (get_exception_response_succeeds request _ 404 exc s Hh)
          as (r & w & He & Hr).
        exists r. eexists. split; [exact He | exact Hr].
    - destruct (get_exception_response_succeeds request _ 403 exc s Hh)
        as (r & w & He & Hr).
      exists r. eexists. split; [|exact Hr].
      unfold bind, get_urlconf, gets. rewrite He. reflexivity.
    - destruct (get_exception_response_succeeds request _ 400 exc s Hh)
        as (r & w & He & Hr).
      exists r. eexists. split; [|exact Hr].
      unfold bind, get_urlconf, gets. rewrite He. reflexivity.
    - destruct (DEBUG conf).
      + do 2 eexists. split; reflexivity.
      + destruct (get_exception_response_succeeds request _ 400 exc s Hh)
          as (r & w & He & Hr).
        exists r. eexists. split; [|exact Hr].
        unfold bind, get_urlconf, gets. rewrite He. reflexivity.
    - destruct (DEBUG conf).
      + destruct (isinstance_any exc _); do 2 eexists;
          (split; [reflexivity | reflexivity]).
      + destruct (isinstance_any exc _).
        * destruct (get_exception_response_succeeds request
                      (get_resolver conf (urlconf s)) 400 exc
                      (add_log (mkLog ("django.security." ++ class_name (exc_type exc))
                                  "error" (exc_str exc))
                         (marked_post_parse_error s)) Hh)
            as (r & w & He & Hr).
          exists r. eexists. split; [exact He | exact Hr].
        * destruct (get_exception_response_succeeds request
                      (get_resolver conf (urlconf s)) 400 exc
                      (add_log (mkLog ("django.security." ++ class_name (exc_type exc))
                                  "error" (exc_str exc)) s) Hh)
            as (r & w & He & Hr).
          exists r. eexists. split; [exact He | exact Hr].
    - destruct Hc as [Hc | Hp].
      + unfold classified in Hc. rewrite H1, H2, H3, H4, H5 in Hc. discriminate.
      + destruct (handle_uncaught_exception_succeeds request
                    (get_resolver conf (urlconf s)) exc (signalled s) Hp Hh)
          as (r & s' & He & Hr).
        exists r. eexists. split; [|exact Hr].
        unfold bind, get_urlconf, gets, send_got_request_exception, modify.
        cbn [urlconf signalled]. rewrite He. reflexivity. }
  destruct Hm as (r & s1 & Hm & Hr). exists r, s1.
  now apply forced_render_materialized.
Qed.

Lemma convert_exception_to_response_eq is_coroutine
    (get_response : request -> Rq W pyval) request (s : state W) :
  convert_exception_to_response conf is_coroutine get_response request s
  = try_except (get_response request) (response_for_exception conf request) s.
Proof. destruct is_coroutine; reflexivity. Qed.

(** The outermost callable of a loaded chain is a
    [convert_exception_to_response] wrapper. *)
Lemma call_adapted_converted self is_async c a request (s : state W) :
  call_chain conf self (adapted is_async (Converted c) a) request s
  = try_except (call_chain conf self c request)
      (response_for_exception conf request) s.
Proof.
  rewrite <- (convert_exception_to_response_eq (chain_is_coroutine c)).
  destruct is_async, a; reflexivity.
Qed.

(** The entry points, from what the chain hands back. *)
Lemma get_response_of_chain self request (s : state W) :
  let chain_out :=
    call_middleware_chain conf self request
      (with_urlconf (Some (ROOT_URLCONF conf)) s) in
  let finish :=
    match chain_out with
    | (Ok (PResp r), s1) =>
        let r' := append_closer r (request_close request) in
        (Ok (PResp r'),
         if 400 <=? status_code r
         then add_log (mkLog "django.request" (level_for_status (status_code r))
                         (reason_phrase r ++ ": " ++ path request)) s1
         else s1)
    | (Ok v, s1) =>
        (Raise (mkExn AttributeError
                  ("'" ++ type_name v
                   ++ "' object has no attribute '_resource_closers'")), s1)
    | (Raise e, s1) => (Raise e, s1)
    end in
  get_response conf self request s = finish
  /\ get_response_async conf self request s = finish.
Proof.
  cbv zeta. split.
  - unfold get_response. unfold bind, set_urlconf, modify.
    destruct (call_middleware_chain conf self request _) as [[[| |r]|e] s1];
      try reflexivity.
    unfold attr_of, ret, log_response, emit, modify, bind. cbn.
    destruct (400 <=? status_code r); reflexivity.
  - unfold get_response_async, await, sync_to_async.
    unfold bind, set_urlconf, modify.
    destruct (call_middleware_chain conf self request _) as [[[| |r]|e] s1];
      try reflexivity.
    unfold attr_of, ret, log_response, emit, modify, bind. cbn.
    destruct (400 <=? status_code r); reflexivity.
Qed.

(** C1 (as amended).  An exception raised under a
    [convert_exception_to_response] wrapper never passes the wrapper as it
    is: [response_for_exception] decides.  With error handlers that answer,
    an exception of a classified kind becomes a response whether or not the
    propagate override is set, and any other exception becomes one when the
    override is off; an exception of no classified kind is raised again when
    the override is on.  The chain that [load_middleware] leaves on [self] is
    such a wrapper, adapted to the pipeline's mode, around a callable [c]: so
    this is what the caller of [get_response] and [get_response_async] gets
    for an exception that [c], the whole of the stages and the dispatch
    engine, raises. *)
Theorem application_exception_contained is_async (b b' : build W) :
  load_middleware conf is_async b = (Ok tt, b') ->
  (forall is_coroutine (get_response : request -> Rq W pyval) request s exc s1,
      get_response request s = (Raise exc, s1) ->
      let wrapped :=
        convert_exception_to_response conf is_coroutine get_response request s in
      wrapped = response_for_exception conf request exc s1
      /\ (classified exc = false -> DEBUG_PROPAGATE_EXCEPTIONS conf = true ->
          wrapped = (Raise exc, signalled s1))
      /\ (error_handlers_succeed (get_resolver conf (urlconf s1)) ->
          classified exc = true \/ DEBUG_PROPAGATE_EXCEPTIONS conf = false ->
          exists r s', wrapped = (Ok (PResp r), s')))
  /\ exists c a,
       _middleware_chain (self b') = Some (adapted is_async (Converted c) a)
       /\ forall request s exc s1,
            call_chain conf (self b') c request
              (with_urlconf (Some (ROOT_URLCONF conf)) s) = (Raise exc, s1) ->
            (classified exc = false -> DEBUG_PROPAGATE_EXCEPTIONS conf = true ->
             get_response conf (self b') request s = (Raise exc, signalled s1)
             /\ get_response_async conf (self b') request s
                = (Raise exc, signalled s1))
            /\ (error_handlers_succeed (get_resolver conf (urlconf s1)) ->
                classified exc = true \/ DEBUG_PROPAGATE_EXCEPTIONS conf = false ->
                exists r s',
                  get_response conf (self b') request s = (Ok (PResp r), s')
                  /\ get_response_async conf (self b') request s
                     = (Ok (PResp r), s')
                  /\ In (request_close request) (_resource_closers r)).
Proof.
  intros Hl. split.
  - intros is_coroutine get_response request s exc s1 Hg wrapped.
    assert (Hw : wrapped = response_for_exception conf request exc s1).
    { unfold wrapped. rewrite convert_exception_to_response_eq.
      now apply try_Raise. }
    split; [exact Hw|]. rewrite Hw. split.
    + now apply response_for_exception_propagates.
    + now apply response_for_exception_answers.
  - destruct (load_middleware_done _ _ _ Hl) as (_ & _ & _ & c & a & Hc).
    exists c, a. split; [exact Hc|]. intros request s exc s1 Hg.
    assert (Hchain :
      call_middleware_chain conf (self b') request
        (with_urlconf (Some (ROOT_URLCONF conf)) s)
      = response_for_exception conf request exc s1).
    { unfold call_middleware_chain. rewrite Hc, call_adapted_converted.
      now apply try_Raise. }
    destruct (get_response_of_chain (self b') request s) as [Hs Ha].
    rewrite Hchain in Hs, Ha. split.
    + intros Hu Hp.
      rewrite (response_for_exception_propagates _ _ _ Hu Hp) in Hs, Ha. auto.
    + intros Hh Hk.
      destruct (response_for_exception_answers request exc s1 Hh Hk)
        as (r & s' & Hr).
      rewrite Hr in Hs, Ha.
      do 2 eexists. split; [exact Hs|]. split; [exact Ha|].
      cbn. apply in_or_app. right. now left.
Qed.

(** C3 (as amended).  A view that hands back [None] or a coroutine that was
    not awaited fails validation: dispatch raises a [ValueError] that names
    the view.  The wrapper around the dispatch engine treats it as any
    exception of no classified kind: it is raised again only with the
    propagate override, and is otherwise turned into the response of the
    uncaught-exception path, a page of status 500 in debug mode. *)
Theorem invalid_view_result_is_uncaught
    self request (s : state W) m s2 wrapped_callback v s3 :
  reaches_view conf self request s m s2 ->
  make_view_atomic conf (fst (fst m)) = Ok wrapped_callback ->
  call_view wrapped_callback request m s2 = (Ok v, s3) ->
  v = PNone \/ v = PCoroutine ->
  let callback := fst (fst m) in
  let name :=
    if view_is_function callback
    then "The view " ++ view_module callback ++ "." ++ view_name callback
    else "The view " ++ view_module callback ++ "." ++ view_name callback
         ++ ".__call__" in
  let fault :=
    mkExn ValueError
      (name ++
       (if is_None v
        then " didn't return an HttpResponse object. It returned None instead."
        else " didn't return an HttpResponse object. It returned an unawaited coroutine instead. You may need to add an 'await' into your view.")) in
  _get_response conf self request s = (Raise fault, s3)
  /\ _get_response_async conf self request s = (Raise fault, s3)
  /\ forall is_async,
       let wrapped :=
         call_chain conf self (Converted (GetResponse is_async)) request s in
       (DEBUG_PROPAGATE_EXCEPTIONS conf = true ->
        wrapped = (Raise fault, signalled s3))
       /\ (DEBUG_PROPAGATE_EXCEPTIONS conf = false ->
           error_handlers_succeed (get_resolver conf (urlconf s3)) ->
           exists r s', wrapped = (Ok (PResp r), s'))
       /\ (DEBUG_PROPAGATE_EXCEPTIONS conf = false -> DEBUG conf = true ->
           exists r s', wrapped = (Ok (PResp r), s') /\ status_code r = 500).
Proof.
  intros Hreach Hat Hcall Hv callback name fault.
  pose proof (dispatch_at_view _ _ _ _ _ Hreach) as Hd. rewrite Hat in Hd.
  destruct Hd as [Hs Ha].
  pose proof (try_Ok _ (except_clause self request) _ _ _ Hcall) as Htry.
  assert (Hcheck : forall S (st : S),
    check_response v (the_view callback) None st = (Raise fault, st)).
  { intros S st. unfold fault, name.
    destruct Hv as [-> | ->]; unfold check_response; cbn;
      destruct (view_is_function callback); reflexivity. }
  assert (Hsync : _get_response conf self request s = (Raise fault, s3)).
  { rewrite Hs, (bind_Ok _ _ _ _ _ Htry). unfold after_view.
    now rewrite (bind_Raise _ _ _ _ _ (Hcheck _ s3)). }
  assert (Hasync : _get_response_async conf self request s = (Raise fault, s3)).
  { rewrite Ha, (bind_Ok _ _ _ _ _ Htry). unfold after_view_async.
    now rewrite (bind_Raise _ _ _ _ _ (Hcheck _ s3)). }
  split; [exact Hsync|]. split; [exact Hasync|].
  intros is_async wrapped.
  assert (Hw : wrapped = response_for_exception conf request fault s3).
  { unfold wrapped. cbn [call_chain].
    rewrite convert_exception_to_response_eq.
    apply try_Raise. destruct is_async; assumption. }
  rewrite Hw. split; [|split].
  - intros Hp. now apply response_for_exception_propagates.
  - intros Hp Hh. apply response_for_exception_answers; auto.
  - intros Hp Hdebug. unfold response_for_exception.
    change (isinstance fault Http404) with false.
    change (isinstance fault PermissionDenied) with false.
    change (isinstance fault MultiPartParserError) with false.
    change (isinstance fault BadRequest) with false.
    change (isinstance fault SuspiciousOperation) with false.
    cbv iota. unfold handle_uncaught_exception. rewrite Hp, Hdebug.
    do 2 eexists. split; reflexivity.
Qed.

(** C6 (as amended).  A coroutine view and a database alias with
    [ATOMIC_REQUESTS] that the view does not exclude: [make_view_atomic]
    raises instead of wrapping, and in a dispatch that resolves to the view,
    the view is never called, wrapped or not.  The check is made where the
    view is about to be called.  When every pre-invocation hook has handed
    back [None], dispatch raises that error, in both modes, and the wrapper
    around the dispatch engine treats it as any exception of no classified
    kind: it is raised again only with the propagate override, and is
    otherwise turned into the response of the uncaught-exception path, a
    page of status 500 in debug mode.  When a pre-invocation hook answers,
    there is no fault: dispatch goes on with the hook's response. *)
Theorem atomic_requests_refuse_coroutine_view view alias settings_dict :
  view_is_coroutine view = true ->
  In (alias, settings_dict) (DATABASES conf) ->
  ATOMIC_REQUESTS settings_dict = true ->
  mem alias (getattr (_non_atomic_requests view) []) = false ->
  let fault :=
    mkExn RuntimeError "You cannot use ATOMIC_REQUESTS with async views." in
  make_view_atomic conf view = Raise fault
  /\ forall self request (s : state W) callback_args callback_kwargs s1,
       resolve_request conf request s
       = (Ok (view, callback_args, callback_kwargs), s1) ->
       let m := (view, callback_args, callback_kwargs) in
       no_view_called s (snd (_get_response conf self request s))
       /\ no_view_called s (snd (_get_response_async conf self request s))
       /\ (forall s2,
             (forall await_,
                 view_middleware_loop await_ (_view_middleware self) request m
                   PNone s1
                 = (Ok PNone, s2)) ->
             _get_response conf self request s = (Raise fault, s2)
             /\ _get_response_async conf self request s = (Raise fault, s2)
             /\ forall is_async,
                  let wrapped :=
                    call_chain conf self (Converted (GetResponse is_async))
                      request s in
                  (DEBUG_PROPAGATE_EXCEPTIONS conf = true ->
                   wrapped = (Raise fault, signalled s2))
                  /\ (DEBUG_PROPAGATE_EXCEPTIONS conf = false ->
                      error_handlers_succeed (get_resolver conf (urlconf s2)) ->
                      exists r s', wrapped = (Ok (PResp r), s'))
                  /\ (DEBUG_PROPAGATE_EXCEPTIONS conf = false ->
                      DEBUG conf = true ->
                      exists r s',
                        wrapped = (Ok (PResp r), s') /\ status_code r = 500))
       /\ (forall v s2,
             (forall await_,
                 view_middleware_loop await_ (_view_middleware self) request m
                   PNone s1
                 = (Ok v, s2)) ->
             is_None v = false ->
             _get_response conf self request s
             = after_view self request view v s2
             /\ _get_response_async conf self request s
                = after_view_async self request view v s2
             /\ (forall r, v = PResp r -> has_render v = false ->
                 _get_response conf self request s = (Ok v, s2)
                 /\ _get_response_async conf self request s = (Ok v, s2))).
Proof.
  intros Hco Hin Hat Hex fault.
  assert (Hraise : make_view_atomic conf view = Raise fault).
  { unfold make_view_atomic. revert Hin.
    induction (DATABASES conf) as [|[a sd] items IH]; [intros []|].
    intros [Heq | Hin]; cbn [make_view_atomic_loop].
    - injection Heq as -> ->. now rewrite Hat, Hex, Hco.
    - destruct (ATOMIC_REQUESTS sd && negb (mem a _)).
      + now rewrite Hco.
      + now apply IH. }
  split; [exact Hraise|].
  intros self request s callback_args callback_kwargs s1 Hr m.
  assert (Hs1 : no_view_called s s1).
  { apply same_trace. rewrite <- (resolve_request_trace request s). now rewrite Hr. }
  assert (Hview : forall (handler : exn -> Rq W pyval) (call : View W -> Rq W pyval)
                         response,
    calls_no_view
      (if is_None response then
         wrapped_callback <- lift_result (make_view_atomic conf view) ;;
         try_except (call wrapped_callback) handler
       else ret response)).
  { intros handler call response. rewrite Hraise.
    destruct (is_None response); [|apply calls_no_view_ret].
    intros st. apply no_view_called_refl. }
  split; [|split; [|split]].
  - unfold _get_response. rewrite (bind_Ok _ _ _ _ _ Hr).
    eapply no_view_called_trans; [exact Hs1|].
    apply calls_no_view_bind; [apply calls_no_view_view_loop|].
    intros v. apply calls_no_view_bind.
    + apply (Hview _ (fun wrapped_callback =>
                if view_is_coroutine wrapped_callback
                then async_to_sync
                       (call_view wrapped_callback request
                          (view, callback_args, callback_kwargs))
                else call_view wrapped_callback request
                       (view, callback_args, callback_kwargs))).
    + intros v'. apply (calls_no_view_after_view self request view v').
  - unfold _get_response_async. rewrite (bind_Ok _ _ _ _ _ Hr).
    eapply no_view_called_trans; [exact Hs1|].
    apply calls_no_view_bind; [apply calls_no_view_view_loop|].
    intros v. apply calls_no_view_bind.
    + apply (Hview _ (fun wrapped_callback =>
                await
                  (if negb (view_is_coroutine wrapped_callback)
                   then sync_to_async true
                          (call_view wrapped_callback request
                             (view, callback_args, callback_kwargs))
                   else call_view wrapped_callback request
                          (view, callback_args, callback_kwargs)))).
    + intros v'. apply (calls_no_view_after_view self request view v').
  - intros s2 Hloop.
    assert (Hengine :
      _get_response conf self request s = (Raise fault, s2)
      /\ _get_response_async conf self request s = (Raise fault, s2)).
    { unfold _get_response, _get_response_async.
      rewrite !(bind_Ok _ _ _ _ _ Hr), !(bind_Ok _ _ _ _ _ (Hloop _)).
      cbn [is_None]. rewrite Hraise. split; reflexivity. }
    destruct Hengine as [Hsync Hasync].
    split; [exact Hsync|]. split; [exact Hasync|].
    intros is_async wrapped.
    assert (Hw : wrapped = response_for_exception conf request fault s2).
    { unfold wrapped. cbn [call_chain].
      rewrite convert_exception_to_response_eq.
      apply try_Raise. destruct is_async; assumption. }
    rewrite Hw. split; [|split].
    + intros Hp. now apply response_for_exception_propagates.
    + intros Hp Hh. apply response_for_exception_answers; auto.
    + intros Hp Hdebug. unfold response_for_exception.
      change (isinstance fault Http404) with false.
      change (isinstance fault PermissionDenied) with false.
      change (isinstance fault MultiPartParserError) with false.
      change (isinstance fault BadRequest) with false.
      change (isinstance fault SuspiciousOperation) with false.
      cbv iota. unfold handle_uncaught_exception. rewrite Hp, Hdebug.
      do 2 eexists. split; reflexivity.
  - intros v s2 Hloop Hn.
    destruct (dispatch_after_hook _ _ _ m _ _ _ Hr Hloop Hn) as [Hs Ha].
    split; [exact Hs|]. split; [exact Ha|].
    intros r -> Hrender. cbn [fst] in Hs, Ha. rewrite Hs, Ha.
    unfold after_view, after_view_async.
    rewrite !(bind_Ok _ _ s2 tt s2) by reflexivity.
    rewrite Hrender. split; reflexivity.
Qed.

(** C7 (as amended).  For a [SuspiciousOperation] of a body, field or file
    limit kind, [response_for_exception] marks the request's parsed body
    unusable and writes one line, and no other, to the security logger named
    after the exception's class, whatever happens next.  The answer has
    status 400 in debug mode (the diagnostic page) and when the resolved 400
    error handler answers with a rendered response of that status; when that
    handler raises, the uncaught-exception path takes over: its exception is
    raised again with the propagate override. *)
Theorem limit_violation_classified request exc (s : state W) :
  isinstance exc SuspiciousOperation = true ->
  isinstance_any exc [RequestDataTooBig; TooManyFieldsSent; TooManyFilesSent] = true ->
  let line :=
    mkLog ("django.security." ++ class_name (exc_type exc)) "error" (exc_str exc) in
  let out := response_for_exception conf request exc s in
  logs (snd out) = (logs s ++ [line])%list
  /\ post_parse_error (snd out) = true
  /\ (DEBUG conf = true ->
      fst out = Ok (technical_500_response request exc 400))
  /\ (DEBUG conf = false ->
      forall callback w,
        resolve_error_handler (get_resolver conf (urlconf s)) 400 = Ok callback ->
        (forall r,
            callback request (Some exc) (world s) = (Ok (PResp r), w) ->
            materialized r = true ->
            fst out = Ok (PResp r))
        /\ (forall e,
               callback request (Some exc) (world s) = (Raise e, w) ->
               DEBUG_PROPAGATE_EXCEPTIONS conf = true ->
               fst out = Raise e)).
Proof.
  intros Hso Hlimit line out.
  destruct (issubclass_suspicious _ Hso) as (H1 & H2 & H3 & H4).
  set (s1 := add_log line (marked_post_parse_error s)).
  assert (Hout : out
    = bind (if DEBUG conf then ret (technical_500_response request exc 400)
            else get_exception_response conf request
                   (get_resolver conf (urlconf s)) 400 exc)
        (fun response =>
           if negb (getattr_is_rendered response) && has_render response
           then call_render response
           else ret response) s1).
  { unfold out, response_for_exception.
    fold (isinstance exc Http404) in H1. fold (isinstance exc PermissionDenied) in H2.
    fold (isinstance exc MultiPartParserError) in H3.
    fold (isinstance exc BadRequest) in H4.
    rewrite H1, H2, H3, H4, Hso, Hlimit.
    destruct (DEBUG conf); reflexivity. }
  split; [|split; [|split]].
  - rewrite Hout, forced_render_state.
    destruct (DEBUG conf); [reflexivity|].
    now destruct (get_exception_response_frame request
                    (get_resolver conf (urlconf s)) 400 exc s1) as (-> & _).
  - rewrite Hout, forced_render_state.
    destruct (DEBUG conf); [reflexivity|].
    now destruct (get_exception_response_frame request
                    (get_resolver conf (urlconf s)) 400 exc s1) as (_ & -> & _).
  - intros Hd. rewrite Hout, Hd. reflexivity.
  - intros Hd callback w Hr. rewrite Hout, Hd. split.
    + intros r Hc Hm.
      erewrite forced_render_materialized; [reflexivity| |exact Hm].
      eapply get_exception_response_answer; [exact Hr | exact Hc].
    + intros e Hc Hp.
      erewrite bind_Raise; [reflexivity|].
      erewrite get_exception_response_fallback; [|exact Hr | exact Hc].
      unfold handle_uncaught_exception. rewrite Hp. reflexivity.
Qed.

(** C9.  Whenever the chain hands back a response, both entry points
    return it with the request's close callback appended to its resource
    closers, and nothing else changed on it.  When its status is at least
    400 they call [log_response] with the message [<reason phrase>: <path>],
    which writes that line to the request logger; below 400 they leave the
    state as the chain left it, so nothing is logged.  An entry point returns
    in no other way: what it returns is the chain's response with the closer
    appended. *)
Theorem entry_point_closer_and_log self request (s : state W) :
  (forall r s1,
      call_middleware_chain conf self request
        (with_urlconf (Some (ROOT_URLCONF conf)) s) = (Ok (PResp r), s1) ->
      let r' := append_closer r (request_close request) in
      exists s',
        get_response conf self request s = (Ok (PResp r'), s')
        /\ get_response_async conf self request s = (Ok (PResp r'), s')
        /\ _resource_closers r'
           = (_resource_closers r ++ [request_close request])%list
        /\ status_code r' = status_code r
        /\ reason_phrase r' = reason_phrase r
        /\ (400 <= status_code r ->
            s' = snd (log_response (reason_phrase r ++ ": " ++ path request)
                        (PResp r') s1)
            /\ logs s'
               = (logs s1
                  ++ [mkLog "django.request" (level_for_status (status_code r))
                        (reason_phrase r ++ ": " ++ path request)])%list)
        /\ (status_code r < 400 -> s' = s1))
  /\ (forall v s',
        get_response conf self request s = (Ok v, s')
        \/ get_response_async conf self request s = (Ok v, s') ->
        exists r s1,
          call_middleware_chain conf self request
            (with_urlconf (Some (ROOT_URLCONF conf)) s) = (Ok (PResp r), s1)
          /\ v = PResp (append_closer r (request_close request))).
Proof.
  destruct (get_response_of_chain self request s) as [Hs Ha]. split.
  - intros r s1 Hchain r'. rewrite Hchain in Hs, Ha. cbv zeta in Hs, Ha.
    eexists. split; [exact Hs|]. split; [exact Ha|].
    split; [reflexivity|]. split; [reflexivity|]. split; [reflexivity|]. split.
    + intros Hge. apply Z.leb_le in Hge. rewrite Hge. split; reflexivity.
    + intros Hlt. apply Z.leb_gt in Hlt. now rewrite Hlt.
  - intros v s' H.
    destruct (call_middleware_chain conf self request _) as [[[| |r]|e] s1];
      try (destruct H as [H | H]; [rewrite Hs in H | rewrite Ha in H];
           discriminate).
    exists r, s1. split; [reflexivity|].
    cbv zeta in Hs, Ha.
    destruct H as [H | H]; [rewrite Hs in H | rewrite Ha in H];
      now injection H as <- _.
Qed.

End Properties.

(** * The properties on the sample configurations *)

Lemma default_handlers_succeed v :
  error_handlers_succeed (sample_resolver v default_handlers).
Proof.
  intros status. eexists. split; [reflexivity|].
  intros request exc w. do 2 eexists. split; reflexivity.
Qed.

(** C1, the claim as stated fails: with the propagate override set, a view
    raises [Http404] and the caller of either entry point gets the 404
    response, not the exception. *)
Lemma propagate_override_keeps_404_response :
  DEBUG_PROPAGATE_EXCEPTIONS conf_propagate_404 = true
  /\ fst (_get_response conf_propagate_404 (loaded conf_propagate_404 false)
            sample_request (with_urlconf (Some "project.urls") initial_state))
     = Raise not_found
  /\ fst (get_response conf_propagate_404 (loaded conf_propagate_404 false)
            sample_request initial_state)
     = Ok (PResp (append_closer (plain_response 404) (request_close sample_request)))
  /\ fst (get_response_async conf_propagate_404 (loaded conf_propagate_404 true)
            sample_request initial_state)
     = Ok (PResp (append_closer (plain_response 404) (request_close sample_request))).
Proof. repeat split; vm_compute; reflexivity. Qed.

(** C1 on sample applications.  A view raises an exception of its own: the
    wrapper around the dispatch engine answers it.  A view raises [Http404]
    in an application without stages: the loaded chain is the wrapper around
    the engine, the engine raises the exception, and the caller of either
    entry point gets a response with the request's closer on it. *)
Lemma application_exception_contained_witness :
  (exists r s',
      convert_exception_to_response conf_view_fails false
        (_get_response conf_view_fails (loaded conf_view_fails false))
        sample_request initial_state = (Ok (PResp r), s'))
  /\ exists c a,
       _middleware_chain (loaded conf_propagate_404 false)
       = Some (adapted false (Converted c) a)
       /\ fst (call_chain conf_propagate_404 (loaded conf_propagate_404 false) c
                 sample_request
                 (with_urlconf (Some (ROOT_URLCONF conf_propagate_404))
                    initial_state))
          = Raise not_found
       /\ exists r s',
            get_response conf_propagate_404 (loaded conf_propagate_404 false)
              sample_request initial_state = (Ok (PResp r), s')
            /\ get_response_async conf_propagate_404
                 (loaded conf_propagate_404 false) sample_request initial_state
               = (Ok (PResp r), s')
            /\ In (request_close sample_request) (_resource_closers r).
Proof.
  split.
  - destruct (application_exception_contained conf_view_fails false fresh
                (snd (load_middleware conf_view_fails false fresh)) eq_refl)
      as [Hlayer _].
    edestruct (Hlayer false
                 (_get_response conf_view_fails (loaded conf_view_fails false))
                 sample_request initial_state key_error) as (_ & _ & H).
    + vm_compute. reflexivity.
    + apply H.
      * apply default_handlers_succeed.
      * right; reflexivity.
  - destruct (application_exception_contained conf_propagate_404 false fresh
                (snd (load_middleware conf_propagate_404 false fresh)) eq_refl)
      as [_ (c & a & Hc & Htop)].
    exists c, a. split; [exact Hc|].
    assert (Hraise :
      exists s1,
        call_chain conf_propagate_404 (loaded conf_propagate_404 false) c
          sample_request
          (with_urlconf (Some (ROOT_URLCONF conf_propagate_404)) initial_state)
        = (Raise not_found, s1)).
    { pose proof Hc as E. cbv in E. destruct a; [discriminate|].
      injection E as <-. eexists. vm_compute. reflexivity. }
    destruct Hraise as [s1 Hraise]. split; [rewrite Hraise; reflexivity|].
    apply (Htop sample_request initial_state not_found s1 Hraise).
    + destruct (urlconf s1); apply default_handlers_succeed.
    + left; reflexivity.
Defined.

(** C2, the claim as stated fails: of two stages with post-render hooks, the
    hook of the stage configured last is called first. *)
Lemma post_render_hooks_not_in_configuration_order :
  MIDDLEWARE conf_template_hooks = ["A"; "B"]
  /\ trace (snd (_get_response conf_template_hooks (loaded conf_template_hooks false)
                   sample_request initial_state))
     = [called_view "index"; called_process_template_response "B";
        called_process_template_response "A"]
  /\ trace (snd (_get_response_async conf_template_hooks
                   (loaded conf_template_hooks true) sample_request initial_state))
     = [called_view "index"; called_process_template_response "B";
        called_process_template_response "A"]
  /\ trace (snd (_get_response conf_template_hooks (loaded conf_template_hooks false)
                   sample_request initial_state))
     <> [called_view "index"; called_process_template_response "A";
         called_process_template_response "B"].
Proof. repeat split; try (vm_compute; reflexivity). vm_compute. discriminate. Qed.

(** C2 on a sample application: two stages with post-render hooks and a view
    that answers with a template response. *)
Lemma post_render_hooks_last_configured_first_witness :
  _template_response_middleware (loaded conf_template_hooks false)
  = [echo_template_hook "B"; echo_template_hook "A"]
  /\ exists s4,
       _get_response conf_template_hooks (loaded conf_template_hooks false)
         sample_request initial_state
       = try_except (call_render (PResp page))
           (except_clause (loaded conf_template_hooks false) sample_request) s4
       /\ trace s4
          = [called_view "index"; called_process_template_response "B";
             called_process_template_response "A"].
Proof.
  destruct (post_render_hooks_last_configured_first conf_template_hooks false fresh
              (snd (load_middleware conf_template_hooks false fresh)) eq_refl)
    as [Hstored Hrun].
  split; [reflexivity|].
  eexists.
  edestruct (Hrun sample_request initial_state
               (sample_view "index" false (returns (PResp page)), [], [])) as (H1 & _ & H3).
  - eexists. split; [reflexivity|]. constructor.
  - reflexivity.
  - reflexivity.
  - reflexivity.
  - eapply piped_cons; [reflexivity|].
    eapply piped_cons; [reflexivity|]. apply piped_nil.
  - split; [exact H1|]. rewrite H3. reflexivity.
Defined.

(** C3, the claim as stated fails: a view hands back [None], and the caller
    of the entry point gets a response of status 500, not the fault. *)
Lemma invalid_view_result_becomes_500 :
  view_call view_None sample_request [] [] tt = (Ok PNone, tt)
  /\ DEBUG_PROPAGATE_EXCEPTIONS conf_view_None = false
  /\ fst (get_response conf_view_None (loaded conf_view_None false)
            sample_request initial_state)
     = Ok (PResp (append_closer (plain_response 500) (request_close sample_request)))
  /\ fst (get_response_async conf_view_None (loaded conf_view_None true)
            sample_request initial_state)
     = Ok (PResp (append_closer (plain_response 500) (request_close sample_request))).
Proof. repeat split; vm_compute; reflexivity. Qed.

(** C3 on a sample application: a view that hands back [None]. *)
Lemma invalid_view_result_is_uncaught_witness :
  fst (_get_response conf_view_None (loaded conf_view_None false)
         sample_request initial_state)
  = Raise (mkExn ValueError
             "The view app.views.broken didn't return an HttpResponse object. It returned None instead.")
  /\ exists r s',
       call_chain conf_view_None (loaded conf_view_None false)
         (Converted (GetResponse false)) sample_request initial_state
       = (Ok (PResp r), s').
Proof.
  edestruct (invalid_view_result_is_uncaught conf_view_None
               (loaded conf_view_None false) sample_request initial_state
               (view_None, [], []) ) as (Hs & _ & Hw).
  - eexists. split; [reflexivity|]. constructor.
  - reflexivity.
  - reflexivity.
  - left; reflexivity.
  - split.
    + rewrite Hs. reflexivity.
    + destruct (Hw false) as (_ & H & _). apply H.
      * reflexivity.
      * apply default_handlers_succeed.
Defined.

(** C4, the claim as stated fails: the pipeline is blocking and stage A
    declares sync capability, but the handler it wraps, stage B's, is
    cooperative, so A is run in cooperative mode: it is built around B's
    handler as it is, and the top of the chain is what gets adapted. *)
Lemma sync_capable_stage_run_cooperatively :
  MIDDLEWARE conf_mixed_modes = ["A"; "B"]
  /\ import_string conf_mixed_modes "A" = Ok stage_both
  /\ getattr (sync_capable stage_both) true = true
  /\ (exists handler b1,
        load_middleware_loop conf_mixed_modes false ["B"]
          (Converted (GetResponse false)) false fresh
        = (Ok (handler, true), b1))
  /\ stage_mode true (getattr (sync_capable stage_both) true)
       (getattr (async_capable stage_both) false) = true
  /\ _middleware_chain (loaded conf_mixed_modes false)
     = Some (AsyncToSync
               (Converted
                  (MwInstance "A" (sample_stage None None None)
                     (Converted
                        (MwInstance "B" (sample_stage None None None)
                           (SyncToAsync (Converted (GetResponse false)))))))).
Proof.
  split; [reflexivity|]. split; [reflexivity|]. split; [reflexivity|].
  split; [do 2 eexists; vm_compute; reflexivity|].
  split; reflexivity.
Qed.

(** C4 on a sample configuration: a stage with both capabilities before a
    stage with async capability only, in a blocking pipeline. *)
Lemma stage_mode_follows_wrapped_handler_witness :
  stage_mode true (getattr (sync_capable stage_both) true)
    (getattr (async_capable stage_both) false)
  = getattr (async_capable stage_both) false
  /\ stage_mode false (getattr (sync_capable stage_async_only) true)
       (getattr (async_capable stage_async_only) false)
     = getattr (async_capable stage_async_only) false.
Proof.
  split.
  - edestruct (stage_mode_follows_wrapped_handler conf_mixed_modes false
                 [] "A" ["B"] stage_both (sample_stage None None None) fresh)
      as (_ & H & _).
    + reflexivity.
    + vm_compute. reflexivity.
    + reflexivity.
    + reflexivity.
    + reflexivity.
    + apply H. left; reflexivity.
  - edestruct (stage_mode_follows_wrapped_handler conf_mixed_modes false
                 ["A"] "B" [] stage_async_only (sample_stage None None None) fresh)
      as (_ & H & _).
    + reflexivity.
    + vm_compute. reflexivity.
    + reflexivity.
    + reflexivity.
    + reflexivity.
    + apply H. right; reflexivity.
Defined.

(** C5, the claim as stated fails: the pre-invocation hook of stage A
    answers with a template response of status 200; the view is not called,
    but the result of dispatch is the response the post-render hook of stage
    B put in its place, rendered, of status 503. *)
Lemma view_hook_answer_is_not_the_result :
  hook_call (answering_view_hook "A" page) (sample_request, view_200, [], []) tt
  = (Ok (PResp page), tt)
  /\ _get_response conf_view_hook_answers (loaded conf_view_hook_answers false)
       sample_request initial_state
     = (Ok (PResp (plain_response 503)),
        after_call (called_process_template_response "B") tt
          (after_call (called_process_view "A") tt
             (with_resolver_match (view_200, [], []) initial_state)))
  /\ PResp (plain_response 503) <> PResp page.
Proof.
  split; [reflexivity|]. split; [vm_compute; reflexivity|]. discriminate.
Qed.

(** C5 on a sample application: the pre-invocation hook of the first stage
    answers with a plain response. *)
Lemma view_hook_answer_short_circuits_witness :
  _view_middleware (loaded conf_view_hook_plain false)
  = [answering_view_hook "A" (plain_response 200);
     answering_view_hook "B" (plain_response 403)]
  /\ exists s3,
       _get_response conf_view_hook_plain (loaded conf_view_hook_plain false)
         sample_request initial_state
       = (Ok (PResp (plain_response 200)), s3)
       /\ trace s3 = [called_process_view "A"].
Proof.
  destruct (view_hook_answer_short_circuits conf_view_hook_plain false fresh
              (snd (load_middleware conf_view_hook_plain false fresh)) eq_refl)
    as [Hstored Hrun].
  split; [reflexivity|].
  eexists.
  edestruct (Hrun sample_request initial_state (view_200, [], [])
               (with_resolver_match (view_200, [], []) initial_state)
               [] (answering_view_hook "A" (plain_response 200))
               [answering_view_hook "B" (plain_response 403)])
    as (_ & _ & H3 & H4).
  - reflexivity.
  - reflexivity.
  - constructor.
  - reflexivity.
  - reflexivity.
  - split.
    + apply (H4 (plain_response 200)); reflexivity.
    + rewrite H3. reflexivity.
Defined.

(** C6, the claim as stated fails: with a coroutine view and a database with
    [ATOMIC_REQUESTS], the caller of either entry point gets the page of
    status 500, and behind a stage whose pre-invocation hook answers,
    dispatch hands back the hook's response. *)
Lemma coroutine_view_with_atomic_requests_is_answered :
  view_is_coroutine view_async = true
  /\ _non_atomic_requests view_async = None
  /\ DATABASES conf_atomic = [("default", mkSettingsDict true)]
  /\ fst (get_response conf_atomic (loaded conf_atomic false)
            sample_request initial_state)
     = Ok (PResp (append_closer (plain_response 500) (request_close sample_request)))
  /\ fst (get_response_async conf_atomic (loaded conf_atomic true)
            sample_request initial_state)
     = Ok (PResp (append_closer (plain_response 500) (request_close sample_request)))
  /\ DATABASES conf_atomic_behind_hook = [("default", mkSettingsDict true)]
  /\ fst (_get_response conf_atomic_behind_hook
            (loaded conf_atomic_behind_hook false) sample_request initial_state)
     = Ok (PResp (plain_response 200))
  /\ fst (_get_response_async conf_atomic_behind_hook
            (loaded conf_atomic_behind_hook true) sample_request initial_state)
     = Ok (PResp (plain_response 200)).
Proof. repeat split; vm_compute; reflexivity. Qed.

(** C6 on the sample applications: a coroutine view and a database with
    [ATOMIC_REQUESTS], first with no stage, then behind a stage whose
    pre-invocation hook answers. *)
Lemma atomic_requests_refuse_coroutine_view_witness :
  make_view_atomic conf_atomic view_async
  = Raise (mkExn RuntimeError "You cannot use ATOMIC_REQUESTS with async views.")
  /\ fst (_get_response_async conf_atomic (loaded conf_atomic true)
            sample_request initial_state)
     = Raise (mkExn RuntimeError "You cannot use ATOMIC_REQUESTS with async views.")
  /\ no_view_called initial_state
       (snd (_get_response_async conf_atomic (loaded conf_atomic true)
               sample_request initial_state))
  /\ (exists r s',
        call_chain conf_atomic (loaded conf_atomic true)
          (Converted (GetResponse true)) sample_request initial_state
        = (Ok (PResp r), s'))
  /\ fst (_get_response conf_atomic_behind_hook
            (loaded conf_atomic_behind_hook false) sample_request initial_state)
     = Ok (PResp (plain_response 200)).
Proof.
  destruct (atomic_requests_refuse_coroutine_view conf_atomic view_async
              "default" (mkSettingsDict true) eq_refl (or_introl eq_refl)
              eq_refl eq_refl) as [Hmake Hdispatch].
  split; [exact Hmake|].
  destruct (Hdispatch (loaded conf_atomic true) sample_request initial_state [] []
              (with_resolver_match (view_async, [], []) initial_state) eq_refl)
    as (_ & Hquiet & Hfail & _).
  destruct (Hfail (with_resolver_match (view_async, [], []) initial_state))
    as (_ & Ha & Hwrapped).
  { intros await_. reflexivity. }
  split; [rewrite Ha; reflexivity|]. split; [exact Hquiet|]. split.
  - destruct (Hwrapped true) as (_ & Hanswer & _). apply Hanswer.
    + reflexivity.
    + apply default_handlers_succeed.
  - destruct (atomic_requests_refuse_coroutine_view conf_atomic_behind_hook
                view_async "default" (mkSettingsDict true) eq_refl
                (or_introl eq_refl) eq_refl eq_refl) as [_ Hbehind].
    destruct (Hbehind (loaded conf_atomic_behind_hook false) sample_request
                initial_state [] []
                (with_resolver_match (view_async, [], []) initial_state) eq_refl)
      as (_ & _ & _ & Hhook).
    destruct (Hhook (PResp (plain_response 200))
                (snd (view_middleware_loop false
                        (_view_middleware (loaded conf_atomic_behind_hook false))
                        sample_request (view_async, [], []) PNone
                        (with_resolver_match (view_async, [], []) initial_state))))
      as (_ & _ & Hplain).
    + intros await_. destruct await_; vm_compute; reflexivity.
    + reflexivity.
    + destruct (Hplain (plain_response 200) eq_refl eq_refl) as [Hs _].
      rewrite Hs. reflexivity.
Defined.

(** C7, the claim as stated fails: the error handler for status 400 raises,
    and the answer to an oversized body is the 500 page. *)
Lemma limit_violation_answered_with_500 :
  isinstance too_big SuspiciousOperation = true
  /\ isinstance_any too_big [RequestDataTooBig; TooManyFieldsSent; TooManyFilesSent]
     = true
  /\ fst (response_for_exception conf_failing_400 sample_request too_big initial_state)
     = Ok (PResp (plain_response 500))
  /\ status_code (plain_response 500) <> 400.
Proof. repeat split; try (vm_compute; reflexivity). discriminate. Qed.

(** C7 on a sample application: an oversized body, with error handlers that
    answer. *)
Lemma limit_violation_classified_witness :
  let out := response_for_exception conf_default sample_request too_big initial_state in
  logs (snd out)
  = [mkLog "django.security.RequestDataTooBig" "error"
       "Request body exceeded settings.DATA_UPLOAD_MAX_MEMORY_SIZE."]
  /\ post_parse_error (snd out) = true
  /\ fst out = Ok (PResp (plain_response 400)).
Proof.
  destruct (limit_violation_classified conf_default sample_request too_big
              initial_state eq_refl eq_refl) as (Hlog & Hpost & _ & Hanswer).
  cbv zeta. split; [exact Hlog|]. split; [exact Hpost|].
  edestruct (Hanswer eq_refl) as [H _].
  - reflexivity.
  - apply (H (plain_response 400)); reflexivity.
Defined.

(** C8 on sample configurations: a stage with no capability flag, and a
    stage whose factory hands back [None]. *)
Lemma load_middleware_rejects_unusable_stage_witness :
  (exists b',
      load_middleware conf_no_capability false fresh
      = (Raise (mkExn RuntimeError
                  "Middleware A must have at least one of sync_capable/async_capable set to True."),
         b')
      /\ _middleware_chain (self b') = None)
  /\ (exists b',
         load_middleware conf_returning_None true fresh
         = (Raise (mkExn ImproperlyConfigured "Middleware factory A returned None."),
            b')
         /\ _middleware_chain (self b') = None).
Proof.
  split.
  - destruct (load_middleware_rejects_unusable_stage conf_no_capability false
                [] "A" ["B"] stage_no_capability fresh eq_refl eq_refl)
      as [H _].
    destruct (H (conj eq_refl eq_refl)) as (e & b' & Hload & Hchain & He).
    exists b'. split; [|exact Hchain].
    rewrite Hload. f_equal. f_equal. eapply He. vm_compute. reflexivity.
  - destruct (load_middleware_rejects_unusable_stage conf_returning_None true
                [] "A" ["B"] stage_returning_None fresh eq_refl eq_refl)
      as [_ H].
    destruct (H (or_introl eq_refl) eq_refl) as (e & b' & Hload & Hchain & He).
    exists b'. split; [|exact Hchain].
    rewrite Hload. f_equal. f_equal. eapply He. vm_compute. reflexivity.
Defined.

(** C9 on a sample application, a view that answers with status 404: the
    blocking entry point of the pipeline built in blocking mode and the
    cooperative entry point of the pipeline built in cooperative mode both
    return the response with the closer appended and write the line. *)
Lemma entry_point_closer_and_log_witness :
  (exists s',
      get_response conf_view_404 (loaded conf_view_404 false) sample_request
        initial_state
      = (Ok (PResp (append_closer (plain_response 404)
                      (request_close sample_request))), s')
      /\ logs s' = [mkLog "django.request" "warning" "Not Found: /items/"])
  /\ (exists s',
        get_response_async conf_view_404 (loaded conf_view_404 true)
          sample_request initial_state
        = (Ok (PResp (append_closer (plain_response 404)
                        (request_close sample_request))), s')
        /\ logs s' = [mkLog "django.request" "warning" "Not Found: /items/"])
  /\ (exists r s1,
        call_middleware_chain conf_view_404 (loaded conf_view_404 false)
          sample_request
          (with_urlconf (Some (ROOT_URLCONF conf_view_404)) initial_state)
        = (Ok (PResp r), s1)
        /\ fst (get_response conf_view_404 (loaded conf_view_404 false)
                  sample_request initial_state)
           = Ok (PResp (append_closer r (request_close sample_request)))).
Proof.
  split; [|split].
  - destruct (entry_point_closer_and_log conf_view_404 (loaded conf_view_404 false)
                sample_request initial_state) as [Hforward _].
    destruct (Hforward (plain_response 404)
                (snd (call_middleware_chain conf_view_404
                        (loaded conf_view_404 false) sample_request
                        (with_urlconf (Some (ROOT_URLCONF conf_view_404))
                           initial_state))))
      as (s' & Hs & _ & _ & _ & _ & Hlog & _); [vm_compute; reflexivity|].
    exists s'. split; [exact Hs|].
    destruct Hlog as [_ ->]; [vm_compute; discriminate|]. reflexivity.
  - destruct (entry_point_closer_and_log conf_view_404 (loaded conf_view_404 true)
                sample_request initial_state) as [Hforward _].
    destruct (Hforward (plain_response 404)
                (snd (call_middleware_chain conf_view_404
                        (loaded conf_view_404 true) sample_request
                        (with_urlconf (Some (ROOT_URLCONF conf_view_404))
                           initial_state))))
      as (s' & _ & Ha & _ & _ & _ & Hlog & _); [vm_compute; reflexivity|].
    exists s'. split; [exact Ha|].
    destruct Hlog as [_ ->]; [vm_compute; discriminate|]. reflexivity.
  - destruct (entry_point_closer_and_log conf_view_404 (loaded conf_view_404 false)
                sample_request initial_state) as [_ Hback].
    destruct (Hback
                (PResp (append_closer (plain_response 404)
                          (request_close sample_request)))
                (snd (get_response conf_view_404 (loaded conf_view_404 false)
                        sample_request initial_state)))
      as (r & s1 & Hchain & Hv); [left; vm_compute; reflexivity|].
    exists r, s1. split; [exact Hchain|]. rewrite <- Hv. vm_compute. reflexivity.
Defined.

(** C10 on a sample application: two stages with on-fault hooks, the last
    configured of which declines. *)
Lemma exception_hooks_last_configured_first_witness :
  _exception_middleware (loaded conf_exception_hooks false)
  = [exception_hook_returning "B" PNone;
     exception_hook_returning "A" (PResp (plain_response 500))]
  /\ exists s2,
       process_exception_by_middleware (loaded conf_exception_hooks false)
         key_error sample_request initial_state
       = (Ok (PResp (plain_response 500)), s2)
       /\ trace s2 = [called_process_exception "B"; called_process_exception "A"].
Proof.
  destruct (exception_hooks_last_configured_first conf_exception_hooks false fresh
              (snd (load_middleware conf_exception_hooks false fresh)) eq_refl)
    as (Hstored & Hanswer & _).
  split; [reflexivity|].
  eexists.
  edestruct (Hanswer key_error sample_request
               [exception_hook_returning "B" PNone]
               (exception_hook_returning "A" (PResp (plain_response 500)))
               [] initial_state) as [H1 H2].
  - reflexivity.
  - eapply decline_cons; [reflexivity|]. apply decline_nil.
  - reflexivity.
  - reflexivity.
  - split; [exact H1|]. rewrite H2. reflexivity.
Defined.

(** * Further properties of the chain builder *)

Section ChainBuilder.

Context {W : Type}.

Lemma registered_same_hooks is_async (mw : mw_instance W) h h' :
  same_hooks h h' ->
  same_hooks (registered is_async mw h) (registered is_async mw h').
Proof.
  intros (Hv & Ht & He). unfold same_hooks, registered.
  cbn [_view_middleware _template_response_middleware _exception_middleware].
  now rewrite Hv, Ht, He.
Qed.

(** The loop reads the settings only to import the stage classes (and to
    decide on debug output), and of [self] only the hook lists. *)
Lemma load_middleware_loop_respects (conf conf' : settings W) is_async :
  (forall p, import_string conf' p = import_string conf p) ->
  forall paths handler a (b b' : build W),
    same_hooks (self b) (self b') ->
    fst (load_middleware_loop conf is_async paths handler a b)
    = fst (load_middleware_loop conf' is_async paths handler a b')
    /\ same_hooks (self (snd (load_middleware_loop conf is_async paths handler a b)))
         (self (snd (load_middleware_loop conf' is_async paths handler a b'))).
Proof.
  intros Himp. induction paths as [|p paths IH]; intros handler a b b' Hsame.
  - cbn. auto.
  - destruct (import_string conf p) as [middleware|e] eqn:Hi.
    + assert (Hi' : import_string conf' p = Ok middleware) by now rewrite Himp.
      destruct (negb (getattr (sync_capable middleware) true)
                && negb (getattr (async_capable middleware) false)) eqn:Hf.
      * rewrite (loop_turn_no_capability conf _ _ _ _ _ _ _ Hi Hf),
          (loop_turn_no_capability conf' _ _ _ _ _ _ _ Hi' Hf). auto.
      * destruct (factory middleware) as [[mw|]|exc] eqn:Hm.
        -- destruct (loop_turn_used conf is_async p handler a b _ _ Hi Hf Hm)
             as [lg ->].
           destruct (loop_turn_used conf' is_async p handler a b' _ _ Hi' Hf Hm)
             as [lg' ->].
           apply IH. cbn [self]. now apply registered_same_hooks.
        -- destruct (loop_turn_returned_None conf is_async p handler a b _ Hi Hf Hm)
             as [lg ->].
           destruct (loop_turn_returned_None conf' is_async p handler a b' _
                       Hi' Hf Hm) as [lg' ->].
           auto.
        -- destruct (isinstance exc MiddlewareNotUsed) eqn:Hx.
           ++ destruct (loop_turn_not_used conf is_async p handler a b _ _
                          Hi Hf Hm Hx) as [lg ->].
              destruct (loop_turn_not_used conf' is_async p handler a b' _ _
                          Hi' Hf Hm Hx) as [lg' ->].
              apply IH. exact Hsame.
           ++ destruct (loop_turn_factory_raises conf is_async p handler a b _ _
                          Hi Hf Hm Hx) as [lg ->].
              destruct (loop_turn_factory_raises conf' is_async p handler a b' _ _
                          Hi' Hf Hm Hx) as [lg' ->].
              auto.
    + assert (Hi' : import_string conf' p = Raise e) by now rewrite Himp.
      rewrite (loop_turn_import_fails conf _ _ _ _ _ _ _ Hi),
        (loop_turn_import_fails conf' _ _ _ _ _ _ _ Hi'). auto.
Qed.

Lemma handler_eq (h h' : BaseHandler W) :
  same_hooks h h' -> _middleware_chain h = _middleware_chain h' -> h = h'.
Proof.
  destruct h, h'. unfold same_hooks. cbn. intros (-> & -> & ->) ->. reflexivity.
Qed.

(** [load_middleware], for two stage lists over the same classes whose loops
    end alike. *)
Lemma load_middleware_respects (conf conf' : settings W) is_async (b b' : build W) :
  (forall p, import_string conf' p = import_string conf p) ->
  (forall handler a (b0 b0' : build W),
      same_hooks (self b0) (self b0') ->
      fst (load_middleware_loop conf is_async (rev (MIDDLEWARE conf)) handler a b0)
      = fst (load_middleware_loop conf' is_async (rev (MIDDLEWARE conf')) handler a b0')
      /\ same_hooks
           (self (snd (load_middleware_loop conf is_async (rev (MIDDLEWARE conf))
                         handler a b0)))
           (self (snd (load_middleware_loop conf' is_async (rev (MIDDLEWARE conf'))
                         handler a b0')))) ->
  fst (load_middleware conf is_async b) = fst (load_middleware conf' is_async b')
  /\ same_hooks (self (snd (load_middleware conf is_async b)))
       (self (snd (load_middleware conf' is_async b')))
  /\ (fst (load_middleware conf is_async b) = Ok tt ->
      _middleware_chain (self (snd (load_middleware conf is_async b)))
      = _middleware_chain (self (snd (load_middleware conf' is_async b')))).
Proof.
  intros Himp Hloop.
  rewrite (load_middleware_unfold conf), (load_middleware_unfold conf').
  specialize (Hloop (Converted (GetResponse is_async)) is_async
                (mkBuild (mkHandler [] [] [] (_middleware_chain (self b)))
                   (build_logs b))
                (mkBuild (mkHandler [] [] [] (_middleware_chain (self b')))
                   (build_logs b'))).
  destruct Hloop as [Hfst Hhooks]; [repeat split|].
  destruct (load_middleware_loop conf is_async _ _ _ _) as [[[h1 a1]|e1] b1];
    destruct (load_middleware_loop conf' is_async _ _ _ _) as [[[h2 a2]|e2] b2];
    cbn [fst snd] in *; try discriminate.
  - injection Hfst as -> ->. cbn [self]. split; [reflexivity|].
    split; [exact Hhooks | reflexivity].
  - injection Hfst as ->. split; [reflexivity|]. split; [exact Hhooks|].
    discriminate.
Qed.

(** X1.  A stage whose factory raises [MiddlewareNotUsed] is left out of the
    pipeline altogether: [load_middleware] ends the same way, with the same
    hook lists and the same chain, as for the settings without that stage. *)
Theorem unused_stage_is_left_out
    (conf : settings W) is_async before p after middleware exc (b : build W) :
  MIDDLEWARE conf = (before ++ p :: after)%list ->
  import_string conf p = Ok middleware ->
  negb (getattr (sync_capable middleware) true)
    && negb (getattr (async_capable middleware) false) = false ->
  factory middleware = Raise exc ->
  isinstance exc MiddlewareNotUsed = true ->
  let without := with_MIDDLEWARE conf (before ++ after) in
  fst (load_middleware conf is_async b) = fst (load_middleware without is_async b)
  /\ same_hooks (self (snd (load_middleware conf is_async b)))
       (self (snd (load_middleware without is_async b)))
  /\ (fst (load_middleware conf is_async b) = Ok tt ->
      self (snd (load_middleware conf is_async b))
      = self (snd (load_middleware without is_async b))).
Proof.
  intros HM Hi Hf Hm Hx without.
  assert (Himp : forall q, import_string without q = import_string conf q)
    by reflexivity.
  destruct (load_middleware_respects conf without is_async b b Himp)
    as (Hfst & Hhooks & Hchain).
  - intros handler a b0 b0' Hsame.
    replace (MIDDLEWARE without) with (before ++ after)%list by reflexivity.
    rewrite HM, !rev_app_distr. cbn [rev]. rewrite <- app_assoc.
    rewrite !load_middleware_loop_app.
    destruct (load_middleware_loop_respects conf without is_async Himp
                (rev after) handler a b0 b0' Hsame) as [H1 H2].
    destruct (load_middleware_loop conf is_async (rev after) handler a b0)
      as [[[h1 a1]|e1] b1];
      destruct (load_middleware_loop without is_async (rev after) handler a b0')
        as [[[h2 a2]|e2] b2];
      cbn [fst snd] in *; try discriminate.
    + injection H1 as -> ->. cbn [app].
      destruct (loop_turn_not_used conf is_async p h2 a2 b1 _ _ Hi Hf Hm Hx)
        as [lg ->].
      apply (load_middleware_loop_respects conf without is_async Himp).
      exact H2.
    + injection H1 as ->. auto.
  - split; [exact Hfst|]. split; [exact Hhooks|].
    intros Hok. apply handler_eq; [exact Hhooks | now apply Hchain].
Qed.

(** X2.  [load_middleware] starts from scratch: how it ends and the hook
    lists it leaves do not depend on what [self] held before, so loading a
    second time gives the handler of the first time. *)
Theorem load_middleware_starts_from_scratch
    (conf : settings W) is_async (b b' : build W) :
  fst (load_middleware conf is_async b) = fst (load_middleware conf is_async b')
  /\ same_hooks (self (snd (load_middleware conf is_async b)))
       (self (snd (load_middleware conf is_async b')))
  /\ (fst (load_middleware conf is_async b) = Ok tt ->
      self (snd (load_middleware conf is_async b))
      = self (snd (load_middleware conf is_async b'))
      /\ load_middleware conf is_async
           (snd (load_middleware conf is_async b))
         = (Ok tt, snd (load_middleware conf is_async
                          (snd (load_middleware conf is_async b))))
      /\ self (snd (load_middleware conf is_async
                      (snd (load_middleware conf is_async b))))
         = self (snd (load_middleware conf is_async b))).
Proof.
  assert (Hany : forall b1 b2 : build W,
    fst (load_middleware conf is_async b1) = fst (load_middleware conf is_async b2)
    /\ same_hooks (self (snd (load_middleware conf is_async b1)))
         (self (snd (load_middleware conf is_async b2)))
    /\ (fst (load_middleware conf is_async b1) = Ok tt ->
        self (snd (load_middleware conf is_async b1))
        = self (snd (load_middleware conf is_async b2)))).
  { intros b1 b2.
    destruct (load_middleware_respects conf conf is_async b1 b2 (fun _ => eq_refl))
      as (Hfst & Hhooks & Hchain).
    - intros handler a b0 b0' Hsame.
      now apply load_middleware_loop_respects.
    - split; [exact Hfst|]. split; [exact Hhooks|].
      intros Hok. apply handler_eq; [exact Hhooks | now apply Hchain]. }
  destruct (Hany b b') as (Hfst & Hhooks & Hself).
  split; [exact Hfst|]. split; [exact Hhooks|].
  intros Hok. split; [now apply Hself|].
  destruct (Hany (snd (load_middleware conf is_async b)) b) as (Hfst2 & _ & Hself2).
  split.
  - rewrite Hok in Hfst2.
    destruct (load_middleware conf is_async (snd (load_middleware conf is_async b)))
      as [r b2]. cbn in *. now subst.
  - apply Hself2. now rewrite Hfst2.
Qed.

End ChainBuilder.

Section ChainShapeProperties.

Context {W : Type}.
Variable conf : settings W.

Lemma adapted_shape is_async (c : chain W) a :
  stage_paths (adapted is_async c a) = stage_paths c
  /\ innermost (adapted is_async c a) = innermost c
  /\ contained (adapted is_async c a) = contained c.
Proof. destruct is_async, a; repeat split. Qed.

Lemma filter_rev_rev {A : Type} (f : A -> bool) l :
  rev (filter f (rev l)) = filter f l.
Proof.
  induction l as [|x l IH]; [reflexivity|].
  cbn. rewrite filter_app, rev_app_distr, IH. cbn.
  destruct (f x); reflexivity.
Qed.

Lemma load_middleware_loop_shape is_async paths :
  forall handler a (b : build W) top a' b',
    load_middleware_loop conf is_async paths handler a b = (Ok (top, a'), b') ->
    stage_paths top
    = (rev (filter (fun p => match instance_of conf p with
                             | Some _ => true
                             | None => false
                             end) paths)
       ++ stage_paths handler)%list
    /\ innermost top = innermost handler
    /\ (contained handler = true -> contained top = true).
Proof.
  induction paths as [|p paths IH]; intros handler a b top a' b' Hl.
  - cbn in Hl. unfold ret in Hl. injection Hl as <- _ _. auto.
  - destruct (loop_turn_cases conf is_async p handler a b)
      as [(e & lg & H) | [(m0 & mw & mode & lg & _ & _ & Hi & H) | (lg & Hi & H)]];
      rewrite H in Hl.
    + discriminate.
    + apply IH in Hl. destruct Hl as (Hp & Hin & Hc).
      destruct (adapted_shape mode handler a) as (Ap & Ain & Ac).
      cbn [filter]. rewrite Hi. cbn [rev].
      cbn [stage_paths innermost contained] in Hp, Hin, Hc.
      rewrite Ap in Hp. rewrite Ain in Hin. rewrite Ac in Hc.
      rewrite Hp, <- app_assoc. auto.
    + apply IH in Hl. cbn [filter]. rewrite Hi. exact Hl.
Qed.

(** X3.  In the chain [load_middleware] builds, the stages that are used are
    nested in configuration order, the first configured outermost, around
    the dispatch method of the pipeline's mode; each stage instance, and the
    dispatch method, is the direct argument of a
    [convert_exception_to_response] wrapper. *)
Theorem first_configured_stage_is_outermost is_async (b b' : build W) :
  load_middleware conf is_async b = (Ok tt, b') ->
  exists c,
    _middleware_chain (self b') = Some c
    /\ stage_paths c = used_stages conf
    /\ innermost c = is_async
    /\ contained c = true.
Proof.
  rewrite load_middleware_unfold.
  destruct (load_middleware_loop conf is_async (rev (MIDDLEWARE conf)) _ _ _)
    as [[[handler a]|e1] b1] eqn:Hl; [|discriminate].
  intros H; injection H as <-. cbn [self _middleware_chain].
  eexists. split; [reflexivity|].
  destruct (load_middleware_loop_shape _ _ _ _ _ _ _ _ Hl) as (Hp & Hin & Hc).
  destruct (adapted_shape is_async handler a) as (-> & -> & ->).
  rewrite Hp, Hin, filter_rev_rev, app_nil_r. auto.
Qed.

End ChainShapeProperties.

Section AdaptAndAtomic.

Context {W : Type}.
Variable conf : settings W.

(** X4.  [adapt_method_mode] hands back a method of the mode asked for and
    leaves [self] alone; a method already in that mode is handed back as it
    is, without debug output, so adapting a second time changes nothing. *)
Theorem adapt_method_mode_reaches_mode {A : Type} `{Callable A} :
  (forall m : A, iscoroutinefunction (wrap_sync_to_async m) = true) ->
  (forall m : A, iscoroutinefunction (wrap_async_to_sync m) = false) ->
  forall is_async (method : A) debug name (b : build W),
  exists method' b',
    adapt_method_mode is_async method None debug name b = (Ok method', b')
    /\ iscoroutinefunction method' = is_async
    /\ self b' = self b
    /\ (iscoroutinefunction method = is_async -> method' = method /\ b' = b)
    /\ (debug = false -> b' = b)
    /\ adapt_method_mode is_async method' None debug name b' = (Ok method', b').
Proof.
  intros Hs Ha is_async method debug name [h lg].
  unfold adapt_method_mode.
  destruct is_async, (iscoroutinefunction method) eqn:Hm; cbn [negb].
  - exists method. eexists. split; [reflexivity|]. rewrite Hm. repeat split; auto.
  - exists (wrap_sync_to_async method).
    destruct debug; eexists; (split; [reflexivity|]); rewrite Hs; cbn;
      repeat split; auto; discriminate.
  - exists (wrap_async_to_sync method).
    destruct debug; eexists; (split; [reflexivity|]); rewrite Ha; cbn;
      repeat split; auto; discriminate.
  - exists method. eexists. split; [reflexivity|]. rewrite Hm. repeat split; auto.
Qed.

(** X5.  [make_view_atomic] wraps a view once for each database alias with
    [ATOMIC_REQUESTS] that the view does not exclude, in settings order, the
    first alias innermost.  When there is no such alias the view is handed
    back as it is, a coroutine view too. *)
Theorem make_view_atomic_wraps_selected_aliases (view : View W) :
  (atomic_aliases conf view = [] -> make_view_atomic conf view = Ok view)
  /\ (view_is_coroutine view = false ->
      (forall alias v, view_is_coroutine v = false ->
                       view_is_coroutine (atomic conf alias v) = false) ->
      make_view_atomic conf view
      = Ok (fold_left (fun v alias => atomic conf alias v)
              (atomic_aliases conf view) view)).
Proof.
  unfold make_view_atomic, atomic_aliases.
  generalize (getattr (_non_atomic_requests view) []) as excluded.
  intros excluded. split.
  - revert view.
    induction (DATABASES conf) as [|[alias sd] items IH]; intros v Hnone;
      [reflexivity|].
    cbn [filter fst snd] in Hnone. cbn [make_view_atomic_loop].
    destruct (ATOMIC_REQUESTS sd && negb (mem alias excluded)); [discriminate|].
    now apply IH.
  - intros Hplain Hkeep. revert view Hplain.
    induction (DATABASES conf) as [|[alias sd] items IH]; intros v Hplain;
      [reflexivity|].
    cbn [filter fst snd map make_view_atomic_loop].
    destruct (ATOMIC_REQUESTS sd && negb (mem alias excluded)).
    + rewrite Hplain. cbn [map fold_left fst]. apply IH. now apply Hkeep.
    + now apply IH.
Qed.

End AdaptAndAtomic.

Section DispatchProperties.

Context {W : Type}.
Variable conf : settings W.

Lemma bind_assoc {S A B C : Type} (m : M S A) (k : A -> M S B) (k' : B -> M S C) s :
  bind (bind m k) k' s = bind m (fun a => bind (k a) k') s.
Proof. unfold bind. destruct (m s) as [[a|e] s1]; reflexivity. Qed.

Lemma bind_ext {S A B : Type} (m m' : M S A) (k k' : A -> M S B) s :
  m s = m' s -> (forall a s1, k a s1 = k' a s1) -> bind m k s = bind m' k' s.
Proof.
  intros Hm Hk. unfold bind. rewrite Hm.
  destruct (m' s) as [[a|e] s1]; [apply Hk | reflexivity].
Qed.

Lemma view_loop_await hooks request (m : resolver_match W) v (s : state W) :
  view_middleware_loop true hooks request m v s
  = view_middleware_loop false hooks request m v s.
Proof.
  destruct m as [[callback callback_args] callback_kwargs]. revert v s.
  induction hooks as [|h rest IH]; intros v s; [reflexivity|].
  cbn [view_middleware_loop]. apply bind_ext; [reflexivity|].
  intros v1 s1. destruct (truthy v1); [reflexivity | apply IH].
Qed.

Lemma template_loop_await hooks request v (s : state W) :
  template_response_middleware_loop true hooks request v s
  = template_response_middleware_loop false hooks request v s.
Proof.
  revert v s. induction hooks as [|h rest IH]; intros v s; [reflexivity|].
  cbn [template_response_middleware_loop]. apply bind_ext; [reflexivity|].
  intros v1 s1. apply bind_ext; [reflexivity|]. intros _ s2. apply IH.
Qed.

(** On one handler, and for the responses of this model, whose [render] is
    an ordinary method, [_get_response_async] does what [_get_response]
    does, with one check more at the end. *)
Lemma dispatch_modes_agree_on_handler self request (s : state W) :
  _get_response_async conf self request s
  = match _get_response conf self request s with
    | (Ok v, s') =>
        if iscoroutine v
        then (Raise (mkExn RuntimeError "Response is still a coroutine."), s')
        else (Ok v, s')
    | (Raise e, s') => (Raise e, s')
    end.
Proof.
  transitivity
    (bind (_get_response conf self request)
       (fun response =>
          if iscoroutine response
          then raise (mkExn RuntimeError "Response is still a coroutine.")
          else ret response) s).
  2: { unfold bind.
       destruct (_get_response conf self request s) as [[v|e] s'];
         [destruct (iscoroutine v)|]; reflexivity. }
  unfold _get_response_async, _get_response.
  rewrite bind_assoc. apply bind_ext; [reflexivity|].
  intros [[callback callback_args] callback_kwargs] s1. cbv beta iota.
  rewrite bind_assoc. apply bind_ext; [apply view_loop_await|].
  intros v s2. rewrite bind_assoc. apply bind_ext.
  - destruct (is_None v); [|reflexivity].
    apply bind_ext; [reflexivity|]. intros wrapped_callback s3.
    destruct (view_is_coroutine wrapped_callback); reflexivity.
  - intros v' s3. rewrite bind_assoc. apply bind_ext; [reflexivity|].
    intros _ s4. apply bind_ext; [|reflexivity].
    destruct (has_render v'); [|reflexivity].
    apply bind_ext; [apply template_loop_await | reflexivity].
Qed.

Lemma exception_loop_raised exception request declining h later
    (s s1 : state W) e' s2 :
  all_decline called_process_exception (request, exception) declining s s1 ->
  invoke (called_process_exception (hook_class h))
    (hook_call h (request, exception)) s1 = (Raise e', s2) ->
  exception_middleware_loop (declining ++ h :: later) exception request s
  = (Raise e', s2).
Proof.
  intros Hd.
  induction Hd as [s | h0 rest s s0 s1 Hh0 _ IH]; intros Hh;
    cbn [exception_middleware_loop app].
  - now rewrite (bind_Raise _ _ s e' s2 Hh).
  - rewrite (bind_Ok _ _ s (PNone : pyval) s0 Hh0). now apply IH.
Qed.

Lemma except_clause_declined self request e (s s' : state W) :
  all_decline called_process_exception (request, e) (_exception_middleware self) s s' ->
  except_clause self request e s = (Raise e, s').
Proof.
  intros Hd. unfold except_clause, process_exception_by_middleware.
  now rewrite (bind_Ok _ _ _ _ _ (exception_loop_declined _ _ _ _ _ Hd)).
Qed.

Lemma except_clause_answered self request e declining h later
    (s s1 : state W) v s2 :
  _exception_middleware self = (declining ++ h :: later)%list ->
  all_decline called_process_exception (request, e) declining s s1 ->
  invoke (called_process_exception (hook_class h))
    (hook_call h (request, e)) s1 = (Ok v, s2) ->
  truthy v = true ->
  except_clause self request e s = (Ok v, s2).
Proof.
  intros Hsplit Hd Hh Hv. unfold except_clause, process_exception_by_middleware.
  rewrite Hsplit.
  rewrite (bind_Ok _ _ _ _ _ (exception_loop_answered _ _ _ _ later _ _ _ _ Hd Hh Hv)).
  destruct v; [discriminate | reflexivity | reflexivity].
Qed.

Lemma except_clause_raised self request e declining h later
    (s s1 : state W) e' s2 :
  _exception_middleware self = (declining ++ h :: later)%list ->
  all_decline called_process_exception (request, e) declining s s1 ->
  invoke (called_process_exception (hook_class h))
    (hook_call h (request, e)) s1 = (Raise e', s2) ->
  except_clause self request e s = (Raise e', s2).
Proof.
  intros Hsplit Hd Hh. unfold except_clause, process_exception_by_middleware.
  rewrite Hsplit.
  now rewrite (bind_Raise _ _ _ _ _ (exception_loop_raised _ _ _ _ later _ _ _ _ Hd Hh)).
Qed.

(** X7.  When the view raises, the on-fault hooks get the exception in stored
    order.  When all of them decline, dispatch raises the view's exception.
    The answer of the first hook that gives one stands in for the view's
    response: it is validated and goes through the post-render steps.  A hook
    that raises ends dispatch with its own exception, and the hooks after it
    are not called. *)
Theorem view_exception_goes_to_exception_hooks
    self request (s : state W) m s2 wrapped_callback e s3 :
  reaches_view conf self request s m s2 ->
  make_view_atomic conf (fst (fst m)) = Ok wrapped_callback ->
  call_view wrapped_callback request m s2 = (Raise e, s3) ->
  (forall s4,
      all_decline called_process_exception (request, e)
        (_exception_middleware self) s3 s4 ->
      _get_response conf self request s = (Raise e, s4)
      /\ _get_response_async conf self request s = (Raise e, s4))
  /\ (forall declining h later s4,
        _exception_middleware self = (declining ++ h :: later)%list ->
        all_decline called_process_exception (request, e) declining s3 s4 ->
        (forall v s5,
            invoke (called_process_exception (hook_class h))
              (hook_call h (request, e)) s4 = (Ok v, s5) ->
            truthy v = true ->
            _get_response conf self request s
            = after_view self request (fst (fst m)) v s5
            /\ _get_response_async conf self request s
               = after_view_async self request (fst (fst m)) v s5)
        /\ (forall e' s5,
               invoke (called_process_exception (hook_class h))
                 (hook_call h (request, e)) s4 = (Raise e', s5) ->
               _get_response conf self request s = (Raise e', s5)
               /\ _get_response_async conf self request s = (Raise e', s5)
               /\ trace s5
                  = (trace s3
                     ++ names_called called_process_exception
                          (declining ++ [h]))%list)).
Proof.
  intros Hreach Hat Hcall.
  pose proof (dispatch_at_view conf _ _ _ _ _ Hreach) as Hd. rewrite Hat in Hd.
  destruct Hd as [Hs Ha]. rewrite Hs, Ha. clear Hs Ha.
  split.
  - intros s4 Hdec.
    pose proof (except_clause_declined self request e _ _ Hdec) as Hex.
    rewrite <- (try_Raise _ (except_clause self request) _ _ _ Hcall) in Hex.
    now rewrite !(bind_Raise _ _ _ _ _ Hex).
  - intros declining h later s4 Hsplit Hdec. split.
    + intros v s5 Hh Hv.
      pose proof (except_clause_answered self request e _ _ _ _ _ _ _
                    Hsplit Hdec Hh Hv) as Hex.
      rewrite <- (try_Raise _ (except_clause self request) _ _ _ Hcall) in Hex.
      now rewrite !(bind_Ok _ _ _ _ _ Hex).
    + intros e' s5 Hh.
      pose proof (except_clause_raised self request e _ _ _ _ _ _ _
                    Hsplit Hdec Hh) as Hex.
      rewrite <- (try_Raise _ (except_clause self request) _ _ _ Hcall) in Hex.
      rewrite !(bind_Raise _ _ _ _ _ Hex). split; [reflexivity|].
      split; [reflexivity|].
      destruct (all_decline_trace _ _ _ _ _ Hdec) as [Ht _].
      destruct (invoke_trace _ _ _ _ _ Hh) as (Ht2 & _).
      unfold names_called in *. rewrite Ht2, Ht, map_app, <- app_assoc.
      reflexivity.
Qed.

Lemma check_response_named {S : Type} bad (callback : callback_ref W) n (st : S) :
  is_None bad || iscoroutine bad = true ->
  n <> "" ->
  check_response bad callback (Some n) st
  = (Raise (mkExn ValueError
              (n ++ (if is_None bad
                     then " didn't return an HttpResponse object. It returned None instead."
                     else " didn't return an HttpResponse object. It returned an unawaited coroutine instead. You may need to add an 'await' into your view."))),
     st).
Proof.
  intros Hbad Hn. destruct n as [|a n]; [congruence|].
  destruct bad; try discriminate; reflexivity.
Qed.

Lemma template_loop_rejects await_ request before h later v (s : state W) v1 s1
    bad s2 :
  piped request before v s v1 s1 ->
  invoke (called_process_template_response (hook_class h))
    (hook_call h (request, v1)) s1 = (Ok bad, s2) ->
  is_None bad || iscoroutine bad = true ->
  template_response_middleware_loop await_ (before ++ h :: later) request v s
  = (Raise (mkExn ValueError
              ((hook_class h ++ ".process_template_response")
               ++ (if is_None bad
                   then " didn't return an HttpResponse object. It returned None instead."
                   else " didn't return an HttpResponse object. It returned an unawaited coroutine instead. You may need to add an 'await' into your view."))),
     s2).
Proof.
  intros Hp.
  induction Hp as [v s | h0 rest v s r1 s0 v1 s1 Hh0 _ IH]; intros Hh Hbad;
    cbn [template_response_middleware_loop app].
  - rewrite (bind_Ok _ _ s bad s2) by (destruct await_; exact Hh).
    erewrite bind_Raise; [reflexivity|].
    apply check_response_named; [exact Hbad|].
    destruct (hook_class h); discriminate.
  - rewrite (bind_Ok _ _ s (PResp r1 : pyval) s0) by (destruct await_; exact Hh0).
    now apply IH.
Qed.

(** X8.  A post-render hook must hand back a response.  When one hands back
    [None] or a coroutine that was not awaited, dispatch raises a
    [ValueError] that names the hook as
    [<class>.process_template_response]; the hooks stored after it are not
    called and [render()] is not reached. *)
Theorem post_render_hook_must_return_response
    self request (s : state W) m s2 wrapped_callback r s3 before h later v1 s4
    bad s5 :
  reaches_view conf self request s m s2 ->
  make_view_atomic conf (fst (fst m)) = Ok wrapped_callback ->
  call_view wrapped_callback request m s2 = (Ok (PResp r), s3) ->
  has_render (PResp r) = true ->
  _template_response_middleware self = (before ++ h :: later)%list ->
  piped request before (PResp r) s3 v1 s4 ->
  invoke (called_process_template_response (hook_class h))
    (hook_call h (request, v1)) s4 = (Ok bad, s5) ->
  is_None bad || iscoroutine bad = true ->
  let fault :=
    mkExn ValueError
      ((hook_class h ++ ".process_template_response")
       ++ (if is_None bad
           then " didn't return an HttpResponse object. It returned None instead."
           else " didn't return an HttpResponse object. It returned an unawaited coroutine instead. You may need to add an 'await' into your view.")) in
  _get_response conf self request s = (Raise fault, s5)
  /\ _get_response_async conf self request s = (Raise fault, s5)
  /\ trace s5
     = (trace s3
        ++ names_called called_process_template_response (before ++ [h]))%list.
Proof.
  intros Hreach Hat Hcall Hrender Hsplit Hp Hh Hbad fault.
  pose proof (dispatch_at_view conf _ _ _ _ _ Hreach) as Hd. rewrite Hat in Hd.
  destruct Hd as [Hs Ha]. rewrite Hs, Ha. clear Hs Ha.
  pose proof (try_Ok _ (except_clause self request) _ _ _ Hcall) as Htry.
  rewrite !(bind_Ok _ _ _ _ _ Htry).
  unfold after_view, after_view_async.
  assert (Hcheck : check_response (PResp r : pyval)
                     (the_view (fst (fst m))) None s3 = (Ok tt, s3))
    by reflexivity.
  rewrite !(bind_Ok _ _ _ _ _ Hcheck), Hrender, Hsplit.
  pose proof (fun a => template_loop_rejects a request before h later
                         _ _ _ _ _ _ Hp Hh Hbad) as Hloop.
  split; [|split].
  - now rewrite (bind_Raise _ _ _ _ _ (Hloop false)).
  - erewrite bind_Raise; [reflexivity|].
    now rewrite (bind_Raise _ _ _ _ _ (Hloop true)).
  - destruct (template_loop_piped false _ _ _ _ _ _ Hp) as [_ Ht].
    destruct (invoke_trace _ _ _ _ _ Hh) as (Ht2 & _).
    unfold names_called in *. rewrite Ht2, Ht, map_app, <- app_assoc.
    reflexivity.
Qed.

(** X9.  When [render()] raises, the on-fault hooks get its exception.  When
    all of them decline, dispatch raises that exception.  The answer of the
    first hook that gives one is what [_get_response] returns, as it is: it
    is neither validated nor sent through the post-render hooks again.
    [_get_response_async] returns it too, unless it is a coroutine. *)
Theorem render_exception_goes_to_exception_hooks
    self request (s : state W) m s2 wrapped_callback r s3 v' s4 e s5 :
  reaches_view conf self request s m s2 ->
  make_view_atomic conf (fst (fst m)) = Ok wrapped_callback ->
  call_view wrapped_callback request m s2 = (Ok (PResp r), s3) ->
  has_render (PResp r) = true ->
  piped request (_template_response_middleware self) (PResp r) s3 v' s4 ->
  call_render v' s4 = (Raise e, s5) ->
  (forall s6,
      all_decline called_process_exception (request, e)
        (_exception_middleware self) s5 s6 ->
      _get_response conf self request s = (Raise e, s6)
      /\ _get_response_async conf self request s = (Raise e, s6))
  /\ (forall declining h later s6 v s7,
        _exception_middleware self = (declining ++ h :: later)%list ->
        all_decline called_process_exception (request, e) declining s5 s6 ->
        invoke (called_process_exception (hook_class h))
          (hook_call h (request, e)) s6 = (Ok v, s7) ->
        truthy v = true ->
        _get_response conf self request s = (Ok v, s7)
        /\ _get_response_async conf self request s
           = (if iscoroutine v
              then (Raise (mkExn RuntimeError "Response is still a coroutine."), s7)
              else (Ok v, s7))).
Proof.
  intros Hreach Hat Hcall Hrender Hp Hfail.
  assert (Hsync : _get_response conf self request s
                  = except_clause self request e s5).
  { pose proof (dispatch_at_view conf _ _ _ _ _ Hreach) as Hd. rewrite Hat in Hd.
    destruct Hd as [Hs _]. rewrite Hs.
    rewrite (bind_Ok _ _ _ _ _ (try_Ok _ (except_clause self request) _ _ _ Hcall)).
    unfold after_view.
    assert (Hcheck : check_response (PResp r : pyval)
                       (the_view (fst (fst m))) None s3 = (Ok tt, s3))
      by reflexivity.
    rewrite (bind_Ok _ _ _ _ _ Hcheck), Hrender.
    destruct (template_loop_piped false _ _ _ _ _ _ Hp) as [Hloop _].
    rewrite (bind_Ok _ _ _ _ _ Hloop).
    now apply try_Raise. }
  pose proof (dispatch_modes_agree_on_handler self request s) as Hasync.
  rewrite Hsync in Hasync. rewrite Hsync, Hasync. clear Hsync Hasync.
  split.
  - intros s6 Hdec.
    now rewrite (except_clause_declined self request e _ _ Hdec).
  - intros declining h later s6 v s7 Hsplit Hdec Hh Hv.
    now rewrite (except_clause_answered self request e _ _ _ _ _ _ _
                   Hsplit Hdec Hh Hv).
Qed.

(** X10.  A request that carries its own URLconf is resolved against it, and
    when resolution ends in [Http404] outside debug mode the answer is that
    of the 404 handler of the same URLconf, not of [ROOT_URLCONF]: the
    thread's URLconf is set before resolution and still set when the wrapper
    around the dispatch engine picks the handler.  No view and no hook is
    called, and nothing is written to the logs. *)
Theorem resolution_404_uses_request_urlconf
    self is_async request u e (s : state W) callback r w :
  request_urlconf request = Some u ->
  resolve (get_resolver conf u) (path_info request) = Raise e ->
  isinstance e Http404 = true ->
  DEBUG conf = false ->
  resolve_error_handler (get_resolver conf u) 404 = Ok callback ->
  callback request (Some e) (world s) = (Ok (PResp r), w) ->
  materialized r = true ->
  call_chain conf self (Converted (GetResponse is_async)) request s
  = (Ok (PResp r),
     after_call (called_error_handler 404) w (with_urlconf u s)).
Proof.
  intros Hu Hres H404 Hdebug Hhandler Hcall Hmat.
  assert (Hresolve : resolve_request conf request s = (Raise e, with_urlconf u s)).
  { unfold resolve_request. rewrite Hu.
    unfold bind, set_urlconf, modify, ret, lift_result. now rewrite Hres. }
  assert (Hdispatch :
    call_chain conf self (GetResponse is_async) request s
    = (Raise e, with_urlconf u s)).
  { destruct is_async; cbn [call_chain];
      unfold _get_response, _get_response_async;
      now rewrite (bind_Raise _ _ _ _ _ Hresolve). }
  cbn [call_chain]. rewrite convert_exception_to_response_eq.
  rewrite (try_Raise _ _ _ _ _ Hdispatch).
  unfold response_for_exception. rewrite H404, Hdebug.
  apply forced_render_materialized; [|exact Hmat].
  unfold bind at 1, get_urlconf, gets. cbn [urlconf with_urlconf].
  eapply get_exception_response_answer; [exact Hhandler | exact Hcall].
Qed.

End DispatchProperties.

Section ExceptionProperties.

Context {W : Type}.
Variable conf : settings W.

Lemma signal_bind_keeps {A B : Type} (m : Rq W A) (k : A -> Rq W B) (s : state W) :
  (forall a s1, got_request_exception (snd (k a s1)) = got_request_exception s1) ->
  got_request_exception (snd (bind m k s)) = got_request_exception (snd (m s)).
Proof.
  intros Hk. unfold bind. destruct (m s) as [[a|e] s1]; [apply Hk | reflexivity].
Qed.

Lemma log_response_signal msg v (s : state W) :
  got_request_exception (snd (log_response msg v s)) = got_request_exception s.
Proof. destruct v; reflexivity. Qed.

Lemma handle_uncaught_exception_signal request resolver e (s : state W) :
  got_request_exception (snd (handle_uncaught_exception conf request resolver e s))
  = got_request_exception s.
Proof.
  unfold handle_uncaught_exception.
  destruct (DEBUG_PROPAGATE_EXCEPTIONS conf); [reflexivity|].
  destruct (DEBUG conf); [reflexivity|].
  unfold bind, lift_result.
  destruct (resolve_error_handler resolver 500) as [callback|e1]; [|reflexivity].
  unfold invoke. destruct (callback request None (world s)); reflexivity.
Qed.

Lemma get_exception_response_signal request resolver status exc (s : state W) :
  let n' := got_request_exception
              (snd (get_exception_response conf request resolver status exc s)) in
  n' = got_request_exception s \/ n' = S (got_request_exception s).
Proof.
  unfold get_exception_response, try_except, bind, lift_result.
  destruct (resolve_error_handler resolver status) as [callback|e1].
  - unfold invoke.
    destruct (callback request (Some exc) (world s)) as [[v|e2] w]; [now left|].
    right. unfold send_got_request_exception, modify.
    now rewrite handle_uncaught_exception_signal.
  - right. unfold send_got_request_exception, modify.
    now rewrite handle_uncaught_exception_signal.
Qed.

Lemma logged_answer_signal request resolver status exc msg (s : state W) :
  got_request_exception
    (snd (bind (get_exception_response conf request resolver status exc)
            (fun response => bind (log_response msg response)
                               (fun _ => ret response)) s))
  = got_request_exception
      (snd (get_exception_response conf request resolver status exc s)).
Proof.
  apply signal_bind_keeps. intros v s1.
  rewrite signal_bind_keeps by reflexivity. apply log_response_signal.
Qed.

Lemma get_urlconf_bind {B : Type} (k : option string -> Rq W B) (s : state W) :
  bind get_urlconf k s = k (urlconf s) s.
Proof. reflexivity. Qed.

Lemma send_bind {B : Type} (k : unit -> Rq W B) (s : state W) :
  bind send_got_request_exception k s = k tt (signalled s).
Proof. reflexivity. Qed.

(** X11.  [response_for_exception] sends [got_request_exception] at most once
    for the exception it is given: exactly once for an exception of no
    classified kind, and not at all for a classified one when the error
    handlers answer. *)
Theorem got_request_exception_sent_at_most_once request exc (s : state W) :
  let n := got_request_exception s in
  let n' := got_request_exception (snd (response_for_exception conf request exc s)) in
  (n' = n \/ n' = S n)
  /\ (classified exc = false -> n' = S n)
  /\ (classified exc = true ->
      error_handlers_succeed (get_resolver conf (urlconf s)) -> n' = n).
Proof.
  cbv zeta. unfold response_for_exception.
  assert (Hf : forall (m : Rq W pyval),
    got_request_exception
      (snd (bind m (fun response =>
                      if negb (getattr_is_rendered response) && has_render response
                      then call_render response
                      else ret response) s))
    = got_request_exception (snd (m s))).
  { intros m. now rewrite forced_render_state. }
  rewrite Hf. clear Hf. unfold classified.
  assert (Hger : forall status s0,
    urlconf s0 = urlconf s -> world s0 = world s ->
    got_request_exception s0 = got_request_exception s ->
    let n' := got_request_exception
                (snd (get_exception_response conf request
                        (get_resolver conf (urlconf s0)) status exc s0)) in
    (n' = got_request_exception s \/ n' = S (got_request_exception s))
    /\ (error_handlers_succeed (get_resolver conf (urlconf s)) ->
        n' = got_request_exception s)).
  { intros status s0 Hu Hw Hn. cbv zeta. split.
    - rewrite <- Hn. apply get_exception_response_signal.
    - intros Hh. rewrite <- Hu in Hh.
      destruct (get_exception_response_succeeds conf request _ status exc s0 Hh)
        as (r & w & -> & _).
      exact Hn. }
  destruct (isinstance exc Http404);
    [|destruct (isinstance exc PermissionDenied);
      [|destruct (isinstance exc MultiPartParserError);
        [|destruct (isinstance exc BadRequest);
          [|destruct (isinstance exc SuspiciousOperation)]]]];
    cbn [orb].
  - destruct (DEBUG conf).
    + cbn. repeat split; intros; try discriminate; auto.
    + destruct (Hger 404 s eq_refl eq_refl eq_refl) as [H1 H2].
      repeat split; intros; try discriminate; auto.
  - rewrite get_urlconf_bind, logged_answer_signal.
    destruct (Hger 403 s eq_refl eq_refl eq_refl) as [H1 H2].
    repeat split; intros; try discriminate; auto.
  - rewrite get_urlconf_bind, logged_answer_signal.
    destruct (Hger 400 s eq_refl eq_refl eq_refl) as [H1 H2].
    repeat split; intros; try discriminate; auto.
  - rewrite signal_bind_keeps
      by (intros v s1; rewrite signal_bind_keeps by reflexivity;
          apply log_response_signal).
    destruct (DEBUG conf).
    + cbn. repeat split; intros; try discriminate; auto.
    + destruct (Hger 400 s eq_refl eq_refl eq_refl) as [H1 H2].
      repeat split; intros; try discriminate; auto.
  - destruct (DEBUG conf).
    + destruct (isinstance_any exc _); cbn; repeat split; intros; try discriminate; auto.
    + destruct (isinstance_any exc _).
      * destruct (Hger 400
                    (add_log (mkLog ("django.security." ++ class_name (exc_type exc))
                                "error" (exc_str exc))
                       (marked_post_parse_error s)) eq_refl eq_refl eq_refl)
          as [H1 H2].
        repeat split; intros; try discriminate; auto.
      * destruct (Hger 400
                    (add_log (mkLog ("django.security." ++ class_name (exc_type exc))
                                "error" (exc_str exc)) s) eq_refl eq_refl eq_refl)
          as [H1 H2].
        repeat split; intros; try discriminate; auto.
  - assert (Hn : got_request_exception
                   (snd ((send_got_request_exception ;;
                          u <- get_urlconf ;;
                          response <- handle_uncaught_exception conf request
                                        (get_resolver conf u) exc ;;
                          r <- attr_of response "reason_phrase" ;;
                          log_response (reason_phrase r ++ ": " ++ path request)
                            response ;;
                          ret response) s))
                 = S (got_request_exception s)).
    { rewrite send_bind, get_urlconf_bind, signal_bind_keeps.
      - now rewrite handle_uncaught_exception_signal.
      - intros v s1. destruct v; reflexivity. }
    rewrite Hn. repeat split; intros; try discriminate; auto.
Qed.

(** X12.  For an [Http404], [response_for_exception] itself writes nothing
    to the logs, leaves the request's parse flag alone and does not change
    the thread's URLconf, whether the 404 handler answers or fails. *)
Theorem http404_is_answered_quietly request exc (s : state W) :
  isinstance exc Http404 = true ->
  let s' := snd (response_for_exception conf request exc s) in
  logs s' = logs s
  /\ post_parse_error s' = post_parse_error s
  /\ urlconf s' = urlconf s.
Proof.
  intros H404. cbv zeta. unfold response_for_exception.
  rewrite forced_render_state, H404.
  destruct (DEBUG conf); [cbn; auto|].
  apply (get_exception_response_frame conf request
           (get_resolver conf (urlconf s)) 404 exc s).
Qed.

End ExceptionProperties.

(** * The further properties on the sample configurations *)

(** X1 on a sample configuration: the stage N between A and B is not used. *)
Lemma unused_stage_is_left_out_witness :
  self (snd (load_middleware conf_with_unused_stage false fresh))
  = self (snd (load_middleware
                 (with_MIDDLEWARE conf_with_unused_stage ["A"; "B"]) false fresh)).
Proof.
  destruct (unused_stage_is_left_out conf_with_unused_stage false ["A"] "N" ["B"]
              stage_not_used (mkExn MiddlewareNotUsed "disabled in settings")
              fresh eq_refl eq_refl eq_refl eq_refl eq_refl) as (_ & _ & H).
  apply H. reflexivity.
Defined.

(** X2 on a sample configuration: loading a second time. *)
Lemma load_middleware_starts_from_scratch_witness :
  self (snd (load_middleware conf_mixed_modes false
               (snd (load_middleware conf_mixed_modes false fresh))))
  = loaded conf_mixed_modes false.
Proof.
  destruct (load_middleware_starts_from_scratch conf_mixed_modes false fresh fresh)
    as (_ & _ & H).
  destruct (H eq_refl) as (_ & _ & H3). exact H3.
Defined.

(** X3 on a sample configuration: of the stages A, N and B, the chain holds
    A and B. *)
Lemma first_configured_stage_is_outermost_witness :
  exists c,
    _middleware_chain (loaded conf_with_unused_stage true) = Some c
    /\ stage_paths c = ["A"; "B"]
    /\ innermost c = true
    /\ contained c = true.
Proof.
  destruct (first_configured_stage_is_outermost conf_with_unused_stage true fresh
              (snd (load_middleware conf_with_unused_stage true fresh)) eq_refl)
    as (c & Hc & Hp & Hi & Hk).
  exists c. split; [exact Hc|]. split; [rewrite Hp; reflexivity|].
  split; [exact Hi | exact Hk].
Defined.

(** X4 on a composed handler: the blocking dispatch engine adapted for a
    cooperative pipeline. *)
Lemma adapt_method_mode_reaches_mode_witness :
  exists method' b',
    adapt_method_mode true (GetResponse false : chain unit) None true None fresh
    = (Ok method', b')
    /\ iscoroutinefunction method' = true
    /\ self b' = self fresh.
Proof.
  destruct (@adapt_method_mode_reaches_mode unit (chain unit) chain_callable
              (fun _ => eq_refl) (fun _ => eq_refl)
              true (GetResponse false) true None fresh)
    as (method' & b' & H & Hmode & Hself & _).
  exists method', b'. split; [exact H|]. split; [exact Hmode | exact Hself].
Defined.

(** X5 on a sample configuration: the view is wrapped for [default] and
    [archive], not for [audit], which it excludes, nor for [replica]. *)
Lemma make_view_atomic_wraps_selected_aliases_witness :
  make_view_atomic conf_four_databases view_skipping_audit
  = Ok (tagged_atomic "archive" (tagged_atomic "default" view_skipping_audit)).
Proof.
  destruct (make_view_atomic_wraps_selected_aliases conf_four_databases
              view_skipping_audit) as [_ H].
  rewrite H; [reflexivity | reflexivity |].
  intros alias v Hv. exact Hv.
Defined.

(** X7 on a sample application: the view raises, the on-fault hook of B
    declines and that of A answers. *)
Lemma view_exception_goes_to_exception_hooks_witness :
  fst (_get_response conf_exception_hooks (loaded conf_exception_hooks false)
         sample_request initial_state)
  = Ok (PResp (plain_response 500)).
Proof.
  edestruct (view_exception_goes_to_exception_hooks conf_exception_hooks
               (loaded conf_exception_hooks false) sample_request initial_state
               (sample_view "detail" false (raises key_error), [], []))
    as [_ H].
  - eexists. split; [reflexivity|]. constructor.
  - reflexivity.
  - reflexivity.
  - edestruct (H [exception_hook_returning "B" PNone]
                 (exception_hook_returning "A" (PResp (plain_response 500))) [])
      as [Hanswer _].
    + reflexivity.
    + eapply decline_cons; [reflexivity|]. apply decline_nil.
    + edestruct (Hanswer (PResp (plain_response 500))) as [Hs _].
      * reflexivity.
      * reflexivity.
      * rewrite Hs. reflexivity.
Defined.

(** X8 on a sample application: the post-render hook of B hands the response
    on, that of A hands back [None]. *)
Lemma post_render_hook_must_return_response_witness :
  fst (_get_response conf_template_hook_None (loaded conf_template_hook_None false)
         sample_request initial_state)
  = Raise (mkExn ValueError
             "A.process_template_response didn't return an HttpResponse object. It returned None instead.").
Proof.
  edestruct (post_render_hook_must_return_response conf_template_hook_None
               (loaded conf_template_hook_None false) sample_request initial_state
               (sample_view "index" false (returns (PResp page)), [], []))
    as (Hs & _).
  - eexists. split; [reflexivity|]. constructor.
  - reflexivity.
  - reflexivity.
  - reflexivity.
  - instantiate (3 := [echo_template_hook "B"]).
    instantiate (2 := forgetful_template_hook "A").
    instantiate (1 := []). reflexivity.
  - eapply piped_cons; [reflexivity|]. apply piped_nil.
  - reflexivity.
  - reflexivity.
  - rewrite Hs. reflexivity.
Defined.

(** X9 on a sample application: rendering fails, the on-fault hook of B
    declines and that of A answers. *)
Lemma render_exception_goes_to_exception_hooks_witness :
  fst (_get_response conf_render_fails (loaded conf_render_fails false)
         sample_request initial_state)
  = Ok (PResp (plain_response 500)).
Proof.
  edestruct (render_exception_goes_to_exception_hooks conf_render_fails
               (loaded conf_render_fails false) sample_request initial_state
               (sample_view "index" false (returns (PResp broken_page)), [], []))
    as [_ H].
  - eexists. split; [reflexivity|]. constructor.
  - reflexivity.
  - reflexivity.
  - reflexivity.
  - apply piped_nil.
  - reflexivity.
  - edestruct (H [exception_hook_returning "B" PNone]
                 (exception_hook_returning "A" (PResp (plain_response 500))) [])
      as [Hs _].
    + reflexivity.
    + eapply decline_cons; [reflexivity|]. apply decline_nil.
    + reflexivity.
    + reflexivity.
    + rewrite Hs. reflexivity.
Defined.

(** X10 on a sample project: the request carries the URLconf [tenant.urls],
    and the 404 page is that URLconf's. *)
Lemma resolution_404_uses_request_urlconf_witness :
  exists s',
    call_chain conf_tenant new_handler (Converted (GetResponse false))
      tenant_request initial_state
    = (Ok (PResp tenant_404), s')
    /\ urlconf s' = Some "tenant.urls".
Proof.
  eexists. split.
  - apply (resolution_404_uses_request_urlconf conf_tenant new_handler false
             tenant_request (Some "tenant.urls") not_found initial_state
             (fun _ _ => returns (PResp tenant_404)) tenant_404 tt);
      reflexivity.
  - reflexivity.
Defined.

(** X11 on a sample application: an exception of the application's own. *)
Lemma got_request_exception_sent_at_most_once_witness :
  got_request_exception
    (snd (response_for_exception conf_default sample_request key_error initial_state))
  = 1%nat.
Proof.
  destruct (got_request_exception_sent_at_most_once conf_default sample_request
              key_error initial_state) as (_ & H & _).
  apply H. reflexivity.
Defined.

(** X12 on a sample application: an [Http404]. *)
Lemma http404_is_answered_quietly_witness :
  logs (snd (response_for_exception conf_default sample_request not_found
               initial_state))
  = [].
Proof.
  destruct (http404_is_answered_quietly conf_default sample_request not_found
              initial_state eq_refl) as (H & _).
  exact H.
Defined.

(** * [LimitedStream] *)

Section LimitedStreamProperties.

Variable Stream : Type.
Variable stream_read : Z -> M Stream wsgi.bytes.
Variable stream_readline : Z -> M Stream wsgi.bytes.

(** What a file-like object promises: a call with a count hands back at most
    that many bytes. *)
Hypothesis read_at_most : forall size st data st',
  0 <= size -> stream_read size st = (Ok data, st') -> wsgi.len data <= size.
Hypothesis readline_at_most : forall size st data st',
  0 <= size -> stream_readline size st = (Ok data, st') -> wsgi.len data <= size.

Lemma clipped_bounds size pos lim :
  wsgi.valid_size size = true -> pos < lim ->
  0 <= wsgi.clipped size pos lim <= lim - pos.
Proof.
  unfold wsgi.clipped, wsgi.valid_size. destruct size as [n|]; [|lia].
  intros Hv Hlt. apply Z.leb_le in Hv.
  destruct (n =? -1) eqn:E; [lia|]. apply Z.eqb_neq in E. lia.
Qed.

Lemma run_call_exhausted c (self : wsgi.LimitedStream Stream) :
  wsgi.limit self <= wsgi._pos self ->
  wsgi.run_call _ stream_read stream_readline c self = (Ok [], self).
Proof.
  intros Hle. apply Z.geb_le in Hle.
  destruct c; cbn; unfold wsgi.read, wsgi.readline, bind, gets;
    now rewrite Hle.
Qed.

Lemma run_call_step c (self : wsgi.LimitedStream Stream) r self' :
  wsgi.valid_size (wsgi.size_of c) = true ->
  wsgi.run_call _ stream_read stream_readline c self = (r, self') ->
  wsgi.limit self' = wsgi.limit self
  /\ wsgi._pos self <= wsgi._pos self'
  /\ wsgi._pos self' <= Z.max (wsgi._pos self) (wsgi.limit self)
  /\ (forall data, r = Ok data ->
                   wsgi._pos self' = wsgi._pos self + wsgi.len data).
Proof.
  intros Hv.
  assert (Hgen : forall (op : Z -> M Stream wsgi.bytes),
    (forall size st data st',
        0 <= size -> op size st = (Ok data, st') -> wsgi.len data <= size) ->
    forall size, wsgi.valid_size size = true ->
    (pos <- gets wsgi._pos ;;
     lim <- gets wsgi.limit ;;
     if pos >=? lim then ret []
     else
       data <- wsgi.on_stream Stream (op (wsgi.clipped size pos lim)) ;;
       wsgi.advance Stream (wsgi.len data) ;;
       ret data) self = (r, self') ->
    wsgi.limit self' = wsgi.limit self
    /\ wsgi._pos self <= wsgi._pos self'
    /\ wsgi._pos self' <= Z.max (wsgi._pos self) (wsgi.limit self)
    /\ (forall data, r = Ok data ->
                     wsgi._pos self' = wsgi._pos self + wsgi.len data)).
  { intros op Hop size Hsize. unfold bind, gets.
    destruct (wsgi._pos self >=? wsgi.limit self) eqn:E.
    - intros H; injection H as <- <-. repeat split; try lia.
      intros data H; injection H as <-. cbn. lia.
    - assert (Hlt : wsgi._pos self < wsgi.limit self).
      { destruct (Z.geb_spec (wsgi._pos self) (wsgi.limit self)); [discriminate|lia]. }
      pose proof (clipped_bounds size _ _ Hsize Hlt) as Hc.
      unfold wsgi.on_stream.
      destruct (op (wsgi.clipped size (wsgi._pos self) (wsgi.limit self))
                  (wsgi.stream self)) as [[data|e] st] eqn:Hcall.
      + apply Hop in Hcall; [|lia].
        unfold wsgi.advance, modify, ret. cbn.
        intros H; injection H as <- <-. cbn.
        assert (0 <= wsgi.len data) by (unfold wsgi.len; lia).
        repeat split; try lia.
        intros d H0; injection H0 as <-. reflexivity.
      + intros H; injection H as <- <-. cbn. repeat split; try lia.
        discriminate. }
  destruct c as [size|size]; cbn in Hv |- *.
  - apply (Hgen stream_read read_at_most size Hv).
  - apply (Hgen stream_readline readline_at_most size Hv).
Qed.

Lemma len_app (a b : wsgi.bytes) : wsgi.len (a ++ b)%list = wsgi.len a + wsgi.len b.
Proof. unfold wsgi.len. rewrite length_app. lia. Qed.

(** Over calls with a valid size, [_pos] only grows, stays within [limit]
    and counts the bytes handed back. *)
Lemma run_calls_within_limit cs : forall (self : wsgi.LimitedStream Stream) r self',
  Forall (fun c => wsgi.valid_size (wsgi.size_of c) = true) cs ->
  wsgi.run_calls _ stream_read stream_readline cs self = (r, self') ->
  wsgi.limit self' = wsgi.limit self
  /\ wsgi._pos self <= wsgi._pos self'
  /\ wsgi._pos self' <= Z.max (wsgi._pos self) (wsgi.limit self)
  /\ (forall datas,
        r = Ok datas ->
        wsgi._pos self' = wsgi._pos self + wsgi.len (concat datas)).
Proof.
  intros self r self' Hv. revert self r self'.
  induction Hv as [|c cs Hc _ IH]; intros self r self' Hrun.
  - cbn in Hrun. unfold ret in Hrun. injection Hrun as <- <-.
    repeat split; try lia. intros datas H; injection H as <-. cbn. lia.
  - cbn [wsgi.run_calls] in Hrun. unfold bind at 1 in Hrun.
    destruct (wsgi.run_call _ stream_read stream_readline c self)
      as [[data|e] s1] eqn:Hcall.
    + destruct (run_call_step _ _ _ _ Hc Hcall) as (Hl & Hlo & Hhi & Hpos).
      specialize (Hpos data eq_refl).
      unfold bind in Hrun.
      destruct (wsgi.run_calls _ stream_read stream_readline cs s1)
        as [[datas|e] s2] eqn:Hrest.
      * destruct (IH _ _ _ Hrest) as (Hl2 & Hlo2 & Hhi2 & Hpos2).
        specialize (Hpos2 datas eq_refl).
        unfold ret in Hrun. injection Hrun as <- <-.
        repeat split; try lia.
        intros ds H; injection H as <-. cbn [concat]. rewrite len_app. lia.
      * destruct (IH _ _ _ Hrest) as (Hl2 & Hlo2 & Hhi2 & _).
        injection Hrun as <- <-. repeat split; try lia. discriminate.
    + destruct (run_call_step _ _ _ _ Hc Hcall) as (Hl & Hlo & Hhi & _).
      injection Hrun as <- <-. repeat split; try lia. discriminate.
Qed.

(** X13.  [LimitedStream] does not let its caller read the wrapped stream
    past [limit]: over any calls of [read] and [readline] with a size of
    [None], [-1] or a count, [_pos] only grows and never passes [limit],
    and it counts the bytes handed back, so a fresh stream hands back at
    most [limit] bytes in all.  Once [_pos] has reached [limit], a call,
    whatever its size, hands back [b""] and leaves the wrapped stream
    alone. *)
Theorem limited_stream_stays_within_limit
    cs (self : wsgi.LimitedStream Stream) r self' :
  Forall (fun c => wsgi.valid_size (wsgi.size_of c) = true) cs ->
  wsgi.run_calls _ stream_read stream_readline cs self = (r, self') ->
  wsgi.limit self' = wsgi.limit self
  /\ wsgi._pos self <= wsgi._pos self'
  /\ wsgi._pos self' <= Z.max (wsgi._pos self) (wsgi.limit self)
  /\ (forall datas,
        r = Ok datas ->
        wsgi._pos self' = wsgi._pos self + wsgi.len (concat datas))
  /\ (wsgi.limit self' <= wsgi._pos self' ->
      forall c, wsgi.run_call _ stream_read stream_readline c self' = (Ok [], self')).
Proof.
  intros Hv Hrun.
  destruct (run_calls_within_limit cs self r self' Hv Hrun) as (H1 & H2 & H3 & H4).
  repeat split; try assumption.
  intros Hle c. now apply run_call_exhausted.
Qed.

End LimitedStreamProperties.

Section LimitedStreamContent.

Variable Stream : Type.
Variable stream_read : Z -> M Stream wsgi.bytes.
Variable stream_readline : Z -> M Stream wsgi.bytes.

(** The bytes the wrapped stream still holds. *)
Variable content : Stream -> wsgi.bytes.

Hypothesis read_at_most : forall size st data st',
  0 <= size -> stream_read size st = (Ok data, st') -> wsgi.len data <= size.
Hypothesis readline_at_most : forall size st data st',
  0 <= size -> stream_readline size st = (Ok data, st') -> wsgi.len data <= size.

(** A call that succeeds hands back the next bytes of the stream. *)
Hypothesis read_next : forall size st data st',
  stream_read size st = (Ok data, st') -> content st = (data ++ content st')%list.
Hypothesis readline_next : forall size st data st',
  stream_readline size st = (Ok data, st') -> content st = (data ++ content st')%list.

Lemma run_call_next c (self : wsgi.LimitedStream Stream) data self' :
  wsgi.run_call _ stream_read stream_readline c self = (Ok data, self') ->
  content (wsgi.stream self) = (data ++ content (wsgi.stream self'))%list.
Proof.
  assert (Hgen : forall (op : Z -> M Stream wsgi.bytes),
    (forall size st data st',
        op size st = (Ok data, st') -> content st = (data ++ content st')%list) ->
    forall size,
    (pos <- gets wsgi._pos ;;
     lim <- gets wsgi.limit ;;
     if pos >=? lim then ret []
     else
       data <- wsgi.on_stream Stream (op (wsgi.clipped size pos lim)) ;;
       wsgi.advance Stream (wsgi.len data) ;;
       ret data) self = (Ok data, self') ->
    content (wsgi.stream self) = (data ++ content (wsgi.stream self'))%list).
  { intros op Hop size. unfold bind, gets.
    destruct (wsgi._pos self >=? wsgi.limit self).
    - intros H; injection H as <- <-. reflexivity.
    - unfold wsgi.on_stream.
      destruct (op (wsgi.clipped size (wsgi._pos self) (wsgi.limit self))
                  (wsgi.stream self)) as [[d|e] st] eqn:Hcall; [|discriminate].
      unfold wsgi.advance, modify, ret. cbn.
      intros H; injection H as <- <-. cbn. eapply Hop. exact Hcall. }
  destruct c as [size|size]; cbn.
  - apply (Hgen stream_read read_next).
  - apply (Hgen stream_readline readline_next).
Qed.

Lemma run_calls_next cs : forall (self : wsgi.LimitedStream Stream) datas self',
  wsgi.run_calls _ stream_read stream_readline cs self = (Ok datas, self') ->
  content (wsgi.stream self)
  = (concat datas ++ content (wsgi.stream self'))%list.
Proof.
  induction cs as [|c cs IH]; intros self datas self' Hrun.
  - cbn in Hrun. unfold ret in Hrun. injection Hrun as <- <-. reflexivity.
  - cbn [wsgi.run_calls] in Hrun. unfold bind at 1 in Hrun.
    destruct (wsgi.run_call _ stream_read stream_readline c self)
      as [[data|e] s1] eqn:Hcall; [|discriminate].
    unfold bind in Hrun.
    destruct (wsgi.run_calls _ stream_read stream_readline cs s1)
      as [[ds|e] s2] eqn:Hrest; [|discriminate].
    unfold ret in Hrun. injection Hrun as <- <-.
    rewrite (run_call_next _ _ _ _ Hcall), (IH _ _ _ Hrest).
    cbn [concat]. now rewrite app_assoc.
Qed.

Lemma firstn_len_app (a b : wsgi.bytes) :
  firstn (Z.to_nat (wsgi.len a)) (a ++ b) = a.
Proof.
  unfold wsgi.len. rewrite Nat2Z.id.
  rewrite firstn_app, Nat.sub_diag, firstn_all. cbn. apply app_nil_r.
Qed.

(** X14.  What a caller gets out of a fresh [LimitedStream], over any calls
    of [read] and [readline] that succeed, is the beginning of what the
    wrapped stream held, [_pos] bytes of it and so never a byte past the
    first [limit] bytes; the wrapped stream is left holding the rest.  When
    the wrapped stream hands back all it is asked for, [read()] hands back
    the first [limit] bytes at once. *)
Theorem limited_stream_hands_back_prefix cs st lim datas self' :
  Forall (fun c => wsgi.valid_size (wsgi.size_of c) = true) cs ->
  wsgi.run_calls _ stream_read stream_readline cs (wsgi.__init__ st lim)
  = (Ok datas, self') ->
  concat datas = firstn (Z.to_nat (wsgi._pos self')) (content st)
  /\ content (wsgi.stream self')
     = skipn (Z.to_nat (wsgi._pos self')) (content st)
  /\ wsgi._pos self' <= Z.max 0 lim
  /\ ((forall n s, 0 <= n ->
         fst (stream_read n s) = Ok (firstn (Z.to_nat n) (content s))) ->
      forall size, size = None \/ size = Some (-1) ->
        fst (wsgi.read _ stream_read size (wsgi.__init__ st lim))
        = Ok (firstn (Z.to_nat lim) (content st))).
Proof.
  intros Hv Hrun.
  destruct (run_calls_within_limit Stream stream_read stream_readline
              read_at_most readline_at_most cs _ _ _ Hv Hrun)
    as (_ & _ & Hhi & Hpos).
  specialize (Hpos datas eq_refl). cbn [wsgi.__init__ wsgi._pos wsgi.limit] in *.
  pose proof (run_calls_next _ _ _ _ Hrun) as Hc. cbn [wsgi.__init__ wsgi.stream] in Hc.
  rewrite Hpos, Z.add_0_l, Hc.
  split; [symmetry; apply firstn_len_app|].
  split.
  { unfold wsgi.len. rewrite Nat2Z.id.
    rewrite skipn_app, Nat.sub_diag, skipn_all. reflexivity. }
  split; [lia|].
  intros Hexact size Hsize. unfold wsgi.read, bind, gets. cbn.
  destruct (0 >=? lim) eqn:E.
  - apply Z.geb_le in E.
    replace (Z.to_nat lim) with 0%nat by lia. reflexivity.
  - assert (Hlt : 0 < lim).
    { destruct (Z.geb_spec 0 lim); [discriminate | lia]. }
    assert (Hclip : wsgi.clipped size 0 lim = lim).
    { destruct Hsize as [-> | ->]; cbn; lia. }
    rewrite Hclip. unfold wsgi.on_stream. cbn.
    pose proof (Hexact lim st ltac:(lia)) as Hread.
    destruct (stream_read lim st) as [[data|e] st1]; cbn in Hread;
      [|discriminate].
    injection Hread as ->. rewrite <- Hc. reflexivity.
Qed.

End LimitedStreamContent.

(** The contracts on an in-memory stream. *)
Lemma BytesIO_read_at_most size st data st' :
  0 <= size -> wsgi.BytesIO_read size st = (Ok data, st') -> wsgi.len data <= size.
Proof.
  intros Hn. unfold wsgi.BytesIO_read.
  destruct (Z.ltb_spec size 0) as [Hneg|Hpos]; [lia|].
  intros H; injection H as <- _. unfold wsgi.len.
  pose proof (firstn_le_length (Z.to_nat size) st). lia.
Qed.

Lemma BytesIO_readline_at_most size st data st' :
  0 <= size -> wsgi.BytesIO_readline size st = (Ok data, st') ->
  wsgi.len data <= size.
Proof.
  intros Hn. unfold wsgi.BytesIO_readline.
  destruct (Z.ltb_spec size 0) as [Hneg|Hpos]; [lia|].
  intros H; injection H as <- _. unfold wsgi.len.
  pose proof (firstn_le_length
                (Nat.min (Z.to_nat size) (wsgi.line_length st)) st). lia.
Qed.

Lemma BytesIO_read_next size (st : wsgi.BytesIO) data st' :
  wsgi.BytesIO_read size st = (Ok data, st') -> st = (data ++ st')%list.
Proof.
  unfold wsgi.BytesIO_read. destruct (size <? 0); intros H; injection H as <- <-.
  - now rewrite app_nil_r.
  - now rewrite firstn_skipn.
Qed.

Lemma BytesIO_readline_next size (st : wsgi.BytesIO) data st' :
  wsgi.BytesIO_readline size st = (Ok data, st') -> st = (data ++ st')%list.
Proof.
  unfold wsgi.BytesIO_readline. intros H; injection H as <- <-.
  now rewrite firstn_skipn.
Qed.

(** X13 on a stream of five bytes with a limit of three: a line, a read of
    two bytes and a read to the end. *)
Lemma limited_stream_stays_within_limit_witness :
  wsgi.run_calls _ wsgi.BytesIO_read wsgi.BytesIO_readline
    [wsgi.call_readline None; wsgi.call_read (Some 2); wsgi.call_read (Some (-1))]
    (wsgi.__init__ [Byte.x47; Byte.x0a; Byte.x45; Byte.x54; Byte.x21] 3)
  = (Ok [[Byte.x47; Byte.x0a]; [Byte.x45]; []],
     wsgi.mkLimitedStream [Byte.x54; Byte.x21] 3 3)
  /\ forall c,
       wsgi.run_call _ wsgi.BytesIO_read wsgi.BytesIO_readline c
         (wsgi.mkLimitedStream [Byte.x54; Byte.x21] 3 3)
       = (Ok [], wsgi.mkLimitedStream [Byte.x54; Byte.x21] 3 3).
Proof.
  split; [reflexivity|].
  edestruct (limited_stream_stays_within_limit wsgi.BytesIO
               wsgi.BytesIO_read wsgi.BytesIO_readline
               BytesIO_read_at_most BytesIO_readline_at_most
               [wsgi.call_readline None; wsgi.call_read (Some 2);
                wsgi.call_read (Some (-1))]
               (wsgi.__init__ [Byte.x47; Byte.x0a; Byte.x45; Byte.x54; Byte.x21] 3)
               (Ok [[Byte.x47; Byte.x0a]; [Byte.x45]; []])
               (wsgi.mkLimitedStream [Byte.x54; Byte.x21] 3 3))
    as (_ & _ & _ & _ & H).
  - repeat constructor.
  - reflexivity.
  - apply H. cbn. lia.
Defined.

(** X14 on the same stream. *)
Lemma limited_stream_hands_back_prefix_witness :
  fst (wsgi.read _ wsgi.BytesIO_read None
         (wsgi.__init__ [Byte.x47; Byte.x0a; Byte.x45; Byte.x54; Byte.x21] 3))
  = Ok [Byte.x47; Byte.x0a; Byte.x45].
Proof.
  destruct (limited_stream_hands_back_prefix wsgi.BytesIO
              wsgi.BytesIO_read wsgi.BytesIO_readline (fun st => st)
              BytesIO_read_at_most BytesIO_readline_at_most
              BytesIO_read_next BytesIO_readline_next
              [] [Byte.x47; Byte.x0a; Byte.x45; Byte.x54; Byte.x21] 3 _ _
              (Forall_nil _) eq_refl)
    as (_ & _ & _ & H).
  apply (H ltac:(intros n s Hn; unfold wsgi.BytesIO_read;
                 destruct (Z.ltb_spec n 0) as [Hneg|Hpos]; [lia | reflexivity])
           None (or_introl eq_refl)).
Defined.

(** * [BaseConnectionHandler] *)

Section ConnectionHandlerProperties.

Variable Conn : Type.
Variable Config : Type.
Variable World : Type.
Variable django_settings : list (string * Config).
Variable create_connection : string -> M World Conn.
Variable close : Conn -> M World unit.

Local Notation "'Handler'" := (connection.BaseConnectionHandler Conn Config World).
Local Notation "'getitem'" :=
  (connection.__getitem__ Conn Config World django_settings create_connection).
Local Notation "'setitem'" := (connection.__setitem__ Conn Config World).
Local Notation "'delitem'" := (connection.__delitem__ Conn Config World).
Local Notation "'all_loop'" :=
  (connection.all_loop Conn Config World django_settings create_connection).
Local Notation "'all_'" :=
  (connection.all Conn Config World django_settings create_connection).
Local Notation "'close_loop'" := (connection.close_loop Conn Config World close).
Local Notation "'close_all'" :=
  (connection.close_all Conn Config World django_settings create_connection close).
Local Notation "'current'" := (connection.current_settings django_settings).
Local Notation "'accessed'" := (connection.with_settings django_settings).

Lemma lookup_remove_same {A : Type} key (d : list (string * A)) :
  connection.lookup key (connection.remove key d) = None.
Proof.
  unfold connection.remove.
  induction d as [|[k v] d IH]; [reflexivity|].
  cbn. destruct (k =? key)%string eqn:E; cbn; [exact IH|]. now rewrite E.
Qed.

Lemma lookup_remove_other {A : Type} key other (d : list (string * A)) :
  other <> key ->
  connection.lookup other (connection.remove key d) = connection.lookup other d.
Proof.
  intros Hne. unfold connection.remove.
  induction d as [|[k v] d IH]; [reflexivity|].
  cbn. destruct (k =? key)%string eqn:E; cbn.
  - apply String.eqb_eq in E. subst k.
    destruct (key =? other)%string eqn:E2; [|exact IH].
    apply String.eqb_eq in E2. congruence.
  - now rewrite IH.
Qed.

Lemma lookup_store_same {A : Type} key (v : A) d :
  connection.lookup key (connection.store key v d) = Some v.
Proof. unfold connection.store. cbn. now rewrite String.eqb_refl. Qed.

Lemma lookup_store_other {A : Type} key other (v : A) d :
  other <> key ->
  connection.lookup other (connection.store key v d) = connection.lookup other d.
Proof.
  intros Hne. unfold connection.store. cbn.
  destruct (key =? other)%string eqn:E.
  - apply String.eqb_eq in E. congruence.
  - now apply lookup_remove_other.
Qed.

Lemma lookup_app {A : Type} key (own stored : list (string * A)) :
  connection.lookup key (own ++ stored)%list
  = match connection.lookup key own with
    | Some v => Some v
    | None => connection.lookup key stored
    end.
Proof.
  induction own as [|[k v] own IH]; [reflexivity|].
  cbn. destruct (k =? key)%string; [reflexivity | exact IH].
Qed.

(** A name that attribute access does not find is neither a name of the
    [Local] itself nor a stored one. *)
Lemma lookup_connections_None key (h : Handler) :
  connection.lookup key (connection._connections h) = None ->
  connection.lookup key (connection.Local_own h) = None
  /\ connection.lookup key (connection.Local_stored h) = None.
Proof.
  unfold connection._connections. rewrite lookup_app.
  destruct (connection.lookup key (connection.Local_own h)); [discriminate|].
  auto.
Qed.

Lemma lookup_own_store_same {A : Type} key (v : A) own stored :
  connection.lookup key own = None ->
  connection.lookup key (own ++ connection.store key v stored)%list = Some v.
Proof. intros H. now rewrite lookup_app, H, lookup_store_same. Qed.

Lemma lookup_own_store_other {A : Type} key other (v : A) own stored :
  other <> key ->
  connection.lookup other (own ++ connection.store key v stored)%list
  = connection.lookup other (own ++ stored)%list.
Proof. intros H. now rewrite !lookup_app, lookup_store_other. Qed.

Lemma lookup_own_remove_same {A : Type} key (own stored : list (string * A)) :
  connection.lookup key own = None ->
  connection.lookup key (own ++ connection.remove key stored)%list = None.
Proof. intros H. now rewrite lookup_app, H, lookup_remove_same. Qed.

Lemma lookup_own_remove_other {A : Type} key other (own stored : list (string * A)) :
  other <> key ->
  connection.lookup other (own ++ connection.remove key stored)%list
  = connection.lookup other (own ++ stored)%list.
Proof. intros H. now rewrite !lookup_app, lookup_remove_other. Qed.

Lemma settings_access (h : Handler) :
  connection.settings Conn Config World django_settings h
  = (Ok (current h), accessed h).
Proof.
  unfold connection.settings, connection.current_settings,
    connection.with_settings, bind, gets.
  destruct (connection.settings_cached h); reflexivity.
Qed.

Lemma accessed_frame (h : Handler) :
  connection._connections (accessed h) = connection._connections h
  /\ connection.calls (accessed h) = connection.calls h
  /\ connection.world (accessed h) = connection.world h
  /\ current (accessed h) = current h
  /\ accessed (accessed h) = accessed h.
Proof.
  unfold connection.with_settings, connection.current_settings,
    connection._connections.
  destruct (connection.settings_cached h) eqn:E; cbn; rewrite ?E; auto.
Qed.

Lemma accessed_Local (h : Handler) :
  connection.Local_own (accessed h) = connection.Local_own h
  /\ connection.Local_stored (accessed h) = connection.Local_stored h.
Proof.
  unfold connection.with_settings.
  destruct (connection.settings_cached h); auto.
Qed.

Lemma getitem_initialized alias (h : Handler) conn :
  connection.lookup alias (connection._connections h) = Some conn ->
  getitem alias h = (Ok conn, h).
Proof.
  intros Hl. unfold connection.__getitem__, bind, gets. now rewrite Hl.
Qed.

Lemma getitem_unknown alias (h : Handler) :
  connection.lookup alias (connection._connections h) = None ->
  connection.contains alias (current h) = false ->
  getitem alias h
  = (Raise (mkExn connection.ConnectionDoesNotExist
              ("The connection '" ++ alias ++ "' doesn't exist.")),
     accessed h).
Proof.
  intros Hl Hc. unfold connection.__getitem__.
  unfold bind at 1, gets. rewrite Hl.
  unfold bind at 1. rewrite settings_access. rewrite Hc. reflexivity.
Qed.

Lemma getitem_configured alias (h : Handler) :
  connection.lookup alias (connection._connections h) = None ->
  connection.contains alias (current h) = true ->
  getitem alias h
  = match create_connection alias (connection.world h) with
    | (Ok conn, w) =>
        (Ok conn,
         connection.mkBaseConnectionHandler
           (connection._settings (accessed h))
           (connection.settings_cached (accessed h))
           (connection.Local_own h)
           (connection.store alias conn (connection.Local_stored h))
           (connection.calls h ++ [connection.created alias])%list w)
    | (Raise e, w) =>
        (Raise e,
         connection.mkBaseConnectionHandler
           (connection._settings (accessed h))
           (connection.settings_cached (accessed h))
           (connection.Local_own h) (connection.Local_stored h)
           (connection.calls h ++ [connection.created alias])%list w)
    end.
Proof.
  intros Hl Hc. unfold connection.__getitem__.
  unfold bind at 1, gets. rewrite Hl.
  unfold bind at 1. rewrite settings_access. rewrite Hc. cbn [negb].
  unfold bind at 1, ret. unfold bind at 1, connection.on_world.
  destruct (accessed_frame h) as (_ & H2 & H3 & _). rewrite H2, H3.
  destruct (accessed_Local h) as (H4 & H5).
  destruct (create_connection alias (connection.world h)) as [[conn|e] w];
    unfold bind, connection.setattr_connections, modify, ret; cbn;
    rewrite ?H4, ?H5; reflexivity.
Qed.

(** X15.  A connection is created at the first access of its alias and kept:
    [handler[alias]] calls [create_connection] once, hands back what it
    gives, and hands back the same connection at the next access without
    creating anything; the connections of the other aliases are left as
    they are. *)
Theorem connection_is_created_once alias (h : Handler) conn w :
  connection.lookup alias (connection._connections h) = None ->
  connection.contains alias (current h) = true ->
  create_connection alias (connection.world h) = (Ok conn, w) ->
  exists h1,
    getitem alias h = (Ok conn, h1)
    /\ connection.calls h1 = (connection.calls h ++ [connection.created alias])%list
    /\ connection.world h1 = w
    /\ getitem alias h1 = (Ok conn, h1)
    /\ forall other,
         other <> alias ->
         connection.lookup other (connection._connections h1)
         = connection.lookup other (connection._connections h).
Proof.
  intros Hl Hc Hcreate. eexists.
  rewrite (getitem_configured _ _ Hl Hc), Hcreate.
  split; [reflexivity|]. split; [reflexivity|]. split; [reflexivity|].
  destruct (lookup_connections_None _ _ Hl) as [Hown _].
  split.
  - apply getitem_initialized. unfold connection._connections.
    cbn [connection.Local_own connection.Local_stored].
    now apply lookup_own_store_same.
  - intros other Hne. unfold connection._connections.
    cbn [connection.Local_own connection.Local_stored].
    now apply lookup_own_store_other.
Qed.

(** X16.  An access that fails stores nothing.  For an alias that attribute
    access on the [Local] does not find (it was not stored, and it is no
    name of the [Local] itself) and that is not in the settings,
    [handler[alias]] raises [ConnectionDoesNotExist] with the alias in its
    message and does not call [create_connection]; when [create_connection]
    raises for a configured alias, its exception is what the caller gets,
    and the alias is still not initialized. *)
Theorem failed_access_stores_nothing alias (h : Handler) :
  connection.lookup alias (connection._connections h) = None ->
  (connection.contains alias (current h) = false ->
   exists h1,
     getitem alias h
     = (Raise (mkExn connection.ConnectionDoesNotExist
                 ("The connection '" ++ alias ++ "' doesn't exist.")), h1)
     /\ connection._connections h1 = connection._connections h
     /\ connection.calls h1 = connection.calls h
     /\ connection.world h1 = connection.world h)
  /\ (connection.contains alias (current h) = true ->
      forall e w,
        create_connection alias (connection.world h) = (Raise e, w) ->
        exists h1,
          getitem alias h = (Raise e, h1)
          /\ connection._connections h1 = connection._connections h
          /\ connection.calls h1
             = (connection.calls h ++ [connection.created alias])%list).
Proof.
  intros Hl. split.
  - intros Hc. eexists. rewrite (getitem_unknown _ _ Hl Hc).
    destruct (accessed_frame h) as (H1 & H2 & H3 & _). auto.
  - intros Hc e w Hcreate. eexists.
    rewrite (getitem_configured _ _ Hl Hc), Hcreate.
    split; [reflexivity|]. split; reflexivity.
Qed.

Lemma delitem_initialized key (h : Handler) conn :
  connection.lookup key (connection.Local_stored h) = Some conn ->
  delitem key h
  = (Ok tt,
     connection.mkBaseConnectionHandler (connection._settings h)
       (connection.settings_cached h) (connection.Local_own h)
       (connection.remove key (connection.Local_stored h))
       (connection.calls h) (connection.world h)).
Proof.
  intros Hl. unfold connection.__delitem__, bind, gets, connection.contains.
  now rewrite Hl.
Qed.

(** X17.  For a key that is not the name of an attribute the [Local] has of
    itself, what is stored under the key is what an access of that key
    hands back, without a call of [create_connection] and whether or not
    the key is in the settings; the other keys are not touched, and
    deleting the key makes it uninitialized again.  A name of the [Local]
    itself is answered with that attribute, and nothing is created for it.
    Deleting a key that is not initialized raises [AttributeError]. *)
Theorem stored_connection_is_handed_back key value (h : Handler) :
  (connection.lookup key (connection.Local_own h) = None ->
   exists h1,
     setitem key value h = (Ok tt, h1)
     /\ getitem key h1 = (Ok value, h1)
     /\ connection.calls h1 = connection.calls h
     /\ (forall other,
           other <> key ->
           connection.lookup other (connection._connections h1)
           = connection.lookup other (connection._connections h))
     /\ exists h2,
          delitem key h1 = (Ok tt, h2)
          /\ connection.lookup key (connection._connections h2) = None
          /\ forall other,
               other <> key ->
               connection.lookup other (connection._connections h2)
               = connection.lookup other (connection._connections h))
  /\ (forall attribute,
        connection.lookup key (connection.Local_own h) = Some attribute ->
        getitem key h = (Ok attribute, h))
  /\ (connection.lookup key (connection._connections h) = None ->
      exists msg, delitem key h = (Raise (mkExn AttributeError msg), h)).
Proof.
  split; [|split].
  - intros Hown. eexists. split; [reflexivity|].
    cbn [connection.calls].
    split.
    { apply getitem_initialized. unfold connection._connections.
      cbn [connection.Local_own connection.Local_stored].
      now apply lookup_own_store_same. }
    split; [reflexivity|]. split.
    { intros other Hne. unfold connection._connections.
      cbn [connection.Local_own connection.Local_stored].
      now apply lookup_own_store_other. }
    eexists. split.
    { eapply delitem_initialized.
      cbn [connection.Local_stored]. apply lookup_store_same. }
    unfold connection._connections.
    cbn [connection.Local_own connection.Local_stored].
    split; [now apply lookup_own_remove_same|].
    intros other Hne. rewrite lookup_own_remove_other by exact Hne.
    now apply lookup_own_store_other.
  - intros attribute Hown. apply getitem_initialized.
    unfold connection._connections. now rewrite lookup_app, Hown.
  - intros Hl. exists key.
    destruct (lookup_connections_None _ _ Hl) as [_ Hstored].
    unfold connection.__delitem__, bind, gets, connection.contains.
    now rewrite Hstored.
Qed.

Lemma all_loop_initialized_only aliases : forall (h : Handler),
  all_loop true aliases h
  = (Ok (choose (fun alias => connection.lookup alias (connection._connections h))
           aliases), h).
Proof.
  induction aliases as [|alias rest IH]; intros h; [reflexivity|].
  cbn [connection.all_loop choose]. unfold bind at 1, gets. cbn [negb orb].
  unfold connection.contains.
  destruct (connection.lookup alias (connection._connections h)) as [conn|] eqn:Hl.
  - unfold bind at 1. rewrite (getitem_initialized _ _ _ Hl).
    unfold bind. now rewrite IH.
  - apply IH.
Qed.

Lemma all_initialized_only (h : Handler) :
  all_ true h = (Ok (connection.initialized django_settings h), accessed h).
Proof.
  unfold connection.all, connection.__iter__.
  unfold bind at 1. unfold bind at 1. rewrite settings_access.
  unfold ret. rewrite all_loop_initialized_only.
  destruct (accessed_frame h) as (H1 & _). unfold connection.initialized.
  now rewrite H1.
Qed.

Lemma close_loop_calls conns : forall (h : Handler) r h',
  close_loop conns h = (r, h') ->
  connection._connections h' = connection._connections h
  /\ connection.settings_cached h' = connection.settings_cached h
  /\ exists closed_conns rest,
       conns = (closed_conns ++ rest)%list
       /\ connection.calls h'
          = (connection.calls h ++ map connection.closed closed_conns)%list
       /\ (r = Ok tt -> rest = []).
Proof.
  induction conns as [|conn conns IH]; intros h r h' Hrun.
  - cbn in Hrun. unfold ret in Hrun. injection Hrun as <- <-.
    split; [reflexivity|]. split; [reflexivity|].
    exists [], []. cbn. rewrite app_nil_r. auto.
  - cbn [connection.close_loop] in Hrun. unfold bind, connection.on_world in Hrun.
    destruct (close conn (connection.world h)) as [[[]|e] w].
    + destruct (IH _ _ _ Hrun) as (H1 & H2 & closed_conns & rest & Hs & Hc & Hr).
      cbn in H1, H2, Hc.
      split; [exact H1|]. split; [exact H2|].
      exists (conn :: closed_conns), rest. cbn. rewrite Hs, Hc, <- app_assoc.
      auto.
    + injection Hrun as <- <-. cbn.
      split; [reflexivity|]. split; [reflexivity|].
      exists [conn], conns. cbn. split; [reflexivity|]. split; [reflexivity|].
      discriminate.
Qed.


Lemma getitem_keeps alias (h : Handler) r h1 :
  getitem alias h = (r, h1) ->
  (forall a c,
      connection.lookup a (connection._connections h) = Some c ->
      connection.lookup a (connection._connections h1) = Some c)
  /\ (forall conn, r = Ok conn ->
                   connection.lookup alias (connection._connections h1) = Some conn)
  /\ (forall s, connection.settings_cached h = Some s ->
                connection.settings_cached h1 = Some s).
Proof.
  destruct (connection.lookup alias (connection._connections h)) as [conn|] eqn:Hl.
  - rewrite (getitem_initialized _ _ _ Hl). intros H; injection H as <- <-.
    split; [auto|]. split; [|auto]. intros c H; injection H as <-. exact Hl.
  - assert (Hcached : forall s, connection.settings_cached h = Some s ->
                                connection.settings_cached (accessed h) = Some s).
    { intros s Hs. unfold connection.with_settings. now rewrite Hs. }
    destruct (connection.contains alias (current h)) eqn:Hc.
    + rewrite (getitem_configured _ _ Hl Hc).
      destruct (create_connection alias (connection.world h)) as [[conn|e] w];
        intros H; injection H as <- <-;
        cbn [connection._connections connection.settings_cached].
      * destruct (lookup_connections_None _ _ Hl) as [Hown _].
        unfold connection._connections in *.
        cbn [connection.Local_own connection.Local_stored].
        split; [|split; [|exact Hcached]].
        -- intros a c Ha.
           destruct (String.eqb_spec a alias) as [->|Hne]; [congruence|].
           now rewrite lookup_own_store_other.
        -- intros c H; injection H as <-. now apply lookup_own_store_same.
      * split; [auto|]. split; [discriminate | exact Hcached].
    + rewrite (getitem_unknown _ _ Hl Hc). intros H; injection H as <- <-.
      destruct (accessed_frame h) as (H1 & _). rewrite H1.
      split; [auto|]. split; [discriminate | exact Hcached].
Qed.

Lemma all_loop_keeps initialized_only aliases : forall (h : Handler) r h',
  all_loop initialized_only aliases h = (r, h') ->
  (forall a c,
      connection.lookup a (connection._connections h) = Some c ->
      connection.lookup a (connection._connections h') = Some c)
  /\ (forall s, connection.settings_cached h = Some s ->
                connection.settings_cached h' = Some s)
  /\ (initialized_only = false ->
      forall conns, r = Ok conns ->
        Forall2 (fun a c =>
                   connection.lookup a (connection._connections h') = Some c)
          aliases conns).
Proof.
  induction aliases as [|alias rest IH]; intros h r h' Hrun.
  - cbn in Hrun. unfold ret in Hrun. injection Hrun as <- <-.
    split; [auto|]. split; [auto|].
    intros _ conns H; injection H as <-. constructor.
  - cbn [connection.all_loop] in Hrun. unfold bind at 1, gets in Hrun.
    destruct (negb initialized_only
              || connection.contains alias (connection._connections h)) eqn:Hgo.
    + unfold bind at 1 in Hrun.
      destruct (getitem alias h) as [[conn|e] h1] eqn:Hget.
      * destruct (getitem_keeps _ _ _ _ Hget) as (Hk & Hnew & Hs).
        specialize (Hnew conn eq_refl).
        unfold bind in Hrun.
        destruct (all_loop initialized_only rest h1) as [[conns|e] h2] eqn:Hrest.
        -- destruct (IH _ _ _ Hrest) as (Hk2 & Hs2 & Hall).
           unfold ret in Hrun. injection Hrun as <- <-.
           split; [auto|]. split; [auto|].
           intros Hio cs H; injection H as <-.
           constructor; [auto | now apply Hall].
        -- destruct (IH _ _ _ Hrest) as (Hk2 & Hs2 & _).
           injection Hrun as <- <-.
           split; [auto|]. split; [auto|]. discriminate.
      * destruct (getitem_keeps _ _ _ _ Hget) as (Hk & _ & Hs).
        injection Hrun as <- <-. split; [auto|]. split; [auto|]. discriminate.
    + destruct (IH _ _ _ Hrun) as (Hk & Hs & Hall).
      split; [auto|]. split; [auto|].
      intros -> . discriminate.
Qed.

Lemma all_loop_again initialized_only aliases (h : Handler) conns :
  Forall2 (fun a c => connection.lookup a (connection._connections h) = Some c)
    aliases conns ->
  all_loop initialized_only aliases h = (Ok conns, h).
Proof.
  induction 1 as [|alias conn rest conns Hl _ IH]; [reflexivity|].
  cbn [connection.all_loop]. unfold bind at 1, gets.
  unfold connection.contains. rewrite Hl, orb_true_r.
  unfold bind at 1. rewrite (getitem_initialized _ _ _ Hl).
  unfold bind. now rewrite IH.
Qed.

(** X19.  After [all()] has handed back its list, every configured alias is
    initialized, one connection for each in settings order, and going
    through the connections again, with [all()] or
    [all(initialized_only=True)], hands back the same list and creates
    nothing. *)
Theorem all_initializes_every_alias (h : Handler) conns h' :
  all_ false h = (Ok conns, h') ->
  Forall2 (fun a c => connection.lookup a (connection._connections h') = Some c)
    (connection.keys (current h)) conns
  /\ all_ false h' = (Ok conns, h')
  /\ all_ true h' = (Ok conns, h').
Proof.
  intros Hrun. unfold connection.all, connection.__iter__ in Hrun.
  unfold bind at 1 in Hrun. unfold bind at 1 in Hrun.
  rewrite settings_access in Hrun. unfold ret in Hrun.
  destruct (all_loop_keeps _ _ _ _ _ Hrun) as (_ & Hs & Hall).
  specialize (Hall eq_refl conns eq_refl).
  assert (Hcached : connection.settings_cached h' = Some (current h)).
  { apply Hs. unfold connection.with_settings, connection.current_settings.
    destruct (connection.settings_cached h) eqn:E; [exact E | reflexivity]. }
  assert (Hsettings :
    connection.settings Conn Config World django_settings h'
    = (Ok (current h), h')).
  { rewrite settings_access.
    unfold connection.current_settings, connection.with_settings.
    now rewrite Hcached. }
  split; [exact Hall|].
  assert (Hagain : forall initialized_only, all_ initialized_only h' = (Ok conns, h')).
  { intros initialized_only. unfold connection.all, connection.__iter__.
    unfold bind at 1. unfold bind at 1. rewrite Hsettings. unfold ret.
    now apply all_loop_again. }
  split; apply Hagain.
Qed.

End ConnectionHandlerProperties.

(** X15 on a sample handler: the first access of [default]. *)
Lemma connection_is_created_once_witness :
  exists h1,
    connection.__getitem__ _ _ _ sample_databases sample_create_connection
      "default" sample_connections
    = (Ok ("default", 0%nat), h1)
    /\ connection.calls h1 = [connection.created "default"]
    /\ connection.__getitem__ _ _ _ sample_databases sample_create_connection
         "default" h1
       = (Ok ("default", 0%nat), h1).
Proof.
  destruct (connection_is_created_once _ _ _ sample_databases
              sample_create_connection "default" sample_connections
              ("default", 0%nat) 1%nat eq_refl eq_refl eq_refl)
    as (h1 & Hget & Hcalls & _ & Hagain & _).
  exists h1. split; [exact Hget|]. split; [exact Hcalls | exact Hagain].
Defined.

(** X16 on a sample handler: an alias that is not configured, and one whose
    connection cannot be created. *)
Lemma failed_access_stores_nothing_witness :
  (exists h1,
      connection.__getitem__ _ _ _ sample_databases sample_create_connection
        "other" sample_connections
      = (Raise (mkExn connection.ConnectionDoesNotExist
                  "The connection 'other' doesn't exist."), h1)
      /\ connection.calls h1 = [])
  /\ exists h1,
       connection.__getitem__ _ _ _ sample_databases sample_create_connection
         "replica" sample_connections
       = (Raise (mkExn (Custom "OperationalError" Exception_) "replica is down"),
          h1)
       /\ connection.Local_stored h1 = []
       /\ connection._connections h1 = connection._connections sample_connections.
Proof.
  split.
  - destruct (failed_access_stores_nothing _ _ _ sample_databases
                sample_create_connection "other" sample_connections eq_refl)
      as [H _].
    destruct (H eq_refl) as (h1 & Hget & _ & Hcalls & _).
    exists h1. split; [exact Hget | exact Hcalls].
  - destruct (failed_access_stores_nothing _ _ _ sample_databases
                sample_create_connection "replica" sample_connections eq_refl)
      as [_ H].
    destruct (H eq_refl _ _ eq_refl) as (h1 & Hget & Hconns & _).
    exists h1. split; [exact Hget|]. split; [|exact Hconns].
    assert (E : h1 = snd (connection.__getitem__ _ _ _ sample_databases
                            sample_create_connection "replica" sample_connections))
      by now rewrite Hget.
    rewrite E. reflexivity.
Defined.

(** X17 on a sample handler: a connection stored under a key that is not
    configured, and the name of the class of the [Local]. *)
Lemma stored_connection_is_handed_back_witness :
  (exists h1,
      connection.__setitem__ _ _ _ "scratch" ("scratch", 7%nat) sample_connections
      = (Ok tt, h1)
      /\ connection.__getitem__ _ _ _ sample_databases sample_create_connection
           "scratch" h1
         = (Ok ("scratch", 7%nat), h1))
  /\ connection.__getitem__ _ _ _ sample_databases sample_create_connection
       "__class__" sample_connections
     = (Ok ("Local", 0%nat), sample_connections).
Proof.
  split.
  - destruct (stored_connection_is_handed_back _ _ _ sample_databases
                sample_create_connection "scratch" ("scratch", 7%nat)
                sample_connections)
      as [H _].
    destruct (H eq_refl) as (h1 & Hset & Hget & _).
    exists h1. split; [exact Hset | exact Hget].
  - destruct (stored_connection_is_handed_back _ _ _ sample_databases
                sample_create_connection "__class__" ("scratch", 7%nat)
                sample_connections)
      as (_ & H & _).
    exact (H ("Local", 0%nat) eq_refl).
Defined.


(** X19 on a sample handler whose two aliases can be reached. *)
Lemma all_initializes_every_alias_witness :
  exists h',
    connection.all _ _ _ sample_databases sample_create_connection false
      sample_connections_up
    = (Ok [("default", 0%nat); ("cache", 1%nat)], h')
    /\ connection.all _ _ _ sample_databases sample_create_connection true h'
       = (Ok [("default", 0%nat); ("cache", 1%nat)], h')
    /\ connection.calls h'
       = [connection.created "default"; connection.created "cache"].
Proof.
  eexists. split; [reflexivity|].
  edestruct (all_initializes_every_alias _ _ _ sample_databases
               sample_create_connection sample_connections_up) as (_ & _ & H).
  - reflexivity.
  - split; [exact H | reflexivity].
Defined.

(** * [Node] *)

Section NodeProperties.

Variable Leaf : Type.

Lemma leaves_children (n : tree.Node Leaf) :
  tree.leaves n = flat_map tree.leaves_of (tree.children n).
Proof. destruct n. reflexivity. Qed.

(** X20.  [add] loses no leaf and keeps them in order: the leaves of [self]
    after the call are those it had, followed by those of [data], whichever
    of its three ways the call takes.  Afterwards the connector of [self] is
    [conn_type], and its class and [negated] are what they were.  What is
    returned is [data], which is then the last child of [self], or [self]
    itself once the children of [data], a node that is not negated, were
    appended to its own. *)
Theorem add_keeps_leaves (data : tree.child Leaf) conn_type (self : tree.Node Leaf) :
  let returned := fst (tree.add data conn_type self) in
  let self' := snd (tree.add data conn_type self) in
  tree.leaves self' = (tree.leaves self ++ tree.leaves_of data)%list
  /\ tree.connector self' = conn_type
  /\ tree.negated self' = tree.negated self
  /\ tree.__class__ self' = tree.__class__ self
  /\ ((returned = data /\ exists before, tree.children self' = (before ++ [data])%list)
      \/ (returned = inr self'
          /\ exists other,
               data = inr other
               /\ tree.negated other = false
               /\ tree.children self'
                  = (tree.children self ++ tree.children other)%list)).
Proof.
  cbv zeta. unfold tree.add.
  destruct (tree.connector self =? conn_type)%string eqn:E; cbn [negb].
  - apply String.eqb_eq in E.
    assert (Happend :
      tree.leaves (tree.mkNode (tree.__class__ self)
                     (tree.children self ++ [data]) (tree.connector self)
                     (tree.negated self))
      = (tree.leaves self ++ tree.leaves_of data)%list).
    { rewrite !leaves_children. cbn [tree.children].
      rewrite flat_map_app. cbn. now rewrite app_nil_r. }
    destruct data as [x|other].
    { cbn [fst snd tree.connector tree.negated tree.__class__ tree.children].
      repeat split; auto. left. split; [reflexivity|]. now eexists. }
    destruct (negb (tree.negated other)) eqn:Hneg; cbn [andb].
    + destruct ((tree.connector other =? conn_type)%string
                || (tree.__len__ other =? 1)%nat);
        cbn [fst snd tree.connector tree.negated tree.__class__ tree.children].
      * split.
        { rewrite !leaves_children. cbn [tree.children tree.leaves_of].
          now rewrite flat_map_app, leaves_children. }
        repeat split; auto. right. split; [reflexivity|].
        exists other. split; [reflexivity|]. split; [|reflexivity].
        now apply negb_true_iff in Hneg.
      * repeat split; auto. left. split; [reflexivity|]. now eexists.
    + cbn [fst snd tree.connector tree.negated tree.__class__ tree.children].
      repeat split; auto. left. split; [reflexivity|]. now eexists.
  - cbn [fst snd tree.connector tree.negated tree.__class__ tree.children].
    split.
    { rewrite (leaves_children (tree.mkNode _ _ _ _)). cbn [tree.children flat_map].
      rewrite app_nil_r. f_equal.
      cbn [tree.leaves_of]. rewrite !leaves_children. reflexivity. }
    repeat split; auto. left. split; [reflexivity|].
    exists [inr (tree.__copy__ self)]. reflexivity.
Qed.

End NodeProperties.

(** * [make_hashable] *)

Section MakeHashableProperties.

Lemma ascii_compare_trans_le a b c :
  Ascii.compare a b <> Gt -> Ascii.compare b c <> Gt -> Ascii.compare a c <> Gt.
Proof.
  unfold Ascii.compare. rewrite !N.compare_le_iff. lia.
Qed.

Lemma string_leb_trans : forall s1 s2 s3,
  (s1 <=? s2)%string = true -> (s2 <=? s3)%string = true ->
  (s1 <=? s3)%string = true.
Proof.
  assert (Hle : forall s t, (s <=? t)%string = true <-> String.compare s t <> Gt).
  { intros s t. unfold String.leb. destruct (String.compare s t); split;
      congruence. }
  intros s1 s2 s3. rewrite !Hle. revert s2 s3.
  induction s1 as [|c1 s1 IH]; intros [|c2 s2] [|c3 s3]; cbn; try congruence.
  destruct (Ascii.compare c1 c2) eqn:E12; try congruence;
    destruct (Ascii.compare c2 c3) eqn:E23; try congruence; intros H12 H23.
  - apply Ascii.compare_eq_iff in E12, E23. subst.
    assert (E : Ascii.compare c3 c3 = Eq) by (unfold Ascii.compare; apply N.compare_refl).
    rewrite E. now apply (IH s2 s3).
  - apply Ascii.compare_eq_iff in E12. subst. now rewrite E23.
  - apply Ascii.compare_eq_iff in E23. subst. now rewrite E12.
  - assert (Hlt : Ascii.compare c1 c3 = Lt).
    { unfold Ascii.compare in *. rewrite N.compare_lt_iff in *. lia. }
    now rewrite Hlt.
Qed.

Lemma insert_comm {A : Type} (a b : string * A) l :
  fst a <> fst b ->
  hashable.insert a (hashable.insert b l) = hashable.insert b (hashable.insert a l).
Proof.
  intros Hne.
  assert (Hab : (fst a <=? fst b)%string = true -> (fst b <=? fst a)%string = false).
  { intros H1. destruct (fst b <=? fst a)%string eqn:H2; [|reflexivity].
    exfalso. apply Hne. now apply String.leb_antisym. }
  assert (Hba : (fst a <=? fst b)%string = false -> (fst b <=? fst a)%string = true).
  { intros H1. destruct (String.leb_total (fst a) (fst b)); congruence. }
  induction l as [|x l IH]; cbn.
  - destruct (fst a <=? fst b)%string eqn:E.
    + now rewrite (Hab eq_refl).
    + now rewrite (Hba eq_refl).
  - destruct (fst b <=? fst x)%string eqn:Ebx;
      destruct (fst a <=? fst x)%string eqn:Eax; cbn.
    + destruct (fst a <=? fst b)%string eqn:E.
      * rewrite (Hab eq_refl), Ebx. reflexivity.
      * rewrite (Hba eq_refl), Eax. reflexivity.
    + assert (E : (fst a <=? fst b)%string = false).
      { destruct (fst a <=? fst b)%string eqn:E; [|reflexivity].
        rewrite (string_leb_trans _ _ _ E Ebx) in Eax. discriminate. }
      rewrite E, Eax, Ebx. reflexivity.
    + assert (E : (fst b <=? fst a)%string = false).
      { destruct (fst b <=? fst a)%string eqn:E; [|reflexivity].
        rewrite (string_leb_trans _ _ _ E Eax) in Ebx. discriminate. }
      rewrite E, Eax, Ebx. reflexivity.
    + rewrite Eax, Ebx. now rewrite IH.
Qed.

Lemma sorted_permutation {A : Type} (l l' : list (string * A)) :
  Permutation l l' -> NoDup (map fst l) -> hashable.sorted l = hashable.sorted l'.
Proof.
  unfold hashable.sorted.
  induction 1 as [|x l l' _ IH|x y l|l l' l'' H1 IH1 H2 IH2]; intros Hnd.
  - reflexivity.
  - cbn [fold_right]. rewrite IH; [reflexivity|]. now inversion Hnd.
  - cbn [fold_right]. apply insert_comm. cbn in Hnd. inversion Hnd as [|? ? Hin _].
    intros E. apply Hin. left. now symmetry.
  - rewrite IH1 by exact Hnd. apply IH2.
    eapply Permutation_NoDup; [|exact Hnd]. now apply Permutation_map.
Qed.

(** X21.  The order in which a dictionary got its items does not matter to
    [make_hashable]: two dictionaries with the same items give the same
    result, or the same exception. *)
Theorem make_hashable_ignores_insertion_order items items' :
  NoDup (map fst items) ->
  Permutation items items' ->
  hashable.make_hashable (hashable.VDict items)
  = hashable.make_hashable (hashable.VDict items').
Proof.
  intros Hnd Hp. cbn [hashable.make_hashable].
  rewrite (sorted_permutation
             (map (fun item => (fst item, hashable.make_hashable (snd item))) items)
             (map (fun item => (fst item, hashable.make_hashable (snd item))) items')).
  - reflexivity.
  - now apply Permutation_map.
  - rewrite map_map. cbn. exact Hnd.
Qed.

Lemma insert_In {A : Type} (a x : string * A) l :
  In x (hashable.insert a l) <-> x = a \/ In x l.
Proof.
  induction l as [|y l IH]; cbn.
  - intuition.
  - destruct (fst a <=? fst y)%string; cbn; [intuition|].
    rewrite IH. intuition.
Qed.

Lemma sorted_In {A : Type} (x : string * A) l :
  In x (hashable.sorted l) <-> In x l.
Proof.
  unfold hashable.sorted.
  induction l as [|y l IH]; cbn [fold_right]; [reflexivity|].
  rewrite insert_In, IH. cbn. intuition.
Qed.

Lemma sequence_outcome {A : Type} (l : list (result A)) :
  match hashable.sequence l with
  | Ok values => l = map Ok values
  | Raise e => In (Raise e) l
  end.
Proof.
  induction l as [|[a|e] l IH]; cbn; [reflexivity| |now left].
  destruct (hashable.sequence l) as [values|e].
  - now rewrite IH.
  - now right.
Qed.

Lemma hashable_is_fixed v :
  hashable.hashable v = true ->
  hashable.make_hashable v = Ok v /\ hashable.holds_object v = false.
Proof.
  induction v as [| | |items IH|items IH|items IH|type_name]
    using hashable.value_induction; try discriminate; try (split; reflexivity).
  intros Hh. split.
  - cbn [hashable.make_hashable]. now rewrite Hh.
  - cbn in Hh |- *. induction IH as [|x items Hx _ IHitems]; [reflexivity|].
    cbn in Hh |- *. apply andb_true_iff in Hh. destruct Hh as [H1 H2].
    rewrite (proj2 (Hx H1)). now apply IHitems.
Qed.

Lemma settled_items items :
  Forall hashable.settled items ->
  match hashable.sequence (map hashable.make_hashable items) with
  | Ok items' =>
      forallb hashable.hashable items' = true
      /\ existsb hashable.holds_object items = false
  | Raise e => exc_type e = TypeError /\ existsb hashable.holds_object items = true
  end.
Proof.
  induction 1 as [|x items Hx _ IH]; cbn; [auto|].
  unfold hashable.settled in Hx.
  destruct (hashable.make_hashable x) as [h|e].
  - destruct Hx as (Hh & _ & Hno). rewrite Hno. cbn.
    destruct (hashable.sequence (map hashable.make_hashable items)) as [items'|e].
    + cbn. rewrite Hh. exact IH.
    + exact IH.
  - destruct Hx as [He Hobj]. rewrite Hobj. auto.
Qed.

Lemma settled_iterable items :
  Forall hashable.settled items ->
  match hashable.sequence (map hashable.make_hashable items) with
  | Ok items' =>
      hashable.hashable (hashable.VTuple items') = true
      /\ hashable.make_hashable (hashable.VTuple items') = Ok (hashable.VTuple items')
      /\ existsb hashable.holds_object items = false
  | Raise e => exc_type e = TypeError /\ existsb hashable.holds_object items = true
  end.
Proof.
  intros H. pose proof (settled_items items H) as Hs.
  destruct (hashable.sequence (map hashable.make_hashable items)) as [items'|e];
    [|exact Hs].
  destruct Hs as [Hh Hno]. split; [exact Hh|]. split; [|exact Hno].
  apply hashable_is_fixed. exact Hh.
Qed.

(** X22.  Whenever [make_hashable] returns, what it returns is hashable, and
    [make_hashable] leaves it as it is.  It returns for every value that
    holds no object of an unhashable, non-iterable type, however deep, and
    raises [TypeError] for the others. *)
Theorem make_hashable_gives_hashable v :
  match hashable.make_hashable v with
  | Ok h =>
      hashable.hashable h = true
      /\ hashable.make_hashable h = Ok h
      /\ hashable.holds_object v = false
  | Raise e => exc_type e = TypeError /\ hashable.holds_object v = true
  end.
Proof.
  change (hashable.settled v).
  induction v as [| | |items IH|items IH|items IH|type_name]
    using hashable.value_induction; unfold hashable.settled;
    try (cbn; auto; fail).
  - cbn [hashable.make_hashable].
    destruct (hashable.hashable (hashable.VTuple items)) eqn:Hh.
    + split; [exact Hh|]. apply hashable_is_fixed. exact Hh.
    + pose proof (settled_iterable items IH) as Hs.
      destruct (hashable.sequence (map hashable.make_hashable items));
        exact Hs.
  - cbn [hashable.make_hashable].
    pose proof (settled_iterable items IH) as Hs.
    destruct (hashable.sequence (map hashable.make_hashable items)); exact Hs.
  - cbn [hashable.make_hashable hashable.holds_object].
    set (outcomes :=
           map (fun item => (fst item, hashable.make_hashable (snd item))) items).
    pose proof (sequence_outcome (map hashable.pair_of (hashable.sorted outcomes)))
      as Hseq.
    assert (Hin : forall k r, In (k, r) (hashable.sorted outcomes) ->
                              exists x, In (k, x) items
                                        /\ r = hashable.make_hashable x).
    { intros k r Hkr. apply (proj1 (sorted_In _ _)) in Hkr. unfold outcomes in Hkr.
      apply in_map_iff in Hkr. destruct Hkr as ([k' x] & E & Hx).
      cbn in E. injection E as <- <-. eauto. }
    rewrite Forall_forall in IH.
    destruct (hashable.sequence (map hashable.pair_of (hashable.sorted outcomes)))
      as [pairs|e].
    + assert (Hpairs : forallb hashable.hashable pairs = true
                       /\ existsb (fun item => hashable.holds_object (snd item)) items
                          = false).
      { split.
        - apply forallb_forall. intros p Hp.
          assert (Hok : In (Ok p) (map hashable.pair_of (hashable.sorted outcomes))).
          { rewrite Hseq. now apply in_map. }
          apply in_map_iff in Hok. destruct Hok as ([k r] & Hpair & Hkr).
          destruct (Hin _ _ Hkr) as (x & Hx & ->).
          specialize (IH _ Hx). unfold hashable.settled in IH. cbn [snd] in IH.
          unfold hashable.pair_of in Hpair. cbn [fst snd] in Hpair.
          destruct (hashable.make_hashable x) as [h|e]; [|discriminate].
          injection Hpair as <-. cbn. destruct IH as (-> & _). reflexivity.
        - destruct (existsb (fun item => hashable.holds_object (snd item)) items)
            eqn:Hex; [|reflexivity].
          apply existsb_exists in Hex. destruct Hex as ([k x] & Hx & Hobj).
          cbn [snd] in Hobj.
          assert (Hout : In (k, hashable.make_hashable x) (hashable.sorted outcomes)).
          { apply sorted_In. unfold outcomes.
            apply in_map_iff. exists (k, x). auto. }
          apply (in_map hashable.pair_of) in Hout. rewrite Hseq in Hout.
          apply in_map_iff in Hout. destruct Hout as (p & Hp & _).
          specialize (IH _ Hx). unfold hashable.settled in IH. cbn [snd] in IH.
          unfold hashable.pair_of in Hp. cbn [fst snd] in Hp.
          destruct (hashable.make_hashable x) as [h|e]; [|discriminate].
          destruct IH as (_ & _ & Hno). congruence. }
      destruct Hpairs as [Hh Hno]. split; [exact Hh|]. split; [|exact Hno].
      apply hashable_is_fixed. exact Hh.
    + apply in_map_iff in Hseq. destruct Hseq as ([k r] & Hpair & Hkr).
      destruct (Hin _ _ Hkr) as (x & Hx & ->).
      pose proof (IH _ Hx) as Hsx. unfold hashable.settled in Hsx. cbn [snd] in Hsx.
      unfold hashable.pair_of in Hpair. cbn [fst snd] in Hpair.
      destruct (hashable.make_hashable x) as [h|e']; [discriminate|].
      injection Hpair as ->. destruct Hsx as [He Hobj]. split; [exact He|].
      apply existsb_exists. exists (k, x). auto.
Qed.

End MakeHashableProperties.

(** X21 on a dictionary of two items, written in either order. *)
Lemma make_hashable_ignores_insertion_order_witness :
  hashable.make_hashable
    (hashable.VDict [("b", hashable.VInt 2); ("a", hashable.VList [hashable.VInt 1])])
  = hashable.make_hashable
      (hashable.VDict [("a", hashable.VList [hashable.VInt 1]); ("b", hashable.VInt 2)]).
Proof.
  apply make_hashable_ignores_insertion_order.
  - repeat constructor; cbn; intuition discriminate.
  - apply perm_swap.
Defined.

(** * [BaseDatabaseWrapper] *)

Section DatabaseWrapperProperties.

Variable World : Type.
Variable Connection : Type.
Variable async_context : bool.
Variable connect : M (db_base.BaseDatabaseWrapper World Connection) unit.
Variable _savepoint_rollback :
  string -> M (db_base.BaseDatabaseWrapper World Connection) unit.

(** The statement a savepoint is rolled back with runs on a cursor; it does
    not touch the callbacks of the wrapper. *)
Hypothesis _savepoint_rollback_frame : forall sid self r self',
  _savepoint_rollback sid self = (r, self') ->
  db_base.run_on_commit self' = db_base.run_on_commit self.

Local Notation "'Wrapper'" := (db_base.BaseDatabaseWrapper World Connection).

Lemma sharing_step_count (self : Wrapper) c :
  0 <= db_base._thread_sharing_count self ->
  0 <= db_base._thread_sharing_count (db_base.sharing_step self c)
  /\ db_base._thread_ident (db_base.sharing_step self c) = db_base._thread_ident self.
Proof.
  intros H. destruct c; cbn.
  - split; [lia | reflexivity].
  - unfold db_base.dec_thread_sharing, bind, gets.
    destruct (Z.leb_spec (db_base._thread_sharing_count self) 0); cbn;
      split; try lia; reflexivity.
Qed.

(** X23.  The thread-sharing count never goes below zero, whatever calls of
    [inc_thread_sharing] and [dec_thread_sharing] are made: a
    [dec_thread_sharing] at zero raises [RuntimeError] and changes nothing,
    and one after an [inc_thread_sharing] undoes it.  The thread that
    created the wrapper always passes [validate_thread_sharing]; another
    thread passes exactly while the count is above zero. *)
Theorem thread_sharing_count_is_never_negative calls (self : Wrapper) :
  0 <= db_base._thread_sharing_count self ->
  let self' := fold_left db_base.sharing_step calls self in
  0 <= db_base._thread_sharing_count self'
  /\ db_base._thread_ident self' = db_base._thread_ident self
  /\ (db_base._thread_sharing_count self' = 0 ->
      db_base.dec_thread_sharing World Connection self'
      = (Raise (mkExn RuntimeError
                  "Cannot decrement the thread sharing count below zero."),
         self'))
  /\ db_base.dec_thread_sharing World Connection
       (snd (db_base.inc_thread_sharing World Connection self'))
     = (Ok tt, self')
  /\ db_base.validate_thread_sharing World Connection
       (db_base._thread_ident self') self' = (Ok tt, self')
  /\ forall other,
       other <> db_base._thread_ident self' ->
       (db_base.validate_thread_sharing World Connection other self' = (Ok tt, self')
        <-> 0 < db_base._thread_sharing_count self').
Proof.
  intros H0. cbv zeta.
  assert (Hinv : 0 <= db_base._thread_sharing_count
                        (fold_left db_base.sharing_step calls self)
                 /\ db_base._thread_ident (fold_left db_base.sharing_step calls self)
                    = db_base._thread_ident self).
  { revert self H0. induction calls as [|c calls IH]; intros self H0; [auto|].
    cbn [fold_left]. destruct (sharing_step_count self c H0) as [Hc Hi].
    destruct (IH _ Hc) as [H1 H2]. split; [exact H1 | congruence]. }
  destruct Hinv as [Hc Hi].
  set (self' := fold_left db_base.sharing_step calls self) in *.
  split; [exact Hc|]. split; [exact Hi|]. split; [|split; [|split]].
  - intros Hz. unfold db_base.dec_thread_sharing, bind, gets. now rewrite Hz.
  - unfold db_base.dec_thread_sharing, db_base.inc_thread_sharing, bind, gets,
      modify. cbn.
    destruct (Z.leb_spec (db_base._thread_sharing_count self' + 1) 0); [lia|].
    unfold db_base.with_thread_sharing_count. cbn.
    replace (db_base._thread_sharing_count self' + 1 - 1)
      with (db_base._thread_sharing_count self') by lia.
    now destruct self'.
  - unfold db_base.validate_thread_sharing, db_base.allow_thread_sharing,
      bind, gets, ret. cbn. rewrite Z.eqb_refl, orb_true_r. reflexivity.
  - intros other Hother.
    unfold db_base.validate_thread_sharing, db_base.allow_thread_sharing,
      bind, gets, ret. cbn.
    assert (E : (db_base._thread_ident self' =? other) = false)
      by (apply Z.eqb_neq; congruence).
    rewrite E, orb_false_r.
    destruct (Z.ltb_spec 0 (db_base._thread_sharing_count self')); cbn.
    + split; [intros _; assumption | reflexivity].
    + split; [discriminate | lia].
Qed.

Lemma run_hooks_frame hooks : forall (self : Wrapper) r self',
  db_base.run_hooks World Connection hooks self = (r, self') ->
  db_base.run_on_commit self' = db_base.run_on_commit self
  /\ db_base.in_atomic_block self' = db_base.in_atomic_block self.
Proof.
  induction hooks as [|[[sids func] robust] rest IH]; intros self r self' Hrun.
  - cbn in Hrun. unfold ret in Hrun. injection Hrun as <- <-. auto.
  - cbn [db_base.run_hooks] in Hrun. unfold bind in Hrun.
    assert (Hstep : forall r1 s1,
      (if robust
       then try_except (db_base.call World Connection func)
              (fun e =>
                 db_base.logger_error World Connection
                   ("Error calling " ++ db_base.__qualname__ func
                    ++ " in on_commit() during transaction ("
                    ++ exc_str e ++ ")."))
       else db_base.call World Connection func) self = (r1, s1) ->
      db_base.run_on_commit s1 = db_base.run_on_commit self
      /\ db_base.in_atomic_block s1 = db_base.in_atomic_block self).
    { intros r1 s1. unfold try_except, db_base.call, db_base.logger_error, modify.
      destruct robust;
        destruct (db_base.__call__ func (db_base.world self)) as [[[]|e] w];
        intros H; injection H as <- <-; auto. }
    destruct (if robust then _ else _) as [[[]|e] s1] eqn:E.
    + destruct (Hstep _ _ eq_refl) as [H1 H2]. destruct (IH _ _ _ Hrun) as [H3 H4].
      split; congruence.
    + injection Hrun as <- <-. exact (Hstep _ _ eq_refl).
Qed.

Lemma run_hooks_cons item rest (self : Wrapper) :
  db_base.run_hooks World Connection (item :: rest) self
  = match db_base.run_hooks World Connection [item] self with
    | (Ok _, s1) => db_base.run_hooks World Connection rest s1
    | (Raise e, s1) => (Raise e, s1)
    end.
Proof.
  destruct item as [[sids func] robust]. cbn [db_base.run_hooks].
  unfold bind, ret.
  destruct (if robust then _ else _) as [[[]|e] s1]; reflexivity.
Qed.

Lemma run_hooks_one item (self : Wrapper) :
  db_base.called (snd (db_base.run_hooks World Connection [item] self))
  = (db_base.called self ++ [db_base.__qualname__ (snd (fst item))])%list
  /\ (db_base.stops item self = false ->
      fst (db_base.run_hooks World Connection [item] self) = Ok tt)
  /\ (forall e w,
        db_base.__call__ (snd (fst item)) (db_base.world self) = (Raise e, w) ->
        snd item = false ->
        fst (db_base.run_hooks World Connection [item] self) = Raise e
        /\ db_base.world (snd (db_base.run_hooks World Connection [item] self)) = w).
Proof.
  destruct item as [[sids func] robust].
  unfold db_base.stops. cbn [db_base.run_hooks fst snd].
  unfold bind, try_except, db_base.call, db_base.logger_error, modify, ret.
  destruct robust; cbv beta;
    destruct (db_base.__call__ func (db_base.world self)) as [[[]|e] w];
    cbn; repeat split; intros; try discriminate; try reflexivity;
    match goal with H : (_, _) = (_, _) |- _ => now injection H as -> -> end.
Qed.

Lemma run_hooks_pass hooks : forall (self : Wrapper),
  db_base.all_pass hooks self = true ->
  exists self',
    db_base.run_hooks World Connection hooks self = (Ok tt, self')
    /\ db_base.called self'
       = (db_base.called self
          ++ map (fun item : db_base.entry World =>
                    db_base.__qualname__ (snd (fst item))) hooks)%list.
Proof.
  induction hooks as [|item rest IH]; intros self Hpass.
  - eexists. split; [reflexivity|]. cbn. now rewrite app_nil_r.
  - cbn [db_base.all_pass] in Hpass. apply andb_true_iff in Hpass.
    destruct Hpass as [Hstop Hrest]. apply negb_true_iff in Hstop.
    destruct (IH _ Hrest) as (self' & Hrun & Hcalled).
    destruct (run_hooks_one item self) as (Hc & Hok & _).
    specialize (Hok Hstop).
    exists self'. rewrite run_hooks_cons.
    destruct (db_base.run_hooks World Connection [item] self) as [[[]|e] s1];
      [|discriminate].
    cbn [snd] in *. split; [exact Hrun|].
    rewrite Hcalled, Hc. cbn [map]. now rewrite <- app_assoc.
Qed.

Lemma run_hooks_stop before (item : db_base.entry World) after :
  forall (self : Wrapper) e w,
  db_base.all_pass before self = true ->
  snd item = false ->
  db_base.__call__ (snd (fst item))
    (db_base.world (snd (db_base.run_hooks World Connection before self)))
  = (Raise e, w) ->
  exists self',
    db_base.run_hooks World Connection (before ++ item :: after) self
    = (Raise e, self')
    /\ db_base.called self'
       = (db_base.called self
          ++ map (fun item : db_base.entry World =>
                    db_base.__qualname__ (snd (fst item)))
               (before ++ [item]))%list
    /\ db_base.world self' = w.
Proof.
  induction before as [|first rest IH]; intros self e w Hpass Hplain Hcall.
  - cbn [db_base.run_hooks] in Hcall. unfold ret in Hcall. cbn [snd] in Hcall.
    cbn [app].
    destruct (run_hooks_one item self) as (Hc & _ & Hraise).
    destruct (Hraise e w Hcall Hplain) as [He Hw]. rewrite run_hooks_cons.
    destruct (db_base.run_hooks World Connection [item] self) as [[[]|e'] s1];
      cbn [fst snd] in *; [discriminate He|].
    injection He as ->.
    exists s1. split; [reflexivity|]. split; [exact Hc | exact Hw].
  - cbn [db_base.all_pass] in Hpass. apply andb_true_iff in Hpass.
    destruct Hpass as [Hfirst Hrest]. apply negb_true_iff in Hfirst.
    destruct (run_hooks_one first self) as (Hc & Hok & _).
    specialize (Hok Hfirst).
    rewrite run_hooks_cons in Hcall. cbn [app]. rewrite run_hooks_cons.
    destruct (db_base.run_hooks World Connection [first] self) as [[[]|e0] s1];
      [|discriminate].
    cbn [snd] in *.
    destruct (IH _ e w Hrest Hplain Hcall) as (self' & Hrun & Hcalled & Hw).
    exists self'. split; [exact Hrun|]. split; [|exact Hw].
    rewrite Hcalled, Hc. cbn [map]. now rewrite <- app_assoc.
Qed.

(** X24.  [run_and_clear_commit_hooks] refuses to run inside an atomic block
    and then leaves the callbacks where they are.  Outside one it calls the
    callbacks in the order they were registered and stops at the first one
    that raises without being robust: the exception that callback raised is
    the one [run_and_clear_commit_hooks] raises, and the application state
    is as the callback left it.  In every case [run_on_commit] is empty
    afterwards, so no callback is ever called a second time and those after
    the one that raised are dropped. *)
Theorem commit_hooks_are_run_once_in_order (self : Wrapper) :
  (db_base.in_atomic_block self = true ->
   db_base.run_and_clear_commit_hooks World Connection self
   = (Raise (mkExn db_base.TransactionManagementError
               "This is forbidden when an 'atomic' block is active."), self))
  /\ (db_base.in_atomic_block self = false ->
      let out := db_base.run_and_clear_commit_hooks World Connection self in
      let names :=
        map (fun item : db_base.entry World =>
               db_base.__qualname__ (snd (fst item))) in
      db_base.run_on_commit (snd out) = []
      /\ (db_base.all_pass (db_base.run_on_commit self)
            (db_base.with_run_on_commit World Connection [] self) = true ->
          fst out = Ok tt
          /\ db_base.called (snd out)
             = (db_base.called self ++ names (db_base.run_on_commit self))%list)
      /\ (forall before (item : db_base.entry World) after e w,
            db_base.run_on_commit self = (before ++ item :: after)%list ->
            db_base.all_pass before
              (db_base.with_run_on_commit World Connection [] self) = true ->
            snd item = false ->
            db_base.__call__ (snd (fst item))
              (db_base.world
                 (snd (db_base.run_hooks World Connection before
                         (db_base.with_run_on_commit World Connection [] self))))
            = (Raise e, w) ->
            fst out = Raise e
            /\ db_base.called (snd out)
               = (db_base.called self ++ names (before ++ [item]))%list
            /\ db_base.world (snd out) = w)).
Proof.
  split.
  - intros Hin. unfold db_base.run_and_clear_commit_hooks,
      db_base.validate_no_atomic_block, bind, gets. now rewrite Hin.
  - intros Hout. cbv zeta.
    assert (Hrun :
      db_base.run_and_clear_commit_hooks World Connection self
      = db_base.run_hooks World Connection (db_base.run_on_commit self)
          (db_base.with_run_on_commit World Connection [] self)).
    { unfold db_base.run_and_clear_commit_hooks,
        db_base.validate_no_atomic_block, bind, gets, modify, ret.
      now rewrite Hout. }
    rewrite Hrun. split; [|split].
    + destruct (db_base.run_hooks World Connection (db_base.run_on_commit self) _)
        as [r self'] eqn:E.
      cbn [snd]. destruct (run_hooks_frame _ _ _ _ E) as [H _].
      rewrite H. reflexivity.
    + intros Hpass. destruct (run_hooks_pass _ _ Hpass) as (self' & -> & Hc).
      split; [reflexivity | exact Hc].
    + intros before item after e w Hsplit Hpass Hplain Hcall. rewrite Hsplit.
      destruct (run_hooks_stop before item after _ e w Hpass Hplain Hcall)
        as (self' & -> & Hc & Hw).
      split; [reflexivity|]. split; [exact Hc | exact Hw].
Qed.

(** What [async_unsafe] does with a call, by the context of the caller. *)
Lemma async_unsafe_allowed {A : Type} (func : M Wrapper A) :
  async_context = false ->
  db_base.async_unsafe World Connection async_context func = func.
Proof. intros H. unfold db_base.async_unsafe. now rewrite H. Qed.

Lemma async_unsafe_refused {A : Type} (func : M Wrapper A) (self : Wrapper) :
  async_context = true ->
  db_base.async_unsafe World Connection async_context func self
  = (Raise (mkExn db_base.SynchronousOnlyOperation
              "You cannot call this from an async context - use a thread or sync_to_async."),
     self).
Proof. intros H. unfold db_base.async_unsafe. now rewrite H. Qed.

Lemma get_autocommit_connected (self : Wrapper) c :
  async_context = false ->
  db_base.connection self = Some c ->
  db_base.get_autocommit World Connection async_context connect self
  = (Ok (db_base.autocommit self), self).
Proof.
  intros Ha Hc. unfold db_base.get_autocommit, db_base.ensure_connection.
  rewrite (async_unsafe_allowed _ Ha). unfold bind, gets.
  now rewrite Hc.
Qed.

Lemma get_autocommit_refused (self : Wrapper) :
  async_context = true ->
  db_base.get_autocommit World Connection async_context connect self
  = (Raise (mkExn db_base.SynchronousOnlyOperation
              "You cannot call this from an async context - use a thread or sync_to_async."),
     self).
Proof.
  intros Ha. unfold db_base.get_autocommit, db_base.ensure_connection.
  unfold bind. now rewrite (async_unsafe_refused _ _ Ha).
Qed.

(** X25.  Inside an atomic block [on_commit] does not call the callback: it
    stores it at the end of [run_on_commit] with the savepoints active at
    that time.  A [savepoint_rollback] that goes through afterwards drops
    the callback when its savepoint was one of them, together with every
    callback stored earlier under that savepoint, and keeps the others in
    their order. *)
Theorem savepoint_rollback_drops_its_callbacks
    get_ident sid func robust (self : Wrapper) c :
  db_base.connection self = Some c ->
  db_base.in_atomic_block self = true ->
  let keeps (item : db_base.entry World) :=
    negb (db_base.mem_sid sid (fst (fst item))) in
  let stored :=
    db_base.with_run_on_commit World Connection
      (db_base.run_on_commit self ++ [(db_base.savepoint_ids self, func, robust)])
      self in
  db_base.on_commit World Connection async_context connect (Some func) robust self
  = (Ok tt, stored)
  /\ db_base.called stored = db_base.called self
  /\ forall self',
       db_base.uses_savepoints self = true ->
       db_base.autocommit self = false ->
       db_base.savepoint_rollback World Connection async_context connect _savepoint_rollback
         get_ident sid stored = (Ok tt, self') ->
       db_base.run_on_commit self'
       = (filter keeps (db_base.run_on_commit self)
          ++ (if db_base.mem_sid sid (db_base.savepoint_ids self)
              then []
              else [(db_base.savepoint_ids self, func, robust)]))%list.
Proof.
  intros Hc Hin keeps stored. split; [|split].
  - unfold db_base.on_commit, bind, gets, modify. now rewrite Hin.
  - reflexivity.
  - intros self' Huses Hauto Hroll.
    unfold db_base.savepoint_rollback in Hroll.
    assert (Hsafe : async_context = false).
    { destruct (bool_dec async_context false) as [Hsafe | Hne]; [exact Hsafe|].
      apply not_false_is_true in Hne.
      rewrite (async_unsafe_refused _ _ Hne) in Hroll. discriminate. }
    rewrite (async_unsafe_allowed _ Hsafe) in Hroll.
    assert (Hallowed :
      db_base._savepoint_allowed World Connection async_context connect stored
      = (Ok true, stored)).
    { unfold db_base._savepoint_allowed. unfold bind at 1, gets.
      cbn [db_base.uses_savepoints stored db_base.with_run_on_commit].
      rewrite Huses. unfold bind.
      rewrite (get_autocommit_connected stored c Hsafe) by exact Hc.
      cbn [db_base.autocommit stored db_base.with_run_on_commit].
      now rewrite Hauto. }
    unfold bind at 1 in Hroll. rewrite Hallowed in Hroll. cbn [negb] in Hroll.
    unfold bind at 1 in Hroll.
    destruct (db_base.validate_thread_sharing World Connection get_ident stored)
      as [[[]|e] s1] eqn:Hvalid; [|discriminate].
    assert (Hs1 : s1 = stored).
    { revert Hvalid. unfold db_base.validate_thread_sharing,
        db_base.allow_thread_sharing, bind, gets, ret, raise.
      destruct (negb _); intros H; now injection H. }
    subst s1. unfold bind in Hroll.
    destruct (_savepoint_rollback sid stored) as [[[]|e] s2] eqn:Hback;
      [|discriminate].
    apply _savepoint_rollback_frame in Hback.
    unfold modify in Hroll. injection Hroll as <-.
    cbn [db_base.run_on_commit db_base.with_run_on_commit]. rewrite Hback.
    cbn [db_base.run_on_commit stored db_base.with_run_on_commit].
    rewrite filter_app. cbn [filter fst]. fold keeps.
    unfold keeps at 2. cbn [fst].
    destruct (db_base.mem_sid sid (db_base.savepoint_ids self)); reflexivity.
Qed.

(** X26.  Outside an atomic block [on_commit] stores nothing.  A caller in
    an async context is refused with [SynchronousOnlyOperation] when
    [on_commit] asks for the autocommit state, and the callback is not
    called.  Otherwise, in autocommit mode the callback is called at once:
    the exception of a robust callback is not raised but written, with the
    callback's name, to the logger [django.db.backends.base], and nothing is
    written in any other case; in manual transaction management [on_commit]
    raises [TransactionManagementError] and the callback is not called.  An
    object that is not callable is refused with [TypeError] in every case. *)
Theorem on_commit_outside_atomic_block func robust (self : Wrapper) c :
  db_base.connection self = Some c ->
  db_base.in_atomic_block self = false ->
  let out :=
    db_base.on_commit World Connection async_context connect (Some func) robust
      self in
  let outcome := db_base.__call__ func (db_base.world self) in
  db_base.run_on_commit (snd out) = db_base.run_on_commit self
  /\ (async_context = false -> db_base.autocommit self = true ->
      db_base.called (snd out)
      = (db_base.called self ++ [db_base.__qualname__ func])%list
      /\ db_base.world (snd out) = snd outcome
      /\ (robust = false ->
          fst out = fst outcome /\ db_base.logs (snd out) = db_base.logs self)
      /\ (robust = true ->
          fst out = Ok tt
          /\ (fst outcome = Ok tt -> db_base.logs (snd out) = db_base.logs self)
          /\ (forall e, fst outcome = Raise e ->
              db_base.logs (snd out)
              = (db_base.logs self
                 ++ [mkLog "django.db.backends.base" "error"
                       ("Error calling " ++ db_base.__qualname__ func
                        ++ " in on_commit() (" ++ exc_str e ++ ").")])%list)))
  /\ (async_context = false -> db_base.autocommit self = false ->
      out = (Raise (mkExn db_base.TransactionManagementError
                      "on_commit() cannot be used in manual transaction management"),
             self))
  /\ (async_context = true ->
      out = (Raise (mkExn db_base.SynchronousOnlyOperation
                      "You cannot call this from an async context - use a thread or sync_to_async."),
             self))
  /\ db_base.on_commit World Connection async_context connect None robust self
     = (Raise (mkExn TypeError "on_commit()'s callback must be a callable."), self).
Proof.
  intros Hc Hin. cbv zeta.
  assert (Hsafe : async_context = false ->
    db_base.on_commit World Connection async_context connect (Some func) robust self
    = (if negb (db_base.autocommit self)
       then raise (mkExn db_base.TransactionManagementError
                     "on_commit() cannot be used in manual transaction management")
       else if robust
            then try_except (db_base.call World Connection func)
                   (fun e =>
                      db_base.logger_error World Connection
                        ("Error calling " ++ db_base.__qualname__ func
                         ++ " in on_commit() (" ++ exc_str e ++ ")."))
            else db_base.call World Connection func) self).
  { intros Ha. unfold db_base.on_commit. unfold bind at 1, gets. rewrite Hin.
    unfold bind. now rewrite (get_autocommit_connected self c Ha Hc). }
  assert (Hasync : async_context = true ->
    db_base.on_commit World Connection async_context connect (Some func) robust self
    = (Raise (mkExn db_base.SynchronousOnlyOperation
                "You cannot call this from an async context - use a thread or sync_to_async."),
       self)).
  { intros Ha. unfold db_base.on_commit. unfold bind at 1, gets. rewrite Hin.
    unfold bind. now rewrite (get_autocommit_refused self Ha). }
  split; [|split; [|split; [|split]]].
  - destruct (bool_dec async_context false) as [Ha | Ha].
    + rewrite (Hsafe Ha).
      destruct (db_base.autocommit self); [|reflexivity]. cbn [negb].
      unfold try_except, db_base.call, db_base.logger_error, modify.
      destruct robust;
        destruct (db_base.__call__ func (db_base.world self)) as [[[]|e] w];
        reflexivity.
    + apply not_false_is_true in Ha. now rewrite (Hasync Ha).
  - intros Ha Hauto. rewrite (Hsafe Ha), Hauto. cbn [negb].
    unfold try_except, db_base.call, db_base.logger_error, modify.
    destruct robust;
      destruct (db_base.__call__ func (db_base.world self)) as [[[]|e] w];
      cbn; repeat split; intros; try discriminate; try reflexivity;
      match goal with
      | H : Raise _ = Raise _ |- _ => now injection H as ->
      | _ => idtac
      end.
  - intros Ha Hauto. rewrite (Hsafe Ha), Hauto. reflexivity.
  - exact Hasync.
  - reflexivity.
Qed.

End DatabaseWrapperProperties.

(** X23 on a sample wrapper: one [inc_thread_sharing] and two
    [dec_thread_sharing]. *)
Lemma thread_sharing_count_is_never_negative_witness :
  db_base._thread_sharing_count
    (fold_left db_base.sharing_step [db_base.inc; db_base.dec; db_base.dec]
       sample_wrapper) = 0
  /\ fst (db_base.validate_thread_sharing _ _ 2
            (fold_left db_base.sharing_step [db_base.inc; db_base.dec; db_base.dec]
               sample_wrapper))
     <> Ok tt.
Proof.
  destruct (thread_sharing_count_is_never_negative (list string) unit
              [db_base.inc; db_base.dec; db_base.dec] sample_wrapper)
    as (_ & _ & _ & _ & _ & H).
  - cbn. lia.
  - split; [reflexivity|].
    intros Hok. destruct (H 2) as [Hpass _].
    + cbn. lia.
    + assert (Hlt : 0 < 0); [|lia]. apply Hpass.
      vm_compute in Hok. discriminate.
Defined.

(** X24 on a sample wrapper with four callbacks, the second robust and
    failing, the third failing: its exception is the one raised. *)
Lemma commit_hooks_are_run_once_in_order_witness :
  let out :=
    db_base.run_and_clear_commit_hooks _ _ wrapper_with_callbacks in
  fst out = Raise (mkExn ValueError "c failed")
  /\ db_base.called (snd out) = ["a"; "b"; "c"]
  /\ db_base.run_on_commit (snd out) = []
  /\ db_base.world (snd out) = ["a"].
Proof.
  destruct (commit_hooks_are_run_once_in_order (list string) unit
              wrapper_with_callbacks) as [_ H].
  destruct (H eq_refl) as (Hempty & _ & Hstop).
  destruct (Hstop [([], noting "a", false); ([], failing "b", true)]
              ([], failing "c", false) [([], noting "d", false)]
              (mkExn ValueError "c failed") ["a"]
              eq_refl eq_refl eq_refl eq_refl) as (Hraised & Hcalled & Hworld).
  cbv zeta. split; [exact Hraised|]. split; [exact Hcalled|].
  split; [exact Hempty | exact Hworld].
Defined.

(** X25 on a sample wrapper inside an atomic block: a callback stored under
    the savepoint [s1], which is then rolled back. *)
Lemma savepoint_rollback_drops_its_callbacks_witness :
  exists stored self',
    db_base.on_commit _ _ false sample_connect (Some (noting "late")) false
      wrapper_in_atomic_block = (Ok tt, stored)
    /\ db_base.savepoint_rollback _ _ false sample_connect
         sample_savepoint_rollback 1 "s1" stored = (Ok tt, self')
    /\ db_base.run_on_commit self' = [([], noting "early", false)].
Proof.
  destruct (savepoint_rollback_drops_its_callbacks (list string) unit false
              sample_connect sample_savepoint_rollback
              ltac:(intros sid self r self' H; injection H as _ <-; reflexivity)
              1 "s1" (noting "late") false wrapper_in_atomic_block tt
              eq_refl eq_refl) as (Hstore & _ & Hroll).
  do 2 eexists. split; [exact Hstore|]. split; [reflexivity|].
  rewrite (Hroll _ eq_refl eq_refl eq_refl). reflexivity.
Defined.

(** X26 on a sample wrapper in autocommit mode: a robust callback that
    fails is called and its exception logged, and a caller in an async
    context is refused before the callback is called. *)
Lemma on_commit_outside_atomic_block_witness :
  (let out :=
     db_base.on_commit _ _ false sample_connect (Some (failing "b")) true
       sample_wrapper in
   fst out = Ok tt
   /\ db_base.called (snd out) = ["b"]
   /\ db_base.run_on_commit (snd out) = []
   /\ db_base.logs (snd out)
      = [mkLog "django.db.backends.base" "error"
           "Error calling b in on_commit() (b failed)."])
  /\ db_base.on_commit _ _ true sample_connect (Some (failing "b")) true
       sample_wrapper
     = (Raise (mkExn db_base.SynchronousOnlyOperation
                 "You cannot call this from an async context - use a thread or sync_to_async."),
        sample_wrapper).
Proof.
  split.
  - destruct (on_commit_outside_atomic_block (list string) unit false
                sample_connect (failing "b") true sample_wrapper tt
                eq_refl eq_refl) as (Hstored & Hauto & _).
    destruct (Hauto eq_refl eq_refl) as (Hcalled & _ & _ & Hrobust).
    destruct (Hrobust eq_refl) as (Hok & _ & Hlogged).
    cbv zeta. split; [exact Hok|]. split; [exact Hcalled|].
    split; [exact Hstored|].
    exact (Hlogged (mkExn ValueError "b failed") eq_refl).
  - destruct (on_commit_outside_atomic_block (list string) unit true
                sample_connect (failing "b") true sample_wrapper tt
                eq_refl eq_refl) as (_ & _ & _ & Hrefused & _).
    exact (Hrefused eq_refl).
Defined.

(** * [get_script_name] *)

Section ScriptNameProperties.

Variable str : Type.
Variable decode : wsgi.bytes -> result str.

Lemma squash_no_double_slash s : wsgi.has_double_slash (wsgi.squash s) = false.
Proof.
  induction s as [|x rest IH]; [reflexivity|].
  cbn [wsgi.squash]. destruct rest as [|y rest']; [reflexivity|].
  destruct (wsgi.is_slash x && wsgi.is_slash y) eqn:E; [exact IH|].
  remember (y :: rest') as tail eqn:Ht.
  cbn [wsgi.has_double_slash].
  destruct (wsgi.squash tail) as [|z tail'] eqn:Hs; [reflexivity|].
  rewrite IH, orb_false_r.
  assert (Hz : wsgi.is_slash z = true -> wsgi.is_slash y = true).
  { subst tail. revert Hs. clear. revert y z tail'.
    induction rest' as [|y' rest'' IHr]; intros y z tail' Hs.
    - cbn in Hs. now injection Hs as <- _.
    - cbn [wsgi.squash] in Hs.
      destruct (wsgi.is_slash y && wsgi.is_slash y') eqn:E.
      + apply andb_true_iff in E. destruct E as [Hy Hy'].
        intros Hzs. exact Hy.
      + now injection Hs as <- _. }
  destruct (wsgi.is_slash x) eqn:Hx; [|reflexivity]. cbn in E |- *.
  destruct (wsgi.is_slash z) eqn:Hzs; [|reflexivity].
  rewrite (Hz eq_refl) in E. discriminate.
Qed.

Lemma prefix_no_double_slash n s :
  wsgi.has_double_slash s = false ->
  wsgi.has_double_slash (firstn n s) = false.
Proof.
  revert n. induction s as [|x rest IH]; intros n Hs.
  - now rewrite firstn_nil.
  - destruct n as [|n]; [reflexivity|]. cbn [firstn].
    destruct rest as [|y rest']; [now rewrite firstn_nil|].
    cbn [wsgi.has_double_slash] in Hs. apply orb_false_iff in Hs.
    destruct Hs as [Hxy Hrest].
    specialize (IH n Hrest).
    destruct n as [|n]; [reflexivity|].
    cbn [firstn] in IH |- *.
    change (wsgi.has_double_slash (x :: y :: firstn n rest'))
      with ((wsgi.is_slash x && wsgi.is_slash y)
            || wsgi.has_double_slash (y :: firstn n rest')).
    now rewrite Hxy, IH.
Qed.

Lemma squash_fixed s : wsgi.has_double_slash s = false -> wsgi.squash s = s.
Proof.
  induction s as [|x rest IH]; [reflexivity|].
  destruct rest as [|y rest']; [reflexivity|].
  intros Hs. cbn [wsgi.has_double_slash] in Hs. apply orb_false_iff in Hs.
  destruct Hs as [Hxy Hrest].
  change (wsgi.squash (x :: y :: rest'))
    with (if wsgi.is_slash x && wsgi.is_slash y
          then wsgi.squash (y :: rest')
          else x :: wsgi.squash (y :: rest')).
  now rewrite Hxy, (IH Hrest).
Qed.

(** X27.  [FORCE_SCRIPT_NAME], when set, is the script name whatever the
    environ holds.  Otherwise, when the environ has a [SCRIPT_URL] (or,
    failing that, a [REDIRECT_URL]), the script name is decoded from bytes
    with no two slashes in a row: the URL with its runs of slashes squashed
    and its last [len(PATH_INFO)] bytes cut off, which is the part of the
    URL before [PATH_INFO] when the squashed URL ends with it. *)
Theorem script_name_has_no_double_slash FORCE_SCRIPT_NAME (environ : wsgi.environ) :
  (forall name,
      FORCE_SCRIPT_NAME = Some name ->
      wsgi.get_script_name str FORCE_SCRIPT_NAME decode environ = Ok name)
  /\ forall script_url,
       FORCE_SCRIPT_NAME = None ->
       script_url
       = match wsgi.get_bytes_from_wsgi environ "SCRIPT_URL" "" with
         | [] => wsgi.get_bytes_from_wsgi environ "REDIRECT_URL" ""
         | url => url
         end ->
       script_url <> [] ->
       exists script_name,
         wsgi.get_script_name str FORCE_SCRIPT_NAME decode environ
         = decode script_name
         /\ wsgi.has_double_slash script_name = false
         /\ forall before,
              wsgi.squash script_url
              = (before ++ wsgi.get_bytes_from_wsgi environ "PATH_INFO" "")%list ->
              script_name = before.
Proof.
  split.
  - intros name ->. reflexivity.
  - intros script_url -> Hurl Hne. unfold wsgi.get_script_name.
    set (url := match wsgi.get_bytes_from_wsgi environ "SCRIPT_URL" "" with
                | [] => wsgi.get_bytes_from_wsgi environ "REDIRECT_URL" ""
                | _ :: _ => wsgi.get_bytes_from_wsgi environ "SCRIPT_URL" ""
                end).
    assert (Eurl : url = script_url).
    { subst url script_url.
      destruct (wsgi.get_bytes_from_wsgi environ "SCRIPT_URL" ""); reflexivity. }
    assert (Hgoal :
      match wsgi.get_bytes_from_wsgi environ "SCRIPT_URL" "" with
      | [] => wsgi.get_bytes_from_wsgi environ "REDIRECT_URL" ""
      | b :: l => b :: l
      end = script_url).
    { subst script_url. reflexivity. }
    rewrite Hgoal. clear Hgoal url Eurl.
    destruct script_url as [|b0 url0] eqn:Eu; [congruence|]. rewrite <- Eu.
    assert (Hsq : (if wsgi.has_double_slash script_url
                   then wsgi.squash script_url else script_url)
                  = wsgi.squash script_url).
    { destruct (wsgi.has_double_slash script_url) eqn:E; [reflexivity|].
      symmetry. now apply squash_fixed. }
    rewrite Hsq.
    set (path_info := wsgi.get_bytes_from_wsgi environ "PATH_INFO" "").
    destruct path_info as [|p0 path_rest] eqn:Ep.
    + exists (wsgi.squash script_url). split; [reflexivity|].
      split; [apply squash_no_double_slash|].
      intros before Hb. rewrite Hb. apply app_nil_r.
    + rewrite <- Ep.
      exists (wsgi.without_last (length path_info) (wsgi.squash script_url)).
      split; [reflexivity|]. split.
      * apply prefix_no_double_slash, squash_no_double_slash.
      * intros before Hb. unfold wsgi.without_last. rewrite Ep in Hb. rewrite Hb, Ep.
        rewrite length_app.
        replace (length before + length (p0 :: path_rest) - length (p0 :: path_rest))%nat
          with (length before) by lia.
        rewrite firstn_app, Nat.sub_diag, firstn_all. cbn. apply app_nil_r.
Qed.

End ScriptNameProperties.

(** X27 on an environ as [mod_rewrite] leaves it. *)
Lemma script_name_has_no_double_slash_witness :
  wsgi.get_script_name string None (fun b => Ok (string_of_list_byte b))
    [("SCRIPT_URL", "/shop//front/items/"); ("PATH_INFO", "/items/");
     ("SCRIPT_NAME", "/index.wsgi")]
  = Ok "/shop/front".
Proof.
  destruct (script_name_has_no_double_slash string
              (fun b => Ok (string_of_list_byte b)) None
              [("SCRIPT_URL", "/shop//front/items/"); ("PATH_INFO", "/items/");
               ("SCRIPT_NAME", "/index.wsgi")]) as [_ H].
  destruct (H (list_byte_of_string "/shop//front/items/") eq_refl eq_refl)
    as (script_name & Hget & _ & Hcut).
  - discriminate.
  - rewrite Hget, (Hcut (list_byte_of_string "/shop/front")); reflexivity.
Defined.
